(** * ESP32 home automation, PC side: the volume bridge

    A shallow embedding of the Python modules [volume_controller.py],
    [mqtt_client.py] and [system_monitor.py], of the merge of
    [config.py] and of the construction of the controller in [app.py],
    and the properties of the synchronisation engine checked against
    them.

    Conventions of the embedding.
    - Python floats are IEEE binary64 numbers: Rocq's primitive [float].
      The scalar handed to the audio endpoint ([level / 100.0]) is
      computed with them. pycaw passes a level as a C float, so a getter
      returns the binary32 number nearest to the level that was set, and
      [int(scalar * 100)] is computed on that number.
    - A Python [str] is a [string] of Rocq; [int()] and [upper()] are
      modelled on texts of ASCII characters ([is_ascii]).
    - [time.time()] is a reading of the field [clock] of the world, in
      milliseconds; the rate limit and the sync interval are in the same
      unit. The environment moves the clock between calls; one call of a
      handler sees one reading.
    - A method of a Python class is a computation in the monad [M]: it
      threads the world and either returns a value or raises.
      [try ... except] is [try_except].
    - The COM audio endpoint, the MQTT client of paho and psutil are
      outside the repository: the world holds a fake of each one, which
      records every call it receives. *)

From Stdlib Require Import ZArith Floats Uint63 Ascii String List Bool Lia.
From stdpp Require Import gmap strings.
Import ListNotations.

Set Warnings "-register-all".
Local Open Scope string_scope.
Local Open Scope Z_scope.

(** ** Python values *)

Module Py.

(** The values [json.loads] produces. A JSON object keeps its members in
    source order; [dict_get] takes the last binding of a key, as the
    decoder does. *)
Inductive pyval : Type :=
  | PNone
  | PBool (b : bool)
  | PInt (z : Z)
  | PFloat (f : float)
  | PStr (s : string)
  | PList (l : list pyval)
  | PDict (d : list (string * pyval)).

Inductive exn : Type :=
  | ValueError
  | TypeError
  | AttributeError
  | JSONDecodeError
  | COMError
  | ConnectionError
  | PsutilError.

Definition float_of_Z (z : Z) : float :=
  if z <? 0 then PrimFloat.opp (PrimFloat.of_uint63 (Uint63.of_Z (- z)))
  else PrimFloat.of_uint63 (Uint63.of_Z z).

(** [int(x)] on a float: truncation toward zero; [ValueError] on a NaN and
    [OverflowError] on an infinity (both [None] here). *)
Definition int_of_float (f : float) : option Z :=
  match Prim2SF f with
  | S754_zero _ => Some 0
  | S754_finite s m e =>
      let mag := match e with
                 | Z0 => Zpos m
                 | Zpos p => Zpos m * 2 ^ Zpos p
                 | Zneg p => Zpos m / 2 ^ Zpos p
                 end in
      Some (if s then - mag else mag)
  | S754_infinity _ => None
  | S754_nan => None
  end.

(** [bool(v)] *)
Definition truthy (v : pyval) : bool :=
  match v with
  | PNone => false
  | PBool b => b
  | PInt z => negb (z =? 0)
  | PFloat f => negb (PrimFloat.eqb f 0%float)
  | PStr s => negb (String.eqb s "")
  | PList l => match l with [] => false | _ => true end
  | PDict d => match d with [] => false | _ => true end
  end.

(** [d.get(k)]: the last binding of [k], [None] when there is none. *)
Fixpoint dict_get (k : string) (d : list (string * pyval)) : pyval :=
  match d with
  | [] => PNone
  | (k', v) :: d' =>
      if existsb (fun kv => String.eqb k (fst kv)) d' then dict_get k d'
      else if String.eqb k k' then v else PNone
  end.

(** [v < n] and [v > n] for an int [n]; [None] is the [TypeError] of an
    unordered pair. A float is compared with the float of [n], which is
    exact for the two bounds 0 and 100 the code uses. *)
Definition lt_int (v : pyval) (n : Z) : option bool :=
  match v with
  | PInt z => Some (z <? n)
  | PBool b => Some ((if b then 1 else 0) <? n)
  | PFloat f => Some (PrimFloat.ltb f (float_of_Z n))
  | _ => None
  end.

Definition gt_int (v : pyval) (n : Z) : option bool :=
  match v with
  | PInt z => Some (n <? z)
  | PBool b => Some (n <? (if b then 1 else 0))
  | PFloat f => Some (PrimFloat.ltb (float_of_Z n) f)
  | _ => None
  end.

(** [max(0, min(100, level))]. [min(a, b)] is [b] when [b < a] and [a]
    otherwise; [max(a, b)] is [b] when [b > a] and [a] otherwise. *)
Definition clamp_0_100 (level : pyval) : option pyval :=
  match lt_int level 100 with
  | None => None
  | Some lt100 =>
      let m := if lt100 then level else PInt 100 in
      match gt_int m 0 with
      | None => None
      | Some gt0 => Some (if gt0 then m else PInt 0)
      end
  end.

(** [level / 100.0] *)
Definition div_100 (level : pyval) : option float :=
  match level with
  | PInt z => Some (float_of_Z z / 100)%float
  | PBool b => Some (float_of_Z (if b then 1 else 0) / 100)%float
  | PFloat f => Some (f / 100)%float
  | _ => None
  end.

(** A level as it crosses the COM interface: pycaw declares the levels
    of [IAudioEndpointVolume] and [ISimpleAudioVolume] as [c_float], so a
    Python float is rounded to the nearest binary32 number, and what a
    getter returns is such a number. *)
Definition to_c_float (x : float) : float :=
  match Prim2SF x with
  | S754_finite s m e =>
      SF2Prim (binary_normalize 24 128 (if s then Zneg m else Zpos m) e s)
  | _ => x
  end.

(** [int(scalar * 100)] on the level a getter returns for the level
    [scalar] that was set. *)
Definition percent_of_scalar (scalar : float) : option Z :=
  int_of_float (to_c_float scalar * 100)%float.

(** *** The characters paho refuses in the topic of a publish *)

Definition is_wildcard (c : ascii) : bool :=
  Ascii.eqb c "+"%char || Ascii.eqb c "#"%char.

Fixpoint has_wildcard (s : string) : bool :=
  match s with
  | EmptyString => false
  | String c s' => is_wildcard c || has_wildcard s'
  end.

(** Whether [str(v)], as an f-string formats it, has a [+] or a [#]. The
    text of [None], of a boolean and of an integer has none; the text of
    a float has a [+] when it is written with an exponent, from [1e+16]
    on; a list and a dictionary show the text of their members. *)
Fixpoint str_has_wildcard (v : pyval) : bool :=
  match v with
  | PNone | PBool _ | PInt _ => false
  | PFloat f =>
      match Prim2SF f with
      | S754_finite _ _ _ => PrimFloat.leb 1e16 (PrimFloat.abs f)
      | _ => false
      end
  | PStr s => has_wildcard s
  | PList l => existsb str_has_wildcard l
  | PDict d =>
      existsb (fun kv => has_wildcard (fst kv) || str_has_wildcard (snd kv)) d
  end.

(** *** [int(payload)] on a string of ASCII characters *)

Definition is_space (c : ascii) : bool :=
  let n := nat_of_ascii c in
  ((9 <=? n)%nat && (n <=? 13)%nat) || ((28 <=? n)%nat && (n <=? 32)%nat).

Definition is_digit (c : ascii) : bool :=
  let n := nat_of_ascii c in (48 <=? n)%nat && (n <=? 57)%nat.

Definition digit_val (c : ascii) : Z := Z.of_nat (nat_of_ascii c) - 48.

Fixpoint lstrip (l : list ascii) : list ascii :=
  match l with
  | c :: l' => if is_space c then lstrip l' else l
  | [] => []
  end.

Definition strip (l : list ascii) : list ascii :=
  rev (lstrip (rev (lstrip l))).

(** Decimal digits, with single underscores between digits. *)
Fixpoint digits (acc : Z) (after_digit : bool) (l : list ascii) : option Z :=
  match l with
  | [] => if after_digit then Some acc else None
  | c :: l' =>
      if is_digit c then digits (10 * acc + digit_val c) true l'
      else if Ascii.eqb c "_"%char && after_digit then digits acc false l'
      else None
  end.

(** [sys.int_info.default_max_str_digits]: [int()] raises [ValueError] on
    a text with more digits than this. *)
Definition max_str_digits : Z := 4300.

Definition digit_count (l : list ascii) : Z :=
  Z.of_nat (length (List.filter is_digit l)).

Definition int_of_string (s : string) : option Z :=
  let l := strip (list_ascii_of_string s) in
  if max_str_digits <? digit_count l then None
  else
    match l with
    | "+"%char :: r => digits 0 false r
    | "-"%char :: r => option_map Z.opp (digits 0 false r)
    | l => digits 0 false l
    end.

(** A text of ASCII characters only. *)
Definition is_ascii (s : string) : bool :=
  forallb (fun c => (nat_of_ascii c <? 128)%nat) (list_ascii_of_string s).

(** [s.upper()] on ASCII *)
Definition upper_char (c : ascii) : ascii :=
  let n := nat_of_ascii c in
  if (97 <=? n)%nat && (n <=? 122)%nat then ascii_of_nat (n - 32) else c.

Fixpoint upper (s : string) : string :=
  match s with
  | EmptyString => EmptyString
  | String c s' => String (upper_char c) (upper s')
  end.

End Py.
Import Py.

Example int_of_string_55 : int_of_string "55" = Some 55.
Proof. reflexivity. Qed.

Example int_of_string_abc : int_of_string "abc" = None.
Proof. reflexivity. Qed.

Example int_of_string_signed : int_of_string " -1_0 " = Some (-10).
Proof. reflexivity. Qed.

Example upper_mute : upper "mute" = "MUTE".
Proof. reflexivity. Qed.

Example percent_of_29 :
  option_map percent_of_scalar (div_100 (PInt 29)) = Some (Some 28).
Proof. reflexivity. Qed.

(** ** The world: the fakes of the external collaborators and the objects
    of the three modules *)

(** An audio session of a process ([AudioUtilities.GetAllSessions()]).
    [proc_name] is [session.Process.name()] when the session has a
    process; a session that went away makes every call on it raise. *)
Record session : Type := {
  proc_name : option string;
  sess_scalar : float;
  sess_ok : bool
}.

(** The fake audio endpoint: it stores the scalars it is given, as they
    are. A handle on a session ([ISimpleAudioVolume]) is its index. *)
Record endpoint : Type := {
  master_scalar : float;
  mute_flag : bool;
  device_ok : bool;
  sessions : list session
}.

Inductive ep_call : Type :=
  | CallGetMasterVolumeLevelScalar
  | CallSetMasterVolumeLevelScalar (scalar : float)
  | CallGetMute
  | CallSetMute (m : bool)
  | CallGetAllSessions
  | CallGetMasterVolume (h : nat)
  | CallSetMasterVolume (h : nat) (scalar : float).

(** [self.app_volumes[app_name]]: the keys ['control'] and ['volume'] (the
    key ['session'] is the object behind the same handle). *)
Record app_entry : Type := {
  control : nat;
  volume : pyval
}.

(** [WindowsVolumeController] *)
Record controller : Type := {
  monitored_apps : list string;
  update_rate_limit : Z;
  sync_interval : Z;
  last_update : Z;
  current_volume : Z;
  app_volumes : gmap string app_entry;
  last_sync : Z
}.

(** The topic of a publish: a configured name, or one of the two
    f-strings built on [self.topics.get('app_volume')]. *)
Inductive topic : Type :=
  | Topic (name : string)
  | AppVolumeStatus (base : option string)
  | AppVolumeStatusOf (base : option string) (app_name : pyval).

(** The payload of a publish: [json.dumps(v)] or [str(n)]. *)
Inductive payload : Type :=
  | Json (v : pyval)
  | StrOfInt (n : Z).

(** The calls the paho client receives. *)
Inductive bus_call : Type :=
  | BusConnect (host : string) (port keepalive : Z)
  | BusSubscribe (name : string) (qos : Z)
  | BusPublish (t : topic) (p : payload) (qos : Z) (retain : bool)
  | BusDisconnect.

(** [MQTTVolumeClient] *)
Record client : Type := {
  connected : bool;
  running : bool;
  sync_thread_alive : bool;
  has_system_monitor : bool;
  topics : gmap string string;
  broker : option string;
  port : Z;
  keepalive : Z;
  qos : Z;
  retain : bool;
  client_id : string
}.

(** [PCSystemMonitor] *)
Record monitor : Type := {
  last_power_state : string;
  last_activity_time : Z;
  sleep_start_time : option Z;
  detect_sleep_wake : bool;
  idle_threshold_minutes : Z;
  sleep_detection_method : string;
  wmi : bool
}.

(** The readings of psutil. *)
Record psutil : Type := {
  psutil_ok : bool;
  cpu_percent : float;
  memory_percent : float;
  boot_time : Z
}.

Inductive level : Type := DEBUG | INFO | WARNING | ERROR.

Record world : Type := {
  clock : Z;
  ep : endpoint;
  ep_calls : list ep_call;
  vc : controller;
  cli : client;
  broker_reachable : bool;
  bus_calls : list bus_call;
  mon : monitor;
  ps : psutil;
  log : list (level * string)
}.

(** Field updates. *)

Definition with_sess_scalar (x : float) (s : session) : session :=
  {| proc_name := proc_name s; sess_scalar := x; sess_ok := sess_ok s |}.

Definition with_master_scalar (x : float) (e : endpoint) : endpoint :=
  {| master_scalar := x; mute_flag := mute_flag e;
     device_ok := device_ok e; sessions := sessions e |}.

Definition with_mute_flag (m : bool) (e : endpoint) : endpoint :=
  {| master_scalar := master_scalar e; mute_flag := m;
     device_ok := device_ok e; sessions := sessions e |}.

Definition with_sessions (l : list session) (e : endpoint) : endpoint :=
  {| master_scalar := master_scalar e; mute_flag := mute_flag e;
     device_ok := device_ok e; sessions := l |}.

Definition with_monitored_apps (l : list string) (c : controller) : controller :=
  {| monitored_apps := l; update_rate_limit := update_rate_limit c;
     sync_interval := sync_interval c; last_update := last_update c;
     current_volume := current_volume c; app_volumes := app_volumes c;
     last_sync := last_sync c |}.

Definition with_last_update (t : Z) (c : controller) : controller :=
  {| monitored_apps := monitored_apps c; update_rate_limit := update_rate_limit c;
     sync_interval := sync_interval c; last_update := t;
     current_volume := current_volume c; app_volumes := app_volumes c;
     last_sync := last_sync c |}.

Definition with_current_volume (v : Z) (c : controller) : controller :=
  {| monitored_apps := monitored_apps c; update_rate_limit := update_rate_limit c;
     sync_interval := sync_interval c; last_update := last_update c;
     current_volume := v; app_volumes := app_volumes c;
     last_sync := last_sync c |}.

Definition with_app_volumes (m : gmap string app_entry) (c : controller) : controller :=
  {| monitored_apps := monitored_apps c; update_rate_limit := update_rate_limit c;
     sync_interval := sync_interval c; last_update := last_update c;
     current_volume := current_volume c; app_volumes := m;
     last_sync := last_sync c |}.

Definition with_last_sync (t : Z) (c : controller) : controller :=
  {| monitored_apps := monitored_apps c; update_rate_limit := update_rate_limit c;
     sync_interval := sync_interval c; last_update := last_update c;
     current_volume := current_volume c; app_volumes := app_volumes c;
     last_sync := t |}.

Definition with_connected (b : bool) (c : client) : client :=
  {| connected := b; running := running c;
     sync_thread_alive := sync_thread_alive c;
     has_system_monitor := has_system_monitor c; topics := topics c;
     broker := broker c; port := port c; keepalive := keepalive c;
     qos := qos c; retain := retain c; client_id := client_id c |}.

Definition with_running (b : bool) (c : client) : client :=
  {| connected := connected c; running := b;
     sync_thread_alive := sync_thread_alive c;
     has_system_monitor := has_system_monitor c; topics := topics c;
     broker := broker c; port := port c; keepalive := keepalive c;
     qos := qos c; retain := retain c; client_id := client_id c |}.

Definition with_sync_thread_alive (b : bool) (c : client) : client :=
  {| connected := connected c; running := running c;
     sync_thread_alive := b;
     has_system_monitor := has_system_monitor c; topics := topics c;
     broker := broker c; port := port c; keepalive := keepalive c;
     qos := qos c; retain := retain c; client_id := client_id c |}.

Definition with_last_power_state (s : string) (m : monitor) : monitor :=
  {| last_power_state := s; last_activity_time := last_activity_time m;
     sleep_start_time := sleep_start_time m;
     detect_sleep_wake := detect_sleep_wake m;
     idle_threshold_minutes := idle_threshold_minutes m;
     sleep_detection_method := sleep_detection_method m; wmi := wmi m |}.

Definition with_last_activity_time (t : Z) (m : monitor) : monitor :=
  {| last_power_state := last_power_state m; last_activity_time := t;
     sleep_start_time := sleep_start_time m;
     detect_sleep_wake := detect_sleep_wake m;
     idle_threshold_minutes := idle_threshold_minutes m;
     sleep_detection_method := sleep_detection_method m; wmi := wmi m |}.

Definition with_sleep_start_time (t : option Z) (m : monitor) : monitor :=
  {| last_power_state := last_power_state m;
     last_activity_time := last_activity_time m;
     sleep_start_time := t;
     detect_sleep_wake := detect_sleep_wake m;
     idle_threshold_minutes := idle_threshold_minutes m;
     sleep_detection_method := sleep_detection_method m; wmi := wmi m |}.

Definition with_clock (t : Z) (w : world) : world :=
  {| clock := t; ep := ep w; ep_calls := ep_calls w; vc := vc w;
     cli := cli w; broker_reachable := broker_reachable w;
     bus_calls := bus_calls w; mon := mon w; ps := ps w; log := log w |}.

Definition with_ep (e : endpoint) (w : world) : world :=
  {| clock := clock w; ep := e; ep_calls := ep_calls w; vc := vc w;
     cli := cli w; broker_reachable := broker_reachable w;
     bus_calls := bus_calls w; mon := mon w; ps := ps w; log := log w |}.

Definition with_ep_calls (l : list ep_call) (w : world) : world :=
  {| clock := clock w; ep := ep w; ep_calls := l; vc := vc w;
     cli := cli w; broker_reachable := broker_reachable w;
     bus_calls := bus_calls w; mon := mon w; ps := ps w; log := log w |}.

Definition with_vc (c : controller) (w : world) : world :=
  {| clock := clock w; ep := ep w; ep_calls := ep_calls w; vc := c;
     cli := cli w; broker_reachable := broker_reachable w;
     bus_calls := bus_calls w; mon := mon w; ps := ps w; log := log w |}.

Definition with_cli (c : client) (w : world) : world :=
  {| clock := clock w; ep := ep w; ep_calls := ep_calls w; vc := vc w;
     cli := c; broker_reachable := broker_reachable w;
     bus_calls := bus_calls w; mon := mon w; ps := ps w; log := log w |}.

Definition with_bus_calls (l : list bus_call) (w : world) : world :=
  {| clock := clock w; ep := ep w; ep_calls := ep_calls w; vc := vc w;
     cli := cli w; broker_reachable := broker_reachable w;
     bus_calls := l; mon := mon w; ps := ps w; log := log w |}.

Definition with_mon (m : monitor) (w : world) : world :=
  {| clock := clock w; ep := ep w; ep_calls := ep_calls w; vc := vc w;
     cli := cli w; broker_reachable := broker_reachable w;
     bus_calls := bus_calls w; mon := m; ps := ps w; log := log w |}.

Definition with_ps (p : psutil) (w : world) : world :=
  {| clock := clock w; ep := ep w; ep_calls := ep_calls w; vc := vc w;
     cli := cli w; broker_reachable := broker_reachable w;
     bus_calls := bus_calls w; mon := mon w; ps := p; log := log w |}.

Definition with_log (l : list (level * string)) (w : world) : world :=
  {| clock := clock w; ep := ep w; ep_calls := ep_calls w; vc := vc w;
     cli := cli w; broker_reachable := broker_reachable w;
     bus_calls := bus_calls w; mon := mon w; ps := ps w; log := l |}.

(** ** The monad of the methods: world passing with exceptions *)

Inductive res (A : Type) : Type :=
  | Val (a : A)
  | Raise (e : exn).
Arguments Val {A} a.
Arguments Raise {A} e.

Definition M (A : Type) : Type := world -> res A * world.

Definition ret {A : Type} (a : A) : M A := fun w => (Val a, w).

Definition raise {A : Type} (e : exn) : M A := fun w => (Raise e, w).

Definition bind {A B : Type} (m : M A) (k : A -> M B) : M B :=
  fun w =>
    match m w with
    | (Val a, w') => k a w'
    | (Raise e, w') => (Raise e, w')
    end.

(** [try: m except Exception as e: h e]. What [m] changed before it raised
    stays changed. *)
Definition try_except {A : Type} (m : M A) (h : exn -> M A) : M A :=
  fun w =>
    match m w with
    | (Val a, w') => (Val a, w')
    | (Raise e, w') => h e w'
    end.

Definition gets {A : Type} (f : world -> A) : M A := fun w => (Val (f w), w).

Definition modify (f : world -> world) : M unit := fun w => (Val tt, f w).

Declare Scope monad_scope.
Delimit Scope monad_scope with monad.
Notation "x <- m ;; k" := (bind m (fun x => k))
  (at level 100, m at next level, right associativity) : monad_scope.
Notation "m ;; k" := (bind m (fun _ => k))
  (at level 100, right associativity) : monad_scope.
Local Open Scope monad_scope.

(** The final world and the result of a run. *)
Definition exec {A : Type} (m : M A) (w : world) : world := snd (m w).
Definition eval {A : Type} (m : M A) (w : world) : res A := fst (m w).

Definition time_time : M Z := gets clock.

Definition logger (l : level) (msg : string) : M unit :=
  modify (fun w => with_log (log w ++ [(l, msg)]) w).

Definition modify_vc (f : controller -> controller) : M unit :=
  modify (fun w => with_vc (f (vc w)) w).

Definition modify_mon (f : monitor -> monitor) : M unit :=
  modify (fun w => with_mon (f (mon w)) w).

Definition modify_cli (f : client -> client) : M unit :=
  modify (fun w => with_cli (f (cli w)) w).

(** ** The audio endpoint (pycaw), as the controller calls it *)

Module Audio.

Definition called (c : ep_call) : M unit :=
  modify (fun w => with_ep_calls (ep_calls w ++ [c]) w).

(** [self.volume.GetMasterVolumeLevelScalar()] *)
Definition GetMasterVolumeLevelScalar : M float :=
  called CallGetMasterVolumeLevelScalar ;;
  e <- gets ep ;;
  if device_ok e then ret (to_c_float (master_scalar e)) else raise COMError.

(** [self.volume.SetMasterVolumeLevelScalar(scalar, None)] *)
Definition SetMasterVolumeLevelScalar (scalar : float) : M unit :=
  called (CallSetMasterVolumeLevelScalar scalar) ;;
  e <- gets ep ;;
  if device_ok e then modify (fun w => with_ep (with_master_scalar scalar (ep w)) w)
  else raise COMError.

(** [self.volume.GetMute()] *)
Definition GetMute : M bool :=
  called CallGetMute ;;
  e <- gets ep ;;
  if device_ok e then ret (mute_flag e) else raise COMError.

(** [self.volume.SetMute(m, None)] *)
Definition SetMute (m : bool) : M unit :=
  called (CallSetMute m) ;;
  e <- gets ep ;;
  if device_ok e then modify (fun w => with_ep (with_mute_flag m (ep w)) w)
  else raise COMError.

(** [AudioUtilities.GetAllSessions()] *)
Definition GetAllSessions : M (list session) :=
  called CallGetAllSessions ;;
  e <- gets ep ;;
  if device_ok e then ret (sessions e) else raise COMError.

(** [control.GetMasterVolume()] on the session behind the handle [h] *)
Definition GetMasterVolume (h : nat) : M float :=
  called (CallGetMasterVolume h) ;;
  e <- gets ep ;;
  match sessions e !! h with
  | Some s => if sess_ok s then ret (to_c_float (sess_scalar s)) else raise COMError
  | None => raise COMError
  end.

(** [control.SetMasterVolume(scalar, None)] *)
Definition SetMasterVolume (h : nat) (scalar : float) : M unit :=
  called (CallSetMasterVolume h scalar) ;;
  e <- gets ep ;;
  match sessions e !! h with
  | Some s =>
      if sess_ok s then
        modify (fun w =>
          with_ep (with_sessions (<[h := with_sess_scalar scalar s]> (sessions (ep w)))
                     (ep w)) w)
      else raise COMError
  | None => raise COMError
  end.

End Audio.

(** ** volume_controller.py: [WindowsVolumeController] *)

Module VolumeController.

(** [int(x)] inside a method: a [ValueError] when [x] is not finite. *)
Definition py_int (x : float) : M Z :=
  match int_of_float x with
  | Some n => ret n
  | None => raise ValueError
  end.

(** [set_volume], volume_controller.py lines 69-101. *)
Definition set_volume (level : Z) : M bool :=
  try_except
    (current_time <- time_time ;;
     c <- gets vc ;;
     if current_time - last_update c <? update_rate_limit c then ret false
     else
       let level := Z.max 0 (Z.min 100 level) in
       let scalar_level := (float_of_Z level / 100)%float in
       Audio.SetMasterVolumeLevelScalar scalar_level ;;
       modify_vc (with_current_volume level) ;;
       modify_vc (with_last_update current_time) ;;
       logger DEBUG "Volume set" ;;
       ret true)
    (fun _ => logger ERROR "Error setting volume" ;; ret false).

(** [get_volume], volume_controller.py lines 103-115. *)
Definition get_volume : M Z :=
  try_except
    (scalar <- Audio.GetMasterVolumeLevelScalar ;;
     py_int (scalar * 100)%float)
    (fun _ =>
       logger ERROR "Error getting volume" ;;
       c <- gets vc ;;
       ret (current_volume c)).

(** [mute], volume_controller.py lines 117-125. *)
Definition mute : M bool :=
  try_except
    (Audio.SetMute true ;;
     logger INFO "Audio muted" ;;
     ret true)
    (fun _ => logger ERROR "Error muting audio" ;; ret false).

(** [unmute], volume_controller.py lines 127-135. *)
Definition unmute : M bool :=
  try_except
    (Audio.SetMute false ;;
     logger INFO "Audio unmuted" ;;
     ret true)
    (fun _ => logger ERROR "Error unmuting audio" ;; ret false).

(** [is_muted], volume_controller.py lines 137-143. *)
Definition is_muted : M bool :=
  try_except
    Audio.GetMute
    (fun _ => logger ERROR "Error checking mute status" ;; ret false).

(** The body of the loop of [_scan_applications], for the session of
    index [h]. *)
Definition scan_session (h : nat) (s : session) : M unit :=
  match proc_name s with
  | Some app_name =>
      if negb (String.eqb app_name "") then
        c <- gets vc ;;
        if existsb (String.eqb app_name) (monitored_apps c) then
          scalar <- Audio.GetMasterVolume h ;;
          v <- py_int (scalar * 100)%float ;;
          modify_vc (fun c =>
            with_app_volumes
              (<[app_name := {| control := h; volume := PInt v |}]> (app_volumes c)) c) ;;
          logger DEBUG "Found audio app"
        else ret tt
      else ret tt
  | None => ret tt
  end.

Fixpoint scan_sessions (h : nat) (l : list session) : M unit :=
  match l with
  | [] => ret tt
  | s :: l' => scan_session h s ;; scan_sessions (S h) l'
  end.

(** [_scan_applications], volume_controller.py lines 145-166. *)
Definition _scan_applications : M unit :=
  try_except
    (all <- Audio.GetAllSessions ;;
     modify_vc (with_app_volumes ∅) ;;
     scan_sessions 0 all ;;
     logger INFO "Monitoring audio applications")
    (fun _ => logger ERROR "Error scanning applications").

(** [get_app_volume], volume_controller.py lines 168-179. *)
Definition get_app_volume (app_name : string) : M (option Z) :=
  try_except
    (c <- gets vc ;;
     match app_volumes c !! app_name with
     | Some entry =>
         scalar <- Audio.GetMasterVolume (control entry) ;;
         v <- py_int (scalar * 100)%float ;;
         modify_vc (fun c =>
           with_app_volumes
             (<[app_name := {| control := control entry; volume := PInt v |}]>
                (app_volumes c)) c) ;;
         ret (Some v)
     | None => ret None
     end)
    (fun _ => logger ERROR "Error getting volume for app" ;; ret None).

(** [app_name in self.app_volumes]: a list or a dict is unhashable, and a
    key that is not a string is not in the dictionary. *)
Definition lookup_app (app_name : pyval) : M (option (string * app_entry)) :=
  match app_name with
  | PStr s =>
      c <- gets vc ;;
      ret (option_map (fun e => (s, e)) (app_volumes c !! s))
  | PList _ | PDict _ => raise TypeError
  | _ => ret None
  end.

(** [set_app_volume], volume_controller.py lines 181-199. *)
Definition set_app_volume (app_name : pyval) (level : pyval) : M bool :=
  try_except
    (found <- lookup_app app_name ;;
     match found with
     | Some (name, entry) =>
         match clamp_0_100 level with
         | None => raise TypeError
         | Some level =>
             match div_100 level with
             | None => raise TypeError
             | Some scalar_level =>
                 Audio.SetMasterVolume (control entry) scalar_level ;;
                 modify_vc (fun c =>
                   with_app_volumes
                     (<[name := {| control := control entry; volume := level |}]>
                        (app_volumes c)) c) ;;
                 logger INFO "Set app volume" ;;
                 ret true
             end
         end
     | None =>
         logger WARNING "Application not found" ;;
         ret false
     end)
    (fun _ => logger ERROR "Error setting volume for app" ;; ret false).

Fixpoint collect_app_volumes (names : list string) (volumes : gmap string Z)
  : M (gmap string Z) :=
  match names with
  | [] => ret volumes
  | app_name :: rest =>
      v <- get_app_volume app_name ;;
      match v with
      | Some n => collect_app_volumes rest (<[app_name := n]> volumes)
      | None => collect_app_volumes rest volumes
      end
  end.

(** [get_all_app_volumes], volume_controller.py lines 201-208: the loop over the keys is [collect_app_volumes]. *)
Definition get_all_app_volumes : M (gmap string Z) :=
  c <- gets vc ;;
  collect_app_volumes (map fst (map_to_list (app_volumes c))) ∅.

(** [refresh_applications], volume_controller.py lines 210-212. *)
Definition refresh_applications : M unit := _scan_applications.

(** [sync_volume_from_system], volume_controller.py lines 214-233; the lock is held for the whole body, which runs alone here. *)
Definition sync_volume_from_system : M (option Z) :=
  try_except
    (current_time <- time_time ;;
     c <- gets vc ;;
     if current_time - last_sync c <? sync_interval c then ret None
     else
       system_volume <- get_volume ;;
       c <- gets vc ;;
       if 1 <? Z.abs (system_volume - current_volume c) then
         modify_vc (with_current_volume system_volume) ;;
         modify_vc (with_last_sync current_time) ;;
         logger DEBUG "System volume changed externally" ;;
         ret (Some system_volume)
       else
         modify_vc (with_last_sync current_time) ;;
         ret None)
    (fun _ => logger ERROR "Error syncing volume" ;; ret None).

(** [update_monitored_apps], volume_controller.py lines 235-239. *)
Definition update_monitored_apps (apps : list string) : M unit :=
  modify_vc (with_monitored_apps apps) ;;
  refresh_applications ;;
  logger INFO "Updated monitored apps".

(** [cleanup], volume_controller.py lines 256-262. *)
Definition cleanup : M unit :=
  try_except
    (modify_vc (with_app_volumes ∅) ;;
     logger INFO "Volume controller cleaned up")
    (fun _ => logger ERROR "Error during cleanup").

End VolumeController.

(** ** mqtt_client.py: [MQTTVolumeClient], connection and publishing *)

Module MQTTVolumeClient.

(** [self.topics.get(key)] *)
Definition topics_get (key : string) : M (option string) :=
  c <- gets cli ;; ret (topics c !! key).

(** [if topic:] on the result of [self.topics.get]. *)
Definition topic_truthy (t : option string) : bool :=
  match t with
  | Some s => negb (String.eqb s "")
  | None => false
  end.

(** The text of [self.topics.get('app_volume')] in an f-string has a
    wildcard when the topic is set and has one: [None] is written
    [None]. *)
Definition base_has_wildcard (base : option string) : bool :=
  match base with
  | Some s => has_wildcard s
  | None => false
  end.

Definition topic_has_wildcard (t : topic) : bool :=
  match t with
  | Topic name => has_wildcard name
  | AppVolumeStatus base => base_has_wildcard base
  | AppVolumeStatusOf base app_name =>
      base_has_wildcard base || str_has_wildcard app_name
  end.

(** [self.client.publish(topic, payload, qos=..., retain=...)] of paho: a
    missing or empty topic is a [ValueError], and so is a topic with one
    of the wildcards [+] and [#]; otherwise the fake records the call. *)
Definition client_publish (t : option topic) (p : payload) (q : Z) (r : bool)
  : M unit :=
  match t with
  | None => raise ValueError
  | Some (Topic "") => raise ValueError
  | Some t =>
      if topic_has_wildcard t then raise ValueError
      else modify (fun w => with_bus_calls (bus_calls w ++ [BusPublish t p q r]) w)
  end.

(** [self.client.connect(broker, port, keepalive)] of paho. *)
Definition client_connect (host : string) (p k : Z) : M unit :=
  modify (fun w => with_bus_calls (bus_calls w ++ [BusConnect host p k]) w) ;;
  up <- gets broker_reachable ;;
  if up then ret tt else raise ConnectionError.

Definition client_subscribe (name : string) (q : Z) : M unit :=
  modify (fun w => with_bus_calls (bus_calls w ++ [BusSubscribe name q]) w).

Definition client_disconnect : M unit :=
  modify (fun w => with_bus_calls (bus_calls w ++ [BusDisconnect]) w).

(** [not self.broker or self.broker == "192.168.1.xxx"] *)
Definition broker_not_configured (b : option string) : bool :=
  match b with
  | None => true
  | Some s => String.eqb s "" || String.eqb s "192.168.1.xxx"
  end.

(** [connect], mqtt_client.py lines 68-80. *)
Definition connect : M bool :=
  try_except
    (c <- gets cli ;;
     if broker_not_configured (broker c) then
       logger ERROR "MQTT broker not configured" ;;
       ret false
     else
       logger INFO "Connecting to MQTT broker" ;;
       client_connect (default "" (broker c)) (port c) (keepalive c) ;;
       ret true)
    (fun _ => logger ERROR "Failed to connect to MQTT broker" ;; ret false).

(** [publish_status], mqtt_client.py lines 225-250. *)
Definition publish_status (status : string) : M unit :=
  try_except
    (vol <- VolumeController.get_volume ;;
     muted <- VolumeController.is_muted ;;
     c <- gets cli ;;
     now <- time_time ;;
     let status_data :=
       PDict [("status", PStr status); ("volume", PInt vol);
              ("muted", PBool muted); ("client_id", PStr (client_id c));
              ("timestamp", PInt now)] in
     t <- topics_get "status" ;;
     if topic_truthy t then
       client_publish (option_map Topic t) (Json status_data) (qos c) (retain c) ;;
       logger DEBUG "Status published"
     else ret tt)
    (fun _ => logger ERROR "Error publishing status").

(** The dictionary of all the application volumes, as a value. *)
Definition dict_of_volumes (m : gmap string Z) : pyval :=
  PDict (map (fun kv => (fst kv, PInt (snd kv))) (map_to_list m)).

(** [publish_app_volumes], mqtt_client.py lines 252-262. *)
Definition publish_app_volumes : M unit :=
  try_except
    (vols <- VolumeController.get_all_app_volumes ;;
     if negb (bool_decide (vols = ∅)) then
       base <- topics_get "app_volume" ;;
       c <- gets cli ;;
       client_publish (Some (AppVolumeStatus base)) (Json (dict_of_volumes vols))
         (qos c) false ;;
       logger DEBUG "Published app volumes"
     else ret tt)
    (fun _ => logger ERROR "Error publishing app volumes").

(** [publish_app_volume_status], mqtt_client.py lines 264-271. *)
Definition publish_app_volume_status (app_name : pyval) (vol : pyval) : M unit :=
  try_except
    (now <- time_time ;;
     let data :=
       PDict [("app", app_name); ("volume", vol); ("timestamp", PInt now)] in
     base <- topics_get "app_volume" ;;
     c <- gets cli ;;
     client_publish (Some (AppVolumeStatusOf base app_name)) (Json data) (qos c) false)
    (fun _ => logger ERROR "Error publishing app volume status").

(** [publish_volume_change], mqtt_client.py lines 273-281. *)
Definition publish_volume_change (vol : Z) : M unit :=
  try_except
    (t <- topics_get "pc_volume" ;;
     if topic_truthy t then
       c <- gets cli ;;
       client_publish (option_map Topic t) (StrOfInt vol) (qos c) false ;;
       logger DEBUG "Published volume change"
     else ret tt)
    (fun _ => logger ERROR "Error publishing volume change").

(** [power_event.update(details)] appends the members of [details]:
    [dict_get] reads the last binding of a key. *)
Definition _publish_power_event (event_type : string)
    (details : list (string * pyval)) : M unit :=
  try_except
    (now <- time_time ;;
     let power_event := [("event", PStr event_type); ("timestamp", PInt now)] in
     let power_event :=
       match details with [] => power_event | _ => (power_event ++ details)%list end in
     t <- topics_get "pc_power" ;;
     if topic_truthy t then
       c <- gets cli ;;
       client_publish (option_map Topic t) (Json (PDict power_event)) (qos c) false ;;
       logger DEBUG "Published power event"
     else ret tt)
    (fun _ => logger ERROR "Error publishing power event").

(** [publish_power_event], mqtt_client.py lines 393-395. *)
Definition publish_power_event (event_type : string)
    (details : list (string * pyval)) : M unit :=
  _publish_power_event event_type details.

(** [publish_system_status], mqtt_client.py lines 382-391. *)
Definition publish_system_status (system_data : pyval) : M unit :=
  try_except
    (t <- topics_get "pc_system" ;;
     if topic_truthy t then
       c <- gets cli ;;
       client_publish (option_map Topic t) (Json system_data) (qos c) (retain c) ;;
       logger DEBUG "System status published"
     else ret tt)
    (fun _ => logger ERROR "Error publishing system status").

End MQTTVolumeClient.

(** ** system_monitor.py: [PCSystemMonitor] *)

Module PCSystemMonitor.

(** A reading of psutil: [PsutilError] when psutil fails. *)
Definition psutil_read {A : Type} (f : psutil -> A) : M A :=
  p <- gets ps ;;
  if psutil_ok p then ret (f p) else raise PsutilError.

(** [idle_minutes > self.idle_threshold_minutes], with
    [idle_minutes = (current_time - self.last_activity_time) / 60] and the
    clock in milliseconds. *)
Definition idle_too_long (current_time : Z) (m : monitor) : bool :=
  idle_threshold_minutes m * 60000 <? current_time - last_activity_time m.

(** [_get_power_state_activity], system_monitor.py lines 130-153. *)
Definition _get_power_state_activity : M string :=
  try_except
    (cpu <- psutil_read cpu_percent ;;
     mem <- psutil_read memory_percent ;;
     current_time <- time_time ;;
     m <- gets mon ;;
     if idle_too_long current_time m then ret "idle"
     else if PrimFloat.ltb cpu 5 && PrimFloat.ltb mem 50 then ret "low_activity"
     else if PrimFloat.ltb 80 cpu then ret "active_high"
     else ret "active")
    (fun _ =>
       logger ERROR "Error getting activity-based power state" ;;
       ret "unknown").

(** [_get_power_state_wmi], system_monitor.py lines 155-163: a placeholder that falls back on the activity. *)
Definition _get_power_state_wmi : M string :=
  try_except
    _get_power_state_activity
    (fun _ => logger ERROR "Error getting WMI power state" ;; ret "unknown").

(** [get_power_state], system_monitor.py lines 118-128. *)
Definition get_power_state : M string :=
  try_except
    (m <- gets mon ;;
     if String.eqb (sleep_detection_method m) "wmi" && wmi m
     then _get_power_state_wmi
     else _get_power_state_activity)
    (fun _ => logger ERROR "Error getting power state" ;; ret "unknown").

(** The status dictionary; the disk, network and process readings, which
    no property here looks at, are left out of it. *)
Definition publish_system_status : M unit :=
  try_except
    (cpu <- psutil_read cpu_percent ;;
     mem <- psutil_read memory_percent ;;
     boot <- psutil_read boot_time ;;
     now <- time_time ;;
     let uptime_seconds := now - boot in
     state <- get_power_state ;;
     m <- gets mon ;;
     let status_data :=
       PDict [("timestamp", PInt now); ("power_state", PStr state);
              ("uptime_seconds", PInt uptime_seconds);
              ("cpu_percent", PFloat cpu); ("memory_percent", PFloat mem);
              ("monitoring_config",
               PDict [("detection_method", PStr (sleep_detection_method m));
                      ("idle_threshold_minutes", PInt (idle_threshold_minutes m))])] in
     MQTTVolumeClient.publish_system_status status_data ;;
     logger DEBUG "System status published")
    (fun _ => logger ERROR "Error publishing system status").

(** [_get_last_activity_time], system_monitor.py lines 284-295. *)
Definition _get_last_activity_time : M Z :=
  try_except
    (m <- gets mon ;; ret (last_activity_time m))
    (fun _ => logger ERROR "Error getting last activity time" ;; time_time).

(** [if self.sleep_start_time:] is false on [None] and on a zero time. *)
Definition _calculate_sleep_duration : M Z :=
  try_except
    (m <- gets mon ;;
     match sleep_start_time m with
     | Some start =>
         if negb (start =? 0) then
           now <- time_time ;;
           let duration := now - start in
           modify_mon (with_sleep_start_time None) ;;
           ret duration
         else ret 0
     | None => ret 0
     end)
    (fun _ => logger ERROR "Error calculating sleep duration" ;; ret 0).

Definition sleep_like (s : string) : bool :=
  existsb (String.eqb s) ["sleep"; "hibernate"; "idle"].

Definition awake_like (s : string) : bool :=
  existsb (String.eqb s) ["active"; "active_high"; "low_activity"].

(** [detect_power_events], under [if current_state != self.last_power_state],
    in the three blocks of the source. First the state change is logged
    and published. *)
Definition publish_state_change (current_state : string) : M unit :=
  m <- gets mon ;;
  logger INFO "Power state changed" ;;
  now <- time_time ;;
  boot <- psutil_read boot_time ;;
  let power_event :=
    [("event", PStr "state_change");
     ("from_state", PStr (last_power_state m));
     ("to_state", PStr current_state);
     ("timestamp", PInt now);
     ("system_uptime", PInt (now - boot));
     ("detection_method", PStr (sleep_detection_method m))] in
  MQTTVolumeClient.publish_power_event "state_change" power_event.

(** "Special handling for sleep events". The field [idle_duration] holds
    the idle time in clock ticks (the source divides it by 60). *)
Definition sleep_handling (current_state : string) : M unit :=
  m <- gets mon ;;
  if sleep_like current_state && awake_like (last_power_state m) then
    logger INFO "System entering sleep/idle state - notifying ESP32" ;;
    now <- time_time ;;
    modify_mon (with_sleep_start_time (Some now)) ;;
    last <- _get_last_activity_time ;;
    m <- gets mon ;;
    let sleep_event :=
      [("event", PStr "sleep_detected");
       ("sleep_type", PStr current_state);
       ("timestamp", PInt now);
       ("last_activity", PInt last);
       ("idle_duration", PInt (now - last_activity_time m))] in
    MQTTVolumeClient.publish_power_event "sleep_detected" sleep_event
  else ret tt.

(** What follows the wake event: the activity time, the applications,
    the volume and the system status are refreshed. *)
Definition after_wake (now : Z) : M unit :=
  modify_mon (with_last_activity_time now) ;;
  VolumeController.refresh_applications ;;
  vol <- VolumeController.get_volume ;;
  MQTTVolumeClient.publish_volume_change vol ;;
  publish_system_status.

(** "Special handling for wake events" *)
Definition wake_handling (current_state : string) : M unit :=
  m <- gets mon ;;
  if sleep_like (last_power_state m) && awake_like current_state then
    logger INFO "System wake detected - notifying ESP32" ;;
    now <- time_time ;;
    duration <- _calculate_sleep_duration ;;
    let wake_event :=
      [("event", PStr "wake_detected");
       ("wake_source", PStr "user_activity");
       ("timestamp", PInt now);
       ("sleep_duration", PInt duration)] in
    MQTTVolumeClient.publish_power_event "wake_detected" wake_event ;;
    after_wake now
  else ret tt.

(** The three blocks in sequence, then [self.last_power_state = current_state] (system_monitor.py lines 225-279). *)
Definition on_state_change (current_state : string) : M unit :=
  publish_state_change current_state ;;
  sleep_handling current_state ;;
  wake_handling current_state ;;
  modify_mon (with_last_power_state current_state).

(** [detect_power_events], system_monitor.py lines 217-282. *)
Definition detect_power_events : M unit :=
  try_except
    (m <- gets mon ;;
     if negb (detect_sleep_wake m) then ret tt
     else
       current_state <- get_power_state ;;
       m <- gets mon ;;
       if negb (String.eqb current_state (last_power_state m))
       then on_state_change current_state
       else ret tt)
    (fun _ => logger ERROR "Error detecting power events").

(** [update_activity_time], system_monitor.py lines 311-313. *)
Definition update_activity_time : M unit :=
  now <- time_time ;;
  modify_mon (with_last_activity_time now).

End PCSystemMonitor.

(** ** mqtt_client.py: [MQTTVolumeClient], the callbacks and the sync loop

    These methods of the class come after the system monitor, which
    [handle_command] calls through [self.system_monitor]. *)

Module MQTTCallbacks.
Import MQTTVolumeClient.

Fixpoint subscribe_all (l : list (option string)) (q : Z) : M unit :=
  match l with
  | [] => ret tt
  | t :: l' =>
      (if topic_truthy t then
         client_subscribe (default "" t) q ;;
         logger INFO "Subscribed"
       else ret tt) ;;
      subscribe_all l' q
  end.

(** [on_connect], mqtt_client.py lines 82-112; the sync thread is the flag [sync_thread_alive]. *)
Definition on_connect (rc : Z) : M unit :=
  if rc =? 0 then
    modify_cli (with_connected true) ;;
    logger INFO "Connected to MQTT broker successfully" ;;
    c <- gets cli ;;
    let topics_to_subscribe :=
      [topics c !! "volume"; topics c !! "command"; topics c !! "app_volume"] in
    subscribe_all topics_to_subscribe (qos c) ;;
    publish_status "online" ;;
    c <- gets cli ;;
    if negb (sync_thread_alive c) then
      modify_cli (with_running true) ;;
      modify_cli (with_sync_thread_alive true) ;;
      logger INFO "Volume sync thread started"
    else ret tt
  else
    logger ERROR "Connection failed" ;;
    modify_cli (with_connected false).

(** [on_disconnect], mqtt_client.py lines 114-120. *)
Definition on_disconnect (rc : Z) : M unit :=
  modify_cli (with_connected false) ;;
  if negb (rc =? 0) then logger WARNING "Unexpected disconnection"
  else logger INFO "Disconnected from MQTT broker".

(** [int(payload)] raises [ValueError] on a string that is no integer. *)
Definition parse_int (payload : string) : M Z :=
  match int_of_string payload with
  | Some n => ret n
  | None => raise ValueError
  end.

(** [_handle_volume_message], mqtt_client.py lines 152-161. *)
Definition _handle_volume_message (payload : string) : M unit :=
  try_except
    (volume_level <- parse_int payload ;;
     ok <- VolumeController.set_volume volume_level ;;
     if ok then logger INFO "Volume set" else ret tt)
    (fun e =>
       match e with
       | ValueError => logger WARNING "Invalid volume value"
       | _ => logger ERROR "Error handling volume message"
       end).

(** [handle_command], mqtt_client.py lines 163-198. *)
Definition handle_command (command : string) : M unit :=
  try_except
    (let command := upper command in
     if String.eqb command "MUTE" then
       _ <- VolumeController.mute ;; ret tt
     else if String.eqb command "UNMUTE" then
       _ <- VolumeController.unmute ;; ret tt
     else if String.eqb command "STATUS" then
       publish_status "online"
     else if String.eqb command "GETVOLUME" then
       vol <- VolumeController.get_volume ;;
       t <- topics_get "volume" ;;
       c <- gets cli ;;
       client_publish (option_map Topic t) (StrOfInt vol) (qos c) false ;;
       logger INFO "Published current volume"
     else if String.eqb command "REFRESH_APPS" then
       VolumeController.refresh_applications ;;
       publish_app_volumes
     else if String.eqb command "GET_APP_VOLUMES" then
       publish_app_volumes
     else if String.eqb command "GET_SYSTEM_INFO" then
       c <- gets cli ;;
       if has_system_monitor c then PCSystemMonitor.publish_system_status
       else ret tt
     else if String.eqb command "SLEEP" then
       logger INFO "Sleep command received - notifying ESP32" ;;
       _publish_power_event "sleep_requested" []
     else
       logger WARNING "Unknown command")
    (fun _ => logger ERROR "Error handling command").

(** [data.get(key)] on the decoded payload: an [AttributeError] when the
    JSON text is not an object. *)
Definition data_get (data : pyval) (key : string) : M pyval :=
  match data with
  | PDict d => ret (dict_get key d)
  | _ => raise AttributeError
  end.

(** [volume is not None] *)
Definition is_not_None (v : pyval) : bool :=
  match v with PNone => false | _ => true end.

(** The payload is given decoded: [Some data] is the result of
    [json.loads(payload)], [None] is its [JSONDecodeError]. *)
Definition handle_app_volume_command (payload : option pyval) : M unit :=
  try_except
    (data <- match payload with
             | Some data => ret data
             | None => raise JSONDecodeError
             end ;;
     app_name <- data_get data "app" ;;
     vol <- data_get data "volume" ;;
     if truthy app_name && is_not_None vol then
       ok <- VolumeController.set_app_volume app_name vol ;;
       if ok then
         logger INFO "Set app volume" ;;
         publish_app_volume_status app_name vol
       else
         logger WARNING "Failed to set volume for app"
     else
       logger WARNING "Invalid app volume command format")
    (fun e =>
       match e with
       | JSONDecodeError => logger WARNING "Invalid JSON in app volume command"
       | _ => logger ERROR "Error handling app volume command"
       end).

(** An inbound message: its topic and its payload, as text and, for the
    per-app topic, as [json.loads] decodes it. *)
Record mqtt_message : Type := {
  msg_topic : string;
  msg_payload : string;
  msg_json : option pyval
}.

(** [on_message], mqtt_client.py lines 122-150. *)
Definition on_message (msg : mqtt_message) : M unit :=
  try_except
    (c <- gets cli ;;
     logger DEBUG "Received message" ;;
     if bool_decide (Some (msg_topic msg) = topics c !! "volume") then
       _handle_volume_message (msg_payload msg)
     else if bool_decide (Some (msg_topic msg) = topics c !! "command") then
       handle_command (msg_payload msg)
     else if bool_decide (Some (msg_topic msg) = topics c !! "app_volume") then
       handle_app_volume_command (msg_json msg)
     else ret tt)
    (fun _ => logger ERROR "Error processing message").

(** One turn of the [while self.running] loop of [_volume_sync_loop]
    ([time.sleep] is the environment moving the clock before the next
    turn). [int(time.time())] is the clock in whole seconds. *)
Definition sync_loop_turn : M unit :=
  try_except
    (c <- gets cli ;;
     if connected c then
       new_volume <- VolumeController.sync_volume_from_system ;;
       match new_volume with
       | Some v =>
           publish_volume_change v ;;
           logger INFO "Synced volume change to ESP32"
       | None => ret tt
       end ;;
       now <- time_time ;;
       if (now / 1000) mod 30 =? 0 then VolumeController.refresh_applications
       else ret tt
     else ret tt)
    (fun _ => logger ERROR "Error in volume sync loop").

(** The loop over the turns the environment lets it take: before each
    turn the environment changes the world (the clock moves, the device
    is changed from outside, a command is served). *)
Fixpoint _volume_sync_loop (envs : list (world -> world)) (w : world) : world :=
  match envs with
  | [] => w
  | env :: envs' =>
      let w := env w in
      if running (cli w) then _volume_sync_loop envs' (exec sync_loop_turn w)
      else w
  end.

(** The body of the [while] loop of [_reconnect_loop], up to the
    [time.sleep]: [true] is the [break]. *)
Definition reconnect_turn : M bool :=
  try_except
    (logger INFO "Attempting to reconnect..." ;;
     connect)
    (fun _ => logger ERROR "Reconnection error" ;; ret false).

(** [_reconnect_loop], mqtt_client.py lines 326-336. Each [time.sleep] is
    a step of the environment; the list holds the sleeps the loop is
    given. *)
Fixpoint _reconnect_loop (sleeps : list (world -> world)) (w : world) : world :=
  if running (cli w) && negb (connected (cli w)) then
    match sleeps with
    | [] => w
    | sleep :: sleeps' =>
        match reconnect_turn w with
        | (Val true, w') => w'
        | (_, w') => _reconnect_loop sleeps' (sleep w')
        end
    end
  else w.

(** [stop], mqtt_client.py lines 360-376; joining the threads only waits. *)
Definition stop : M unit :=
  try_except
    (modify_cli (with_running false) ;;
     c <- gets cli ;;
     (if connected c then
        publish_status "offline" ;;
        client_disconnect
      else ret tt) ;;
     logger INFO "MQTT client stopped")
    (fun _ => logger ERROR "Error stopping MQTT client").

(** [force_reconnect], mqtt_client.py lines 407-414. *)
Definition force_reconnect : M unit :=
  try_except
    (c <- gets cli ;;
     (if connected c then client_disconnect else ret tt) ;;
     _ <- connect ;;
     ret tt)
    (fun _ => logger ERROR "Error forcing reconnect").

End MQTTCallbacks.

(** ** config.py: [ConfigManager]

    A configuration is a JSON object, a [PDict] read by the last binding
    of a key. *)

Module ConfigManager.

(** [d[key]], and [key in d] when it is [Some]. *)
Fixpoint dict_lookup (key : string) (d : list (string * pyval)) : option pyval :=
  match d with
  | [] => None
  | (k, v) :: d' =>
      match dict_lookup key d' with
      | Some x => Some x
      | None => if String.eqb key k then Some v else None
      end
  end.

(** [d[key] = value] *)
Definition dict_set (key : string) (value : pyval) (d : list (string * pyval))
  : list (string * pyval) :=
  (d ++ [(key, value)])%list.

(** The value [_merge_configs] leaves under a key of [loaded]: the merge
    of the two values when [key in result] and both are dictionaries, the
    loaded value otherwise. The loop over [loaded.items()] is the inner
    recursion. *)
Fixpoint merge_value (current : option pyval) (value : pyval) {struct value} : pyval :=
  match current, value with
  | Some (PDict default), PDict loaded =>
      PDict
        ((fix merge_items (result loaded : list (string * pyval)) {struct loaded} :=
            match loaded with
            | [] => result
            | (key, v) :: rest =>
                merge_items
                  (dict_set key (merge_value (dict_lookup key result) v) result) rest
            end) default loaded)
  | _, _ => value
  end.

(** [_merge_configs], config.py lines 42-50: [result] starts as the copy
    of [default]. *)
Fixpoint _merge_configs (default loaded : list (string * pyval))
  : list (string * pyval) :=
  match loaded with
  | [] => default
  | (key, value) :: rest =>
      _merge_configs
        (dict_set key (merge_value (dict_lookup key default) value) default) rest
  end.

(** [self.config.get(section, fallback)] *)
Definition config_get (section : string) (fallback : pyval)
    (config : list (string * pyval)) : pyval :=
  match dict_lookup section config with
  | Some v => v
  | None => fallback
  end.

(** [get_mqtt_config], [get_topics], [get_monitored_apps] and
    [get_settings], config.py lines 170-184. *)
Definition get_mqtt_config := config_get "mqtt" (PDict []).
Definition get_topics := config_get "topics" (PDict []).
Definition get_monitored_apps := config_get "apps" (PList []).
Definition get_settings := config_get "settings" (PDict []).

End ConfigManager.

(** ** app.py: how [initialize_components] builds the volume controller *)

Module App.

(** [self.monitored_apps = monitored_apps or []], as the scan reads it: the
    names [app_name in self.monitored_apps] accepts. A list accepts its
    strings, a dictionary its keys; the configuration gives no other
    object, and the model has no controller for one. *)
Definition monitored_names (monitored_apps : pyval) : option (list string) :=
  match (if truthy monitored_apps then monitored_apps else PList []) with
  | PList l =>
      Some (flat_map (fun x => match x with PStr s => [s] | _ => [] end) l)
  | PDict d => Some (map fst d)
  | _ => None
  end.

(** [_initialize_audio], volume_controller.py lines 49-67. *)
Definition _initialize_audio : M unit :=
  try_except
    (scalar <- Audio.GetMasterVolumeLevelScalar ;;
     v <- VolumeController.py_int (scalar * 100)%float ;;
     modify_vc (with_current_volume v) ;;
     logger INFO "Current system volume")
    (fun e => logger ERROR "Failed to initialize audio interface" ;; raise e).

(** [WindowsVolumeController.__init__], volume_controller.py lines 19-47,
    with the two delays in the unit of the clock. *)
Definition __init__ (names : list string) (update_rate_limit sync_interval : Z)
  : M unit :=
  modify_vc (fun _ =>
    {| monitored_apps := names; update_rate_limit := update_rate_limit;
       sync_interval := sync_interval; last_update := 0; current_volume := 0;
       app_volumes := ∅; last_sync := 0 |}) ;;
  try_except
    (_initialize_audio ;;
     VolumeController._scan_applications ;;
     logger INFO "Enhanced volume controller initialized successfully")
    (fun e => logger ERROR "Failed to initialize volume controller" ;; raise e).

(** [initialize_components], app.py lines 59-68: the controller is given
    what [get_monitored_apps] returns. *)
Definition initialize_volume_controller (config : list (string * pyval))
    (update_rate_limit sync_interval : Z) : option (M unit) :=
  match monitored_names (ConfigManager.get_monitored_apps config) with
  | Some names =>
      Some (__init__ names update_rate_limit sync_interval ;;
            logger INFO "Volume controller initialized")
  | None => None
  end.

End App.

(** ** A concrete installation, used to run the code *)

Module Demo.

Definition MQTT_TOPICS : gmap string string :=
  list_to_map
    [("volume", "homecontrol/volume");
     ("command", "homecontrol/command");
     ("status", "homecontrol/pc/status");
     ("pc_volume", "homecontrol/pc/volume");
     ("app_volume", "homecontrol/pc/app_volume");
     ("pc_power", "homecontrol/pc/power");
     ("pc_system", "homecontrol/pc/system")].

Definition endpoint0 : endpoint :=
  {| master_scalar := 0.5; mute_flag := false; device_ok := true;
     sessions :=
       [ {| proc_name := Some "chrome.exe"; sess_scalar := 0.25; sess_ok := true |};
         {| proc_name := Some "spotify.exe"; sess_scalar := 0.75; sess_ok := true |} ] |}.

Definition controller0 : controller :=
  {| monitored_apps := ["chrome.exe"; "spotify.exe"; "vlc.exe"];
     update_rate_limit := 100;
     sync_interval := 2000;
     last_update := 0;
     current_volume := 50;
     app_volumes := ∅;
     last_sync := 0 |}.

Definition client0 : client :=
  {| connected := true; running := true; sync_thread_alive := true;
     has_system_monitor := true; topics := MQTT_TOPICS;
     broker := Some "192.168.1.100"; port := 1883; keepalive := 60;
     qos := 1; retain := true; client_id := "PCVolumeControl" |}.

Definition monitor0 : monitor :=
  {| last_power_state := "active";
     last_activity_time := 1700000000000;
     sleep_start_time := None;
     detect_sleep_wake := true;
     idle_threshold_minutes := 30;
     sleep_detection_method := "activity";
     wmi := false |}.

Definition psutil0 : psutil :=
  {| psutil_ok := true; cpu_percent := 12.5; memory_percent := 40;
     boot_time := 1699990000000 |}.

Definition fresh : world :=
  {| clock := 1700000000000; ep := endpoint0; ep_calls := []; vc := controller0;
     cli := client0; broker_reachable := true; bus_calls := [];
     mon := monitor0; ps := psutil0; log := [] |}.

(** The world after the constructor of the controller scanned the
    sessions, with the records of the start-up dropped. *)
Definition world0 : world :=
  Eval vm_compute in
    with_log [] (with_ep_calls [] (exec VolumeController._scan_applications fresh)).

End Demo.

Example world0_apps :
  map_to_list (app_volumes (vc Demo.world0)) =
    [("chrome.exe", {| control := 0%nat; volume := PInt 25 |});
     ("spotify.exe", {| control := 1%nat; volume := PInt 75 |})]
  \/ map_to_list (app_volumes (vc Demo.world0)) =
    [("spotify.exe", {| control := 1%nat; volume := PInt 75 |});
     ("chrome.exe", {| control := 0%nat; volume := PInt 25 |})].
Proof. vm_compute. auto. Qed.

(** ** Properties *)

Import VolumeController MQTTVolumeClient PCSystemMonitor MQTTCallbacks.

(** [clamp v lo hi]: [v] brought into the interval from [lo] to [hi]. *)
Definition clamp (v lo hi : Z) : Z := Z.max lo (Z.min hi v).

(** The scalar the controller hands to the endpoint for a percentage. *)
Definition scalar_of_percent (v : Z) : float := (float_of_Z v / 100)%float.

(** Unfolding of the monad. *)
Ltac run :=
  cbv [exec eval bind ret raise try_except gets modify modify_vc modify_mon
       modify_cli logger time_time Audio.called] in *;
  cbn [fst snd clock ep ep_calls vc cli broker_reachable bus_calls mon ps log
       with_clock with_ep with_ep_calls with_vc with_cli with_bus_calls
       with_mon with_ps with_log] in *.

(** *** The system volume set by a message *)

Lemma set_volume_applied (v : Z) (w : world) :
  update_rate_limit (vc w) <= clock w - last_update (vc w) ->
  device_ok (ep w) = true ->
  set_volume v w =
    (Val true,
     with_log (log w ++ [(DEBUG, "Volume set")])
       (with_vc (with_last_update (clock w)
                   (with_current_volume (clamp v 0 100) (vc w)))
          (with_ep (with_master_scalar (scalar_of_percent (clamp v 0 100)) (ep w))
             (with_ep_calls
                (ep_calls w ++
                   [CallSetMasterVolumeLevelScalar (scalar_of_percent (clamp v 0 100))])
                w)))).
Proof.
  intros Hrate Hok.
  unfold set_volume, Audio.SetMasterVolumeLevelScalar. run.
  destruct (Z.ltb_spec (clock w - last_update (vc w)) (update_rate_limit (vc w)));
    [lia|].
  rewrite Hok. reflexivity.
Qed.



(** *** The rate limiter of [set_volume] *)

Lemma set_volume_rate_limited (v : Z) (w : world) :
  clock w - last_update (vc w) < update_rate_limit (vc w) ->
  set_volume v w = (Val false, w).
Proof.
  intros Hrate. unfold set_volume. run.
  destruct (Z.ltb_spec (clock w - last_update (vc w)) (update_rate_limit (vc w)));
    [reflexivity | lia].
Qed.

(** An applied set stamps the controller with the time of the call and
    leaves the limit as it was. *)
Lemma set_volume_true_stamps (v : Z) (w : world) :
  eval (set_volume v) w = Val true ->
  last_update (vc (exec (set_volume v) w)) = clock w
  /\ update_rate_limit (vc (exec (set_volume v) w)) = update_rate_limit (vc w).
Proof.
  unfold set_volume, Audio.SetMasterVolumeLevelScalar. run.
  destruct (clock w - last_update (vc w) <? update_rate_limit (vc w));
    cbn; [discriminate|].
  destruct (device_ok (ep w)); cbn; [auto | discriminate].
Qed.

(** C2. After a set of the system volume that was applied, and with no
    other applied set since, a second set that arrives less than
    [update_rate_limit] after it is rejected, whatever else happened to
    the world in between: [set_volume] returns [False] and changes
    nothing, the endpoint included. *)
Theorem second_set_within_limit_rejected (v1 v2 : Z) (w w2 : world) :
  eval (set_volume v1) w = Val true ->
  last_update (vc w2) = last_update (vc (exec (set_volume v1) w)) ->
  update_rate_limit (vc w2) = update_rate_limit (vc w) ->
  clock w2 - clock w < update_rate_limit (vc w) ->
  eval (set_volume v2) w2 = Val false
  /\ exec (set_volume v2) w2 = w2
  /\ ep (exec (set_volume v2) w2) = ep w2
  /\ ep_calls (exec (set_volume v2) w2) = ep_calls w2.
Proof.
  intros Hfirst Hlast Hlimit Hnear.
  destruct (set_volume_true_stamps v1 w Hfirst) as [Hstamp _].
  assert (Hrej : set_volume v2 w2 = (Val false, w2)).
  { apply set_volume_rate_limited. rewrite Hlast, Hstamp, Hlimit. exact Hnear. }
  unfold eval, exec. rewrite Hrej. cbn. auto.
Qed.

Lemma second_set_within_limit_rejected_witness :
  let w1 := exec (set_volume 40) Demo.world0 in
  let w2 := with_clock (clock Demo.world0 + 99)
              (with_ep (with_master_scalar 0.75 (ep w1)) w1) in
  eval (set_volume 60) w2 = Val false
  /\ exec (set_volume 60) w2 = w2
  /\ ep (exec (set_volume 60) w2) = ep w2
  /\ ep_calls (exec (set_volume 60) w2) = ep_calls w2.
Proof.
  apply (second_set_within_limit_rejected 40 60 Demo.world0).
  - vm_compute. reflexivity.
  - vm_compute. reflexivity.
  - vm_compute. reflexivity.
  - vm_compute. reflexivity.
Defined.

(** *** [connect] with no broker configured *)

(** C7. When the broker address is missing, empty or the placeholder
    ["192.168.1.xxx"], [connect] returns [False] and the MQTT client
    receives no call: nothing goes to the network. *)
Theorem connect_unconfigured_fails_locally (w : world) :
  broker (cli w) = None \/ broker (cli w) = Some ""
    \/ broker (cli w) = Some "192.168.1.xxx" ->
  eval connect w = Val false
  /\ bus_calls (exec connect w) = bus_calls w
  /\ exec connect w = with_log (log w ++ [(ERROR, "MQTT broker not configured")]) w.
Proof.
  intros Hb. unfold connect. run.
  assert (Hnot : broker_not_configured (broker (cli w)) = true).
  { destruct Hb as [-> | [-> | ->]]; reflexivity. }
  rewrite Hnot. cbn. auto.
Qed.

Lemma connect_unconfigured_fails_locally_witness :
  let w := with_cli (Build_client false true false true Demo.MQTT_TOPICS
                       (Some "192.168.1.xxx") 1883 60 1 true "PCVolumeControl")
             Demo.world0 in
  eval connect w = Val false
  /\ bus_calls (exec connect w) = bus_calls w
  /\ exec connect w = with_log (log w ++ [(ERROR, "MQTT broker not configured")]) w.
Proof.
  apply connect_unconfigured_fails_locally. right. right. reflexivity.
Defined.

(** With a broker configured, [connect] does call the client. *)
Example connect_configured_calls_client :
  bus_calls (exec connect Demo.world0) = [BusConnect "192.168.1.100" 1883 60]
  /\ eval connect Demo.world0 = Val true.
Proof. vm_compute. auto. Qed.

(** *** The volume of an application: what [set_app_volume] does *)

(** The world after a per-app set that went through. *)
Definition app_set_world (a : string) (e : app_entry) (lv : pyval) (sc : float)
    (s : session) (w : world) : world :=
  with_log (log w ++ [(INFO, "Set app volume")])
    (with_vc
       (with_app_volumes
          (<[a := {| control := control e; volume := lv |}]> (app_volumes (vc w)))
          (vc w))
       (with_ep
          (with_sessions (<[control e := with_sess_scalar sc s]> (sessions (ep w)))
             (ep w))
          (with_ep_calls (ep_calls w ++ [CallSetMasterVolume (control e) sc]) w))).

(** Either the set goes through, on a monitored application whose session
    is alive and with a level that is a number, or it returns [False] and
    only the log and the record of the endpoint calls can have grown; the
    endpoint is called only for a monitored application. *)
Lemma set_app_volume_cases (app lv : pyval) (w : world) :
  (exists a e lv' sc s,
      app = PStr a /\ app_volumes (vc w) !! a = Some e
      /\ clamp_0_100 lv = Some lv' /\ div_100 lv' = Some sc
      /\ sessions (ep w) !! control e = Some s /\ sess_ok s = true
      /\ set_app_volume app lv w = (Val true, app_set_world a e lv' sc s w))
  \/ (exists l c,
      l <> [] /\
      set_app_volume app lv w =
        (Val false, with_log (log w ++ l) (with_ep_calls (ep_calls w ++ c) w))
      /\ (c = [] \/
          exists a e sc, c = [CallSetMasterVolume (control e) sc]
                         /\ app = PStr a /\ app_volumes (vc w) !! a = Some e)).
Proof.
  unfold set_app_volume, lookup_app.
  destruct app as [ | b | z | f | a | l | d ]; run;
    try (right; eexists [_], []; split; [discriminate|];
         split; [rewrite app_nil_r; destruct w; reflexivity | left; reflexivity]).
  destruct (app_volumes (vc w) !! a) as [e|] eqn:Ha; cbn.
  2:{ right; eexists [_], []; split; [discriminate|].
      split; [rewrite app_nil_r; destruct w; reflexivity | left; reflexivity]. }
  destruct (clamp_0_100 lv) as [lv'|] eqn:Hc; cbn.
  2:{ right; eexists [_], []; split; [discriminate|].
      split; [rewrite app_nil_r; destruct w; reflexivity | left; reflexivity]. }
  destruct (div_100 lv') as [sc|] eqn:Hd; cbn.
  2:{ right; eexists [_], []; split; [discriminate|].
      split; [rewrite app_nil_r; destruct w; reflexivity | left; reflexivity]. }
  unfold Audio.SetMasterVolume. run.
  destruct (sessions (ep w) !! control e) as [s|] eqn:Hs; cbn.
  2:{ right; eexists [_], [_]; split; [discriminate|].
      split; [reflexivity | right; exists a, e, sc; auto]. }
  destruct (sess_ok s) eqn:Hok; cbn.
  2:{ right; eexists [_], [_]; split; [discriminate|].
      split; [reflexivity | right; exists a, e, sc; auto]. }
  left. exists a, e, lv', sc, s. repeat split; try assumption.
Qed.

(** *** Per-app commands that name no monitored application *)

(** C6. A per-app command whose JSON object has no [app] member, or no
    [volume] member, or whose [app] is not a monitored application: the
    endpoint receives no call and keeps its state, the MQTT client
    receives no call (no confirmation is published), the controller is
    unchanged, and the log gets at least one entry. *)
Theorem unknown_app_command_dropped (d : list (string * pyval)) (w : world) :
  dict_get "app" d = PNone \/ dict_get "volume" d = PNone
    \/ (forall a, dict_get "app" d = PStr a -> app_volumes (vc w) !! a = None) ->
  let w' := exec (handle_app_volume_command (Some (PDict d))) w in
  ep_calls w' = ep_calls w /\ ep w' = ep w /\ bus_calls w' = bus_calls w
  /\ vc w' = vc w /\ exists l, l <> [] /\ log w' = (log w ++ l)%list.
Proof.
  intros Hbad w'. subst w'.
  unfold handle_app_volume_command, data_get. run.
  destruct (truthy (dict_get "app" d) && is_not_None (dict_get "volume" d))
    eqn:Hgate; cbn.
  2:{ do 4 (split; [reflexivity|]).
      exists [(WARNING, "Invalid app volume command format")].
      split; [discriminate | reflexivity]. }
  apply andb_true_iff in Hgate as [Happ Hvol].
  destruct (set_app_volume_cases (dict_get "app" d) (dict_get "volume" d) w)
    as [(a & e & lv' & sc & s & Ha & Hin & _) | (l & c & Hl & Hrun & Hc)].
  - exfalso. destruct Hbad as [H | [H | H]].
    + rewrite H in Ha. discriminate.
    + rewrite H in Hvol. discriminate.
    + rewrite (H a Ha) in Hin. discriminate.
  - assert (c = []) as ->.
    { destruct Hc as [-> | (a & e & sc & _ & Ha & Hin)]; [reflexivity|].
      exfalso. destruct Hbad as [H | [H | H]].
      - rewrite H in Ha. discriminate.
      - rewrite H in Hvol. discriminate.
      - rewrite (H a Ha) in Hin. discriminate. }
    rewrite Hrun. cbn. rewrite app_nil_r.
    do 4 (split; [reflexivity|]).
    exists (l ++ [(WARNING, "Failed to set volume for app")])%list.
    split; [destruct l; discriminate | rewrite app_assoc; reflexivity].
Qed.

Lemma unknown_app_command_dropped_witness :
  let d := [("app", PStr "missing.exe"); ("volume", PInt 50)] in
  let w' := exec (handle_app_volume_command (Some (PDict d))) Demo.world0 in
  ep_calls w' = ep_calls Demo.world0 /\ ep w' = ep Demo.world0
  /\ bus_calls w' = bus_calls Demo.world0
  /\ vc w' = vc Demo.world0
  /\ exists l, l <> [] /\ log w' = (log Demo.world0 ++ l)%list.
Proof.
  apply (unknown_app_command_dropped
           [("app", PStr "missing.exe"); ("volume", PInt 50)] Demo.world0).
  right. right. intros a Ha. vm_compute in Ha.
  injection Ha as <-. vm_compute. reflexivity.
Defined.

(** *** Per-app commands on a monitored application *)

Lemma clamp_0_100_int (v : Z) : clamp_0_100 (PInt v) = Some (PInt (clamp v 0 100)).
Proof.
  unfold clamp_0_100, clamp. cbn.
  destruct (Z.ltb_spec v 100); cbn.
  - destruct (Z.ltb_spec 0 v); f_equal; f_equal; lia.
  - f_equal; f_equal; lia.
Qed.

(** The confirmation [publish_app_volume_status] sends. *)
Definition app_confirmation (app vol : pyval) (w : world) : bus_call :=
  BusPublish (AppVolumeStatusOf (topics (cli w) !! "app_volume") app)
    (Json (PDict [("app", app); ("volume", vol); ("timestamp", PInt (clock w))]))
    (qos (cli w)) false.

(** What [publish_app_volume_status] hands to the MQTT client: the
    confirmation, unless the topic built on the name of the application
    has a wildcard, which paho refuses. *)
Definition app_confirmation_calls (app vol : pyval) (w : world) : list bus_call :=
  if topic_has_wildcard (AppVolumeStatusOf (topics (cli w) !! "app_volume") app)
  then [] else [app_confirmation app vol w].

(** A set on a monitored application with a live session and an integer
    level goes through. *)
Lemma set_app_volume_int (a : string) (e : app_entry) (s : session) (v : Z)
    (w : world) :
  app_volumes (vc w) !! a = Some e ->
  sessions (ep w) !! control e = Some s ->
  sess_ok s = true ->
  set_app_volume (PStr a) (PInt v) w =
    (Val true,
     app_set_world a e (PInt (clamp v 0 100)) (scalar_of_percent (clamp v 0 100)) s w).
Proof.
  intros Ha Hs Hok.
  unfold set_app_volume, lookup_app, Audio.SetMasterVolume. run.
  rewrite Ha. cbv [option_map]. rewrite clamp_0_100_int.
  cbv [div_100]. fold (scalar_of_percent (clamp v 0 100)).
  rewrite Hs, Hok. reflexivity.
Qed.

(** A per-app command [{app: a, volume: v}] on a monitored application
    whose session is alive, with [v] an integer: the session receives the
    scalar of [clamp v 0 100] and the controller records [clamp v 0 100],
    while the confirmation carries [v] as it was sent; the two differ
    exactly when [v] is outside 0..100. The confirmation is the one
    message published, and nothing is published when the name of the
    application puts a wildcard in the topic. *)
Lemma app_command_on_monitored_app (d : list (string * pyval)) (a : string)
    (v : Z) (e : app_entry) (s : session) (w : world) :
  dict_get "app" d = PStr a ->
  dict_get "volume" d = PInt v ->
  a <> "" ->
  app_volumes (vc w) !! a = Some e ->
  sessions (ep w) !! control e = Some s ->
  sess_ok s = true ->
  let w' := exec (handle_app_volume_command (Some (PDict d))) w in
  bus_calls w' = (bus_calls w ++ app_confirmation_calls (PStr a) (PInt v) w)%list
  /\ ep_calls w' =
       (ep_calls w ++
          [CallSetMasterVolume (control e) (scalar_of_percent (clamp v 0 100))])%list
  /\ sessions (ep w') !! control e =
       Some (with_sess_scalar (scalar_of_percent (clamp v 0 100)) s)
  /\ app_volumes (vc w') !! a =
       Some {| control := control e; volume := PInt (clamp v 0 100) |}
  /\ (clamp v 0 100 <> v <-> ~ 0 <= v <= 100).
Proof.
  intros Happ Hvol Hne Ha Hs Hok w'. subst w'.
  unfold handle_app_volume_command, data_get. run.
  rewrite Happ, Hvol. cbn.
  assert (Hs_ne : String.eqb a "" = false) by (apply String.eqb_neq; exact Hne).
  rewrite Hs_ne. cbn.
  rewrite (set_app_volume_int a e s v w Ha Hs Hok).
  unfold publish_app_volume_status, topics_get, client_publish, app_set_world,
    app_confirmation_calls, app_confirmation. run.
  cbn [topic_has_wildcard str_has_wildcard].
  destruct (base_has_wildcard (topics (cli w) !! "app_volume") || has_wildcard a);
    cbn; rewrite ?app_nil_r.
  all: repeat split;
    try (apply list_lookup_insert_eq; eapply lookup_lt_Some; exact Hs);
    try apply lookup_insert_eq; unfold clamp; lia.
Qed.

(** An installation that monitors Notepad++, which has a session. *)
Definition notepad_world : world :=
  Eval vm_compute in
    with_log []
      (with_ep_calls []
         (exec VolumeController._scan_applications
            (with_vc (with_monitored_apps ["notepad++.exe"] Demo.controller0)
               (with_ep
                  {| master_scalar := 0.5; mute_flag := false; device_ok := true;
                     sessions :=
                       [ {| proc_name := Some "notepad++.exe"; sess_scalar := 0.25;
                            sess_ok := true |} ] |}
                  Demo.fresh)))).

(** C10 fails on the code. The per-app command
    [{"app": "notepad++.exe", "volume": 150}], for a monitored
    application with a live session: the set goes through (the session
    receives the scalar of 100 and the controller records 100), and no
    confirmation is sent, with the requested 150 or with anything else:
    the topic built on the name has the wildcard [+], the publish raises
    inside [publish_app_volume_status], and the error is only logged. *)
Theorem app_confirmation_lost_on_wildcard_name :
  let d := [("app", PStr "notepad++.exe"); ("volume", PInt 150)] in
  let w' := exec (handle_app_volume_command (Some (PDict d))) notepad_world in
  eval (set_app_volume (PStr "notepad++.exe") (PInt 150)) notepad_world = Val true
  /\ ep_calls w' = [CallSetMasterVolume 0 (scalar_of_percent 100)]
  /\ app_volumes (vc w') !! "notepad++.exe" =
       Some {| control := 0%nat; volume := PInt 100 |}
  /\ bus_calls w' = bus_calls notepad_world
  /\ log w' = [(INFO, "Set app volume"); (INFO, "Set app volume");
               (ERROR, "Error publishing app volume status")].
Proof. vm_compute. repeat split. Qed.

(** On a name without a wildcard the confirmation does go out, with the
    value that was requested. *)
Example chrome_confirmation_echoes_150 :
  let d := [("app", PStr "chrome.exe"); ("volume", PInt 150)] in
  let w' := exec (handle_app_volume_command (Some (PDict d))) Demo.world0 in
  bus_calls w' =
    [app_confirmation (PStr "chrome.exe") (PInt 150) Demo.world0]
  /\ app_volumes (vc w') !! "chrome.exe" =
       Some {| control := 0%nat; volume := PInt 100 |}.
Proof. vm_compute. auto. Qed.

(** *** The confirmations of the mutating commands *)

(** The application and the level a per-app payload asks to set, when it
    is a JSON object that passes [if app_name and volume is not None]. *)
Definition app_command_target (payload : option pyval) : option (pyval * pyval) :=
  match payload with
  | Some (PDict d) =>
      let app_name := dict_get "app" d in
      let vol := dict_get "volume" d in
      if truthy app_name && is_not_None vol then Some (app_name, vol) else None
  | _ => None
  end.

Definition returns_true (r : res bool) : bool :=
  match r with
  | Val true => true
  | _ => false
  end.

Lemma app_command_bus (payload : option pyval) (w : world) :
  bus_calls (exec (handle_app_volume_command payload) w) =
    (bus_calls w ++
       match app_command_target payload with
       | Some (app_name, vol) =>
           if returns_true (eval (set_app_volume app_name vol) w)
           then app_confirmation_calls app_name vol w else []
       | None => []
       end)%list.
Proof.
  unfold handle_app_volume_command, data_get, app_command_target.
  destruct payload as [data|]; run; [| cbn; rewrite app_nil_r; reflexivity].
  destruct data as [ | b | z | f | a | l | d ]; run;
    try (cbn; rewrite app_nil_r; reflexivity).
  destruct (truthy (dict_get "app" d) && is_not_None (dict_get "volume" d));
    cbn; [| rewrite app_nil_r; reflexivity].
  destruct (set_app_volume_cases (dict_get "app" d) (dict_get "volume" d) w)
    as [(a & e & lv' & sc & s & Ha & _ & _ & _ & _ & _ & Hrun)
       | (l & c & _ & Hrun & _)];
    rewrite Hrun; cbn.
  - unfold publish_app_volume_status, topics_get, client_publish, app_set_world,
      app_confirmation_calls, app_confirmation.
    run.
    destruct (topic_has_wildcard
                (AppVolumeStatusOf (topics (cli w) !! "app_volume")
                   (dict_get "app" d)));
      cbn; rewrite ?app_nil_r; reflexivity.
  - rewrite app_nil_r. reflexivity.
Qed.

Lemma mute_command_bus (command : string) (w : world) :
  upper command = "MUTE" \/ upper command = "UNMUTE" ->
  bus_calls (exec (handle_command command) w) = bus_calls w.
Proof.
  intros [H | H]; unfold handle_command; rewrite H.
  - change (String.eqb "MUTE" "MUTE") with true. cbv iota.
    unfold mute, Audio.SetMute. run.
    destruct (device_ok (ep w)); reflexivity.
  - change (String.eqb "UNMUTE" "MUTE") with false.
    change (String.eqb "UNMUTE" "UNMUTE") with true. cbv iota.
    unfold unmute, Audio.SetMute. run.
    destruct (device_ok (ep w)); reflexivity.
Qed.

Lemma volume_message_bus (payload : string) (w : world) :
  bus_calls (exec (_handle_volume_message payload) w) = bus_calls w.
Proof.
  unfold _handle_volume_message, parse_int, set_volume,
    Audio.SetMasterVolumeLevelScalar.
  destruct (int_of_string payload) as [v|]; run; [| reflexivity].
  destruct (clock w - last_update (vc w) <? update_rate_limit (vc w)); cbn;
    [reflexivity|].
  destruct (device_ok (ep w)); reflexivity.
Qed.

(** What the mutating commands publish. A per-app set publishes its
    confirmation when [set_app_volume] returned [True] and the topic is
    one paho accepts, and nothing otherwise; MUTE, UNMUTE and a set of
    the system volume publish nothing, whether they succeed or fail. *)
Lemma publishes_of_mutating_commands :
  (forall (payload : option pyval) (w : world),
      bus_calls (exec (handle_app_volume_command payload) w) =
        (bus_calls w ++
           match app_command_target payload with
           | Some (app_name, vol) =>
               if returns_true (eval (set_app_volume app_name vol) w)
               then app_confirmation_calls app_name vol w else []
           | None => []
           end)%list)
  /\ (forall (command : string) (w : world),
        upper command = "MUTE" \/ upper command = "UNMUTE" ->
        bus_calls (exec (handle_command command) w) = bus_calls w)
  /\ (forall (payload : string) (w : world),
        bus_calls (exec (_handle_volume_message payload) w) = bus_calls w).
Proof.
  split; [exact app_command_bus |].
  split; [exact mute_command_bus | exact volume_message_bus].
Qed.

(** C5 fails on the code. MUTE and UNMUTE on a working endpoint and the
    system-volume set [55] all succeed, the endpoint is changed, and
    nothing is published: [handle_command] calls [mute] or [unmute] and
    returns, and [_handle_volume_message] calls [set_volume] and returns,
    where [handle_app_volume_command] publishes a confirmation after its
    set. *)
Theorem mute_succeeds_without_confirmation :
  eval mute Demo.world0 = Val true
  /\ mute_flag (ep (exec (handle_command "MUTE") Demo.world0)) = true
  /\ bus_calls (exec (handle_command "MUTE") Demo.world0) = bus_calls Demo.world0
  /\ eval unmute Demo.world0 = Val true
  /\ ep_calls (exec (handle_command "UNMUTE") Demo.world0) = [CallSetMute false]
  /\ bus_calls (exec (handle_command "UNMUTE") Demo.world0) = bus_calls Demo.world0
  /\ eval (set_volume 55) Demo.world0 = Val true
  /\ ep_calls (exec (_handle_volume_message "55") Demo.world0)
     = [CallSetMasterVolumeLevelScalar (scalar_of_percent 55)]
  /\ bus_calls (exec (_handle_volume_message "55") Demo.world0)
     = bus_calls Demo.world0.
Proof. vm_compute. repeat split. Qed.

Example mute_command_mutes :
  mute_flag (ep (exec (handle_command "mute") Demo.world0)) = true
  /\ bus_calls (exec (handle_command "mute") Demo.world0) = [].
Proof. vm_compute. auto. Qed.

Example volume_55_sets_without_confirmation :
  let w' := exec (_handle_volume_message "55") Demo.world0 in
  ep_calls w' = [CallSetMasterVolumeLevelScalar (scalar_of_percent 55)]
  /\ current_volume (vc w') = 55 /\ bus_calls w' = [].
Proof. vm_compute. auto. Qed.

Example volume_abc_dropped :
  let w' := exec (_handle_volume_message "abc") Demo.world0 in
  ep_calls w' = [] /\ bus_calls w' = []
  /\ log w' = [(WARNING, "Invalid volume value")].
Proof. vm_compute. auto. Qed.

(** *** Setting and reading back the volume of an application *)

(** What [get_app_volume] returns for a scalar the session holds. *)
Lemma get_app_volume_reads (a : string) (e : app_entry) (s : session) (w : world) :
  app_volumes (vc w) !! a = Some e ->
  sessions (ep w) !! control e = Some s ->
  sess_ok s = true ->
  eval (get_app_volume a) w = Val (percent_of_scalar (sess_scalar s)).
Proof.
  intros Ha Hs Hok.
  unfold get_app_volume, Audio.GetMasterVolume, py_int, percent_of_scalar. run.
  rewrite Ha. cbn. rewrite Hs, Hok. cbn.
  destruct (int_of_float (to_c_float (sess_scalar s) * 100)); reflexivity.
Qed.

(** Set, then get, with nothing in between: the value read back is the
    truncation of [(v / 100.0) * 100]. *)
Lemma get_after_set_app_volume (a : string) (e : app_entry) (s : session)
    (v : Z) (w : world) :
  app_volumes (vc w) !! a = Some e ->
  sessions (ep w) !! control e = Some s ->
  sess_ok s = true ->
  eval (get_app_volume a) (exec (set_app_volume (PStr a) (PInt v)) w) =
    Val (percent_of_scalar (scalar_of_percent (clamp v 0 100))).
Proof.
  intros Ha Hs Hok.
  unfold exec at 1. rewrite (set_app_volume_int a e s v w Ha Hs Hok). cbn [snd].
  rewrite (get_app_volume_reads a {| control := control e;
                                     volume := PInt (clamp v 0 100) |}
             (with_sess_scalar (scalar_of_percent (clamp v 0 100)) s)).
  - reflexivity.
  - unfold app_set_world. cbn. apply lookup_insert_eq.
  - unfold app_set_world. cbn. apply list_lookup_insert_eq.
    eapply lookup_lt_Some; exact Hs.
  - exact Hok.
Qed.

(** The percentages of 0..100 that do not survive the trip through the
    scalar: the C float of [v / 100.0] lies just below it, and
    [int(scalar * 100)] truncates. *)
Definition reads_low : list Z :=
  [1; 2; 3; 4; 6; 8; 11; 12; 13; 16; 19; 21; 22; 24; 26; 29; 32; 35; 38; 39;
   41; 42; 44; 45; 47; 48; 51; 52; 53; 57; 58; 59; 63; 64; 65; 69; 70; 71; 76;
   77; 78; 82; 83; 84; 88; 89; 90; 94; 95; 96].

Definition percent_read_back (v : Z) : Z :=
  if existsb (Z.eqb v) reads_low then v - 1 else v.

Lemma percent_read_back_within_one (v : Z) :
  v - 1 <= percent_read_back v <= v.
Proof. unfold percent_read_back. destruct (existsb (Z.eqb v) reads_low); lia. Qed.

Lemma percent_round_trip (v : Z) :
  0 <= v <= 100 ->
  percent_of_scalar (scalar_of_percent v) = Some (percent_read_back v).
Proof.
  intros Hv.
  assert (Hall : forallb
            (fun n : nat =>
               match percent_of_scalar (scalar_of_percent (Z.of_nat n)) with
               | Some r => r =? percent_read_back (Z.of_nat n)
               | None => false
               end) (seq 0 101) = true) by (vm_compute; reflexivity).
  rewrite forallb_forall in Hall.
  specialize (Hall (Z.to_nat v)).
  rewrite Z2Nat.id in Hall by lia.
  assert (Hin : In (Z.to_nat v) (seq 0 101)) by (apply in_seq; lia).
  specialize (Hall Hin).
  destruct (percent_of_scalar (scalar_of_percent v)) as [r|]; [| discriminate].
  apply Z.eqb_eq in Hall. subst r. reflexivity.
Qed.

(** C8 fails at 29: the set stores the scalar [29 / 100.0], the session
    returns the C float nearest to it, and [int(scalar * 100)] reads 28
    back. *)
Theorem app_volume_29_reads_back_28 :
  let w1 := exec (set_app_volume (PStr "chrome.exe") (PInt 29)) Demo.world0 in
  eval (set_app_volume (PStr "chrome.exe") (PInt 29)) Demo.world0 = Val true
  /\ app_volumes (vc w1) !! "chrome.exe" =
       Some {| control := 0%nat; volume := PInt 29 |}
  /\ eval (get_app_volume "chrome.exe") w1 = Val (Some 28).
Proof. vm_compute. auto. Qed.

(** Over 0..100 the value that comes back is the one that was set, or
    one point less at the fifty levels of [reads_low]. *)
Lemma app_volume_round_trip (a : string) (e : app_entry) (s : session)
    (v : Z) (w : world) :
  app_volumes (vc w) !! a = Some e ->
  sessions (ep w) !! control e = Some s ->
  sess_ok s = true ->
  0 <= v <= 100 ->
  eval (get_app_volume a) (exec (set_app_volume (PStr a) (PInt v)) w) =
    Val (Some (percent_read_back v)).
Proof.
  intros Ha Hs Hok Hv.
  rewrite (get_after_set_app_volume a e s v w Ha Hs Hok).
  replace (clamp v 0 100) with v by (unfold clamp; lia).
  rewrite percent_round_trip by exact Hv. reflexivity.
Qed.

(** *** The rate limiter and the targets of a set *)

(** Whether [set_volume] goes through: the limiter, then the device. *)
Lemma set_volume_eval (v : Z) (w : world) :
  eval (set_volume v) w =
    Val (negb (clock w - last_update (vc w) <? update_rate_limit (vc w))
         && device_ok (ep w)).
Proof.
  unfold set_volume, Audio.SetMasterVolumeLevelScalar. run.
  destruct (clock w - last_update (vc w) <? update_rate_limit (vc w)); cbn;
    [reflexivity|].
  destruct (device_ok (ep w)); reflexivity.
Qed.

(** A monitored application whose session answers. *)
Definition target_alive (a : string) (w : world) : bool :=
  match app_volumes (vc w) !! a with
  | Some e =>
      match sessions (ep w) !! control e with
      | Some s => sess_ok s
      | None => false
      end
  | None => false
  end.

(** A level [max], [min] and [/] accept. *)
Definition level_ok (lv : pyval) : bool :=
  match clamp_0_100 lv with
  | Some lv' => match div_100 lv' with Some _ => true | None => false end
  | None => false
  end.

(** Whether [set_app_volume] goes through: no clock and no [last_update]
    in it. *)
Definition app_set_succeeds (app lv : pyval) (w : world) : bool :=
  match app with
  | PStr a => target_alive a w && level_ok lv
  | _ => false
  end.

Lemma set_app_volume_eval (app lv : pyval) (w : world) :
  eval (set_app_volume app lv) w = Val (app_set_succeeds app lv w).
Proof.
  unfold set_app_volume, lookup_app, app_set_succeeds, target_alive, level_ok,
    Audio.SetMasterVolume.
  destruct app as [ | b | z | f | a | l | d ]; run; try reflexivity.
  destruct (app_volumes (vc w) !! a) as [e|]; cbn; [| reflexivity].
  destruct (clamp_0_100 lv) as [lv'|]; cbn.
  2:{ destruct (sessions (ep w) !! control e) as [s|];
        [destruct (sess_ok s) |]; reflexivity. }
  destruct (div_100 lv') as [sc|]; cbn.
  2:{ destruct (sessions (ep w) !! control e) as [s|];
        [destruct (sess_ok s) |]; reflexivity. }
  destruct (sessions (ep w) !! control e) as [s|]; cbn; [| reflexivity].
  destruct (sess_ok s); reflexivity.
Qed.

(** A per-app set that went through leaves every target as alive as it
    was. *)
Lemma target_alive_app_set (a b : string) (e : app_entry) (lv : pyval)
    (sc : float) (s : session) (w : world) :
  app_volumes (vc w) !! b = Some e ->
  sessions (ep w) !! control e = Some s ->
  target_alive a (app_set_world b e lv sc s w) = target_alive a w.
Proof.
  intros Hb Hs. unfold target_alive, app_set_world. cbn.
  assert (Hlen : (control e < length (sessions (ep w)))%nat)
    by (eapply lookup_lt_Some; exact Hs).
  destruct (decide (b = a)) as [<- | Hne].
  - rewrite lookup_insert_eq, Hb. cbn.
    rewrite list_lookup_insert_eq by exact Hlen. rewrite Hs. reflexivity.
  - rewrite lookup_insert_ne by exact Hne.
    destruct (app_volumes (vc w) !! a) as [ea|]; [| reflexivity].
    destruct (decide (control e = control ea)) as [Heq | Hneq].
    + rewrite <- Heq. rewrite list_lookup_insert_eq by exact Hlen.
      rewrite Hs. reflexivity.
    + rewrite list_lookup_insert_ne by exact Hneq. reflexivity.
Qed.

(** The limiter as the code has it. Only the system volume is rate limited.
    A per-app set does not read the clock or [last_update]; it leaves the
    limiter of the system volume as it found it; and neither a system set
    nor a per-app set changes whether a later per-app set, on the same or
    on another application, goes through. *)
Lemma rate_limiter_covers_system_volume_only (app lv : pyval) (w : world) :
  (forall t lu : Z,
      eval (set_app_volume app lv)
        (with_clock t (with_vc (with_last_update lu (vc w)) w))
      = eval (set_app_volume app lv) w)
  /\ (forall v : Z,
        eval (set_volume v) (exec (set_app_volume app lv) w)
        = eval (set_volume v) w)
  /\ (forall v : Z,
        eval (set_app_volume app lv) (exec (set_volume v) w)
        = eval (set_app_volume app lv) w)
  /\ (forall app' lv' : pyval,
        eval (set_app_volume app lv) (exec (set_app_volume app' lv') w)
        = eval (set_app_volume app lv) w).
Proof.
  repeat split.
  - intros t lu. rewrite !set_app_volume_eval. destruct app; reflexivity.
  - intros v. rewrite !set_volume_eval.
    destruct (set_app_volume_cases app lv w)
      as [(a & e & lv1 & sc & s & _ & _ & _ & _ & _ & _ & Hrun)
         | (l & c & _ & Hrun & _)];
      unfold exec; rewrite Hrun; reflexivity.
  - intros v. rewrite !set_app_volume_eval.
    unfold exec, set_volume, Audio.SetMasterVolumeLevelScalar. run.
    destruct (clock w - last_update (vc w) <? update_rate_limit (vc w)); cbn;
      [reflexivity|].
    destruct (device_ok (ep w)); cbn; destruct app; reflexivity.
  - intros app' lv'. rewrite !set_app_volume_eval.
    destruct (set_app_volume_cases app' lv' w)
      as [(a & e & lv1 & sc & s & _ & Ha & _ & _ & Hs & _ & Hrun)
         | (l & c & _ & Hrun & _)];
      unfold exec; rewrite Hrun; cbn [snd].
    + destruct app; try reflexivity. unfold app_set_succeeds.
      rewrite (target_alive_app_set _ a e lv1 sc s w Ha Hs). reflexivity.
    + destruct app; reflexivity.
Qed.

(** The world 10 ms after a set of chrome.exe to 30. *)
Definition after_app_set : world :=
  with_clock (clock Demo.world0 + 10)
    (exec (set_app_volume (PStr "chrome.exe") (PInt 30)) Demo.world0).

(** The world 10 ms after a set of the system volume to 30. *)
Definition after_system_set : world :=
  with_clock (clock Demo.world0 + 10) (exec (set_volume 30) Demo.world0).

(** C3 fails on the code. With a limit of 100 ms, a set of chrome.exe to
    30 and a set of chrome.exe to 60 that comes 10 ms later both return
    [True] and both reach the session, where the second of two such sets
    of the system volume is rejected: [set_app_volume] has no check
    against [update_rate_limit], the minimum time between volume updates
    that [set_volume] enforces. *)
Theorem per_app_sets_are_not_rate_limited :
  update_rate_limit (vc Demo.world0) = 100
  /\ eval (set_app_volume (PStr "chrome.exe") (PInt 30)) Demo.world0 = Val true
  /\ clock after_app_set = clock Demo.world0 + 10
  /\ eval (set_app_volume (PStr "chrome.exe") (PInt 60)) after_app_set = Val true
  /\ ep_calls (exec (set_app_volume (PStr "chrome.exe") (PInt 60)) after_app_set)
     = [CallSetMasterVolume 0 (scalar_of_percent 30);
        CallSetMasterVolume 0 (scalar_of_percent 60)]
  /\ eval (set_volume 30) Demo.world0 = Val true
  /\ eval (set_volume 60) after_system_set = Val false
  /\ ep_calls (exec (set_volume 60) after_system_set)
     = [CallSetMasterVolumeLevelScalar (scalar_of_percent 30)].
Proof. vm_compute. repeat split. Qed.

(** *** Frames: the parts of the world a method leaves alone *)

(** [keeps f m]: running [m] does not change the view [f] of the world. *)
Definition keeps {A B : Type} (f : world -> B) (m : M A) : Prop :=
  forall w, f (exec m w) = f w.

Section Frames.
Context {B : Type} (f : world -> B).

Lemma keeps_ret {A : Type} (a : A) : keeps f (ret a).
Proof. intros w. reflexivity. Qed.

Lemma keeps_raise {A : Type} (e : exn) : keeps f (@raise A e).
Proof. intros w. reflexivity. Qed.

Lemma keeps_gets {A : Type} (g : world -> A) : keeps f (gets g).
Proof. intros w. reflexivity. Qed.

Lemma keeps_modify (g : world -> world) :
  (forall w, f (g w) = f w) -> keeps f (modify g).
Proof. intros H w. apply H. Qed.

Lemma keeps_bind {A C : Type} (m : M A) (k : A -> M C) :
  keeps f m -> (forall a, keeps f (k a)) -> keeps f (bind m k).
Proof.
  intros Hm Hk w. specialize (Hm w). unfold exec, bind in *.
  destruct (m w) as [[a | e] w']; cbn in *.
  - rewrite <- Hm. apply Hk.
  - exact Hm.
Qed.

Lemma keeps_try_except {A : Type} (m : M A) (h : exn -> M A) :
  keeps f m -> (forall e, keeps f (h e)) -> keeps f (try_except m h).
Proof.
  intros Hm Hh w. specialize (Hm w). unfold exec, try_except in *.
  destruct (m w) as [[a | e] w']; cbn in *.
  - exact Hm.
  - rewrite <- Hm. apply Hh.
Qed.
End Frames.

(** Splits a method along its binds, its handlers and its branches; what
    is left are the primitive updates, closed when they do not touch the
    view. *)
Ltac frame :=
  repeat first
    [ apply keeps_ret
    | apply keeps_raise
    | apply keeps_gets
    | apply keeps_modify; intros; reflexivity
    | apply keeps_bind
    | apply keeps_try_except
    | assumption
    | match goal with
      | |- keeps _ (if ?b then _ else _) => destruct b
      | |- keeps _ (match ?x with _ => _ end) => destruct x
      | |- forall _, _ => intro
      end ].

(** The controller never calls the MQTT client, and never touches the
    client object, the monitor, the clock or psutil. *)
Definition outside_audio (w : world)
  : list bus_call * client * monitor * Z * psutil :=
  (bus_calls w, cli w, mon w, clock w, ps w).

Lemma keeps_get_volume : keeps outside_audio get_volume.
Proof.
  unfold get_volume, Audio.GetMasterVolumeLevelScalar, Audio.called, py_int,
    logger. frame.
Qed.

Lemma keeps_scan_sessions (l : list session) (h : nat) :
  keeps outside_audio (scan_sessions h l).
Proof.
  revert h. induction l as [| s l IH]; intros h; cbn [scan_sessions].
  - apply keeps_ret.
  - apply keeps_bind; [| intros _; apply IH].
    unfold scan_session, Audio.GetMasterVolume, Audio.called, py_int, logger,
      modify_vc. frame.
Qed.

Lemma keeps_refresh_applications : keeps outside_audio refresh_applications.
Proof.
  unfold refresh_applications, _scan_applications, Audio.GetAllSessions,
    Audio.called, logger, modify_vc.
  apply keeps_try_except; [| frame].
  apply keeps_bind; [frame |]. intros all.
  apply keeps_bind; [frame |]. intros _.
  apply keeps_bind; [apply keeps_scan_sessions | frame].
Qed.

(** *** The sync loop *)

(** The volume [get_volume] returns: the percentage of the scalar of the
    endpoint, truncated, or the cached volume when the call fails. *)
Definition volume_read (w : world) : Z :=
  if device_ok (ep w) then
    match percent_of_scalar (master_scalar (ep w)) with
    | Some n => n
    | None => current_volume (vc w)
    end
  else current_volume (vc w).

Lemma get_volume_run (w : world) :
  exists l,
    get_volume w =
      (Val (volume_read w),
       with_log (log w ++ l)
         (with_ep_calls (ep_calls w ++ [CallGetMasterVolumeLevelScalar]) w)).
Proof.
  unfold get_volume, Audio.GetMasterVolumeLevelScalar, py_int, volume_read,
    percent_of_scalar. run.
  destruct (device_ok (ep w)); cbn.
  - destruct (int_of_float (to_c_float (master_scalar (ep w)) * 100)); cbn.
    + exists []. rewrite app_nil_r. reflexivity.
    + exists [(ERROR, "Error getting volume")]. reflexivity.
  - exists [(ERROR, "Error getting volume")]. reflexivity.
Qed.

(** [sync_volume_from_system] returns a volume only when it is more than
    one point away from the cached one, and then caches it. *)
Lemma sync_volume_from_system_run (w : world) :
  exists (r : option Z) (w1 : world),
    sync_volume_from_system w = (Val r, w1)
    /\ outside_audio w1 = outside_audio w
    /\ (forall v, r = Some v ->
          v = volume_read w
          /\ 1 < Z.abs (v - current_volume (vc w))
          /\ sync_interval (vc w) <= clock w - last_sync (vc w)
          /\ current_volume (vc w1) = v).
Proof.
  unfold sync_volume_from_system. run.
  destruct (Z.ltb_spec (clock w - last_sync (vc w)) (sync_interval (vc w))); cbn.
  { exists None, w. repeat split; discriminate. }
  destruct (get_volume_run w) as [l Hget]. rewrite Hget. cbn.
  destruct (Z.ltb_spec 1 (Z.abs (volume_read w - current_volume (vc w)))); cbn.
  - eexists (Some _), _. split; [reflexivity|]. split; [reflexivity|].
    intros v Hv. injection Hv as <-. cbn. repeat split; assumption.
  - eexists None, _. split; [reflexivity|]. split; [reflexivity|]. discriminate.
Qed.

(** A publish on a configured topic: refused when the name is empty or
    has a wildcard, recorded otherwise. *)
Lemma client_publish_topic (t : string) (p : payload) (q : Z) (r : bool)
    (w : world) :
  client_publish (Some (Topic t)) p q r w =
    if String.eqb t "" || has_wildcard t then (Raise ValueError, w)
    else (Val tt, with_bus_calls (bus_calls w ++ [BusPublish (Topic t) p q r]) w).
Proof.
  unfold client_publish. destruct t as [| c t]; [reflexivity|].
  cbn. destruct (is_wildcard c || has_wildcard t); reflexivity.
Qed.

(** What [publish_volume_change] hands to the MQTT client. *)
Definition volume_change_calls (v : Z) (w : world) : list bus_call :=
  match topics (cli w) !! "pc_volume" with
  | Some t =>
      if String.eqb t "" || has_wildcard t then []
      else [BusPublish (Topic t) (StrOfInt v) (qos (cli w)) false]
  | None => []
  end.

Lemma publish_volume_change_run (v : Z) (w : world) :
  exists l,
    publish_volume_change v w =
      (Val tt,
       with_log (log w ++ l)
         (with_bus_calls (bus_calls w ++ volume_change_calls v w) w)).
Proof.
  unfold publish_volume_change, topics_get, topic_truthy, volume_change_calls.
  run.
  destruct (topics (cli w) !! "pc_volume") as [t|]; cbn [option_map].
  - destruct (String.eqb t "") eqn:Hempty; cbn [negb orb].
    + exists []. rewrite !app_nil_r. destruct w; reflexivity.
    + rewrite client_publish_topic, Hempty. cbn [orb].
      destruct (has_wildcard t); cbn.
      * exists [(ERROR, "Error publishing volume change")].
        rewrite app_nil_r. destruct w; reflexivity.
      * exists [(DEBUG, "Published volume change")]. reflexivity.
  - exists []. rewrite !app_nil_r. destruct w; reflexivity.
Qed.

(** C4, as the code has it. One turn of the sync loop publishes at most
    one message, on the [pc_volume] topic: the volume just read from the
    endpoint, and only when it is more than one point away from the
    volume the controller has cached (the last volume it synced, set on a
    command or read at start-up). *)
Theorem sync_turn_publishes_over_threshold (w : world) :
  let w' := exec sync_loop_turn w in
  bus_calls w' = bus_calls w
  \/ exists t v,
       topics (cli w) !! "pc_volume" = Some t
       /\ bus_calls w' =
            (bus_calls w ++ [BusPublish (Topic t) (StrOfInt v) (qos (cli w)) false])%list
       /\ eval get_volume w = Val v
       /\ 1 < Z.abs (v - current_volume (vc w))
       /\ connected (cli w) = true.
Proof.
  intros w'. subst w'.
  assert (Hrefresh : forall (w0 w4 : world) (r : res unit),
             refresh_applications w0 = (r, w4) -> bus_calls w4 = bus_calls w0).
  { intros w0 w4 r Hr. pose proof (keeps_refresh_applications w0) as K.
    unfold outside_audio, exec in K. rewrite Hr in K. cbn in K. congruence. }
  unfold sync_loop_turn. run.
  destruct (connected (cli w)) eqn:Hconn; cbn; [| left; reflexivity].
  destruct (sync_volume_from_system_run w) as (r & w1 & Hrun & Hout & Hr).
  rewrite Hrun. unfold outside_audio in Hout.
  injection Hout as Hbus Hcli Hmon Hclock Hps.
  destruct r as [v|].
  - destruct (Hr v eq_refl) as (Hv & Hfar & _ & _).
    destruct (publish_volume_change_run v w1) as [l Hpub]. rewrite Hpub. cbn.
    assert (Hcalls : volume_change_calls v w1 = []
                     \/ exists t, topics (cli w) !! "pc_volume" = Some t
                                  /\ volume_change_calls v w1 =
                                       [BusPublish (Topic t) (StrOfInt v) (qos (cli w)) false]).
    { unfold volume_change_calls. rewrite Hcli.
      destruct (topics (cli w) !! "pc_volume") as [t|]; [| left; reflexivity].
      destruct (String.eqb t "" || has_wildcard t);
        [left; reflexivity | right; eauto]. }
    assert (Hget : eval get_volume w = Val v).
    { destruct (get_volume_run w) as [l' Hg]. unfold eval. rewrite Hg, Hv.
      reflexivity. }
    destruct ((clock w1 / 1000) mod 30 =? 0).
    + destruct (refresh_applications _) as [[a | e] w4] eqn:Href;
        apply Hrefresh in Href; cbn in Href |- *; rewrite Href, Hbus;
        (destruct Hcalls as [-> | (t & Ht & ->)];
         [left; apply app_nil_r | right; exists t, v; auto]).
    + cbn. rewrite Hbus.
      destruct Hcalls as [-> | (t & Ht & ->)];
        [left; apply app_nil_r | right; exists t, v; auto].
  - cbn. left.
    destruct ((clock w1 / 1000) mod 30 =? 0); [| exact Hbus].
    destruct (refresh_applications _) as [[a | e] w4] eqn:Href;
      apply Hrefresh in Href; cbn in Href |- *; congruence.
Qed.

(** The last volume published on topic [t], if any. *)
Definition last_published_volume (t : string) (calls : list bus_call) : option Z :=
  fold_left
    (fun acc c =>
       match c with
       | BusPublish (Topic t') (StrOfInt v) _ _ =>
           if String.eqb t' t then Some v else acc
       | _ => acc
       end)
    calls None.

(** A run in which the volume is changed from outside, then set by a
    command, then changed from outside back to where it was. *)
Module Trace.

Definition outside_change (scalar : float) (t : Z) (w : world) : world :=
  with_clock t (with_ep (with_master_scalar scalar (ep w)) w).

Definition start : Z := clock Demo.world0.

(** The volume goes from 50 to 25 outside the bridge; the loop sees it. *)
Definition after_first_turn : world :=
  Eval vm_compute in
    exec sync_loop_turn (outside_change 0.25 (start + 3000) Demo.world0).

(** The remote controller sets 80. *)
Definition after_command : world :=
  Eval vm_compute in
    exec (on_message {| msg_topic := "homecontrol/volume"; msg_payload := "80";
                        msg_json := None |})
      (with_clock (start + 3500) after_first_turn).

(** The volume goes back to 25 outside the bridge. *)
Definition before_second_turn : world :=
  Eval vm_compute in outside_change 0.25 (start + 6500) after_command.

End Trace.

Example trace_first_turn_publishes_25 :
  bus_calls Trace.after_first_turn =
    [BusPublish (Topic "homecontrol/pc/volume") (StrOfInt 25) 1 false].
Proof. reflexivity. Qed.

Example trace_command_caches_80 :
  current_volume (vc Trace.before_second_turn) = 80
  /\ last_published_volume "homecontrol/pc/volume"
       (bus_calls Trace.before_second_turn) = Some 25.
Proof. vm_compute. auto. Qed.

(** C4 as stated fails: the loop compares with the cached volume, which a
    command has moved, not with the volume it published last; here it
    publishes 25 when the last volume it published was 25. *)
Lemma sync_turn_republishes_last_published :
  ~ (forall (w : world) (t : string) (v p q : Z) (r : bool),
       topics (cli w) !! "pc_volume" = Some t ->
       bus_calls (exec sync_loop_turn w) =
         (bus_calls w ++ [BusPublish (Topic t) (StrOfInt v) q r])%list ->
       last_published_volume t (bus_calls w) = Some p ->
       1 < Z.abs (v - p)).
Proof.
  intros H.
  specialize (H Trace.before_second_turn "homecontrol/pc/volume" 25 25 1 false).
  assert (Hfar : 1 < Z.abs (25 - 25)).
  { apply H; vm_compute; reflexivity. }
  vm_compute in Hfar. discriminate.
Qed.

(** Jitter of one point around the cached volume publishes nothing. *)
Example jitter_of_one_point_is_silent :
  bus_calls (exec sync_loop_turn
               (Trace.outside_change (scalar_of_percent 51) (Trace.start + 3000)
                  Demo.world0)) = []
  /\ bus_calls (exec sync_loop_turn
               (Trace.outside_change (scalar_of_percent 49) (Trace.start + 3000)
                  Demo.world0)) = [].
Proof. vm_compute. auto. Qed.

(** *** The power events of the system monitor *)

(** The state [get_power_state] returns, from the readings of psutil, the
    clock and the time of the last activity. *)
Definition classify (w : world) : string :=
  if psutil_ok (ps w) then
    if idle_too_long (clock w) (mon w) then "idle"
    else if PrimFloat.ltb (cpu_percent (ps w)) 5
            && PrimFloat.ltb (memory_percent (ps w)) 50 then "low_activity"
    else if PrimFloat.ltb 80 (cpu_percent (ps w)) then "active_high"
    else "active"
  else "unknown".

Lemma with_log_same (w : world) : with_log (log w) w = w.
Proof. destruct w; reflexivity. Qed.

Lemma _get_power_state_activity_run (w : world) :
  exists l,
    _get_power_state_activity w = (Val (classify w), with_log (log w ++ l) w).
Proof.
  unfold _get_power_state_activity, psutil_read, classify. run.
  destruct (psutil_ok (ps w)) eqn:Hps; cbn; rewrite ?Hps; cbn.
  - exists []. rewrite app_nil_r, with_log_same.
    destruct (idle_too_long (clock w) (mon w)); [reflexivity|].
    destruct (PrimFloat.ltb (cpu_percent (ps w)) 5
              && PrimFloat.ltb (memory_percent (ps w)) 50); [reflexivity|].
    destruct (PrimFloat.ltb 80 (cpu_percent (ps w))); reflexivity.
  - exists [(ERROR, "Error getting activity-based power state")]. reflexivity.
Qed.

Lemma get_power_state_run (w : world) :
  exists l, get_power_state w = (Val (classify w), with_log (log w ++ l) w).
Proof.
  destruct (_get_power_state_activity_run w) as [l Hl].
  unfold get_power_state, _get_power_state_wmi. run.
  destruct (String.eqb (sleep_detection_method (mon w)) "wmi" && wmi (mon w));
    rewrite Hl; exists l; reflexivity.
Qed.

Lemma classify_known (w : world) :
  classify w <> "unknown" -> psutil_ok (ps w) = true.
Proof.
  unfold classify. destruct (psutil_ok (ps w)); [reflexivity | congruence].
Qed.

(** What [publish_power_event] hands to the MQTT client. *)
Definition power_event_calls (event_type : string) (details : list (string * pyval))
    (w : world) : list bus_call :=
  match topics (cli w) !! "pc_power" with
  | Some t =>
      if String.eqb t "" || has_wildcard t then []
      else
        [BusPublish (Topic t)
           (Json (PDict (match details with
                         | [] => [("event", PStr event_type);
                                  ("timestamp", PInt (clock w))]
                         | _ => [("event", PStr event_type);
                                 ("timestamp", PInt (clock w))] ++ details
                         end)))
           (qos (cli w)) false]
  | None => []
  end.

Lemma publish_power_event_run (event_type : string)
    (details : list (string * pyval)) (w : world) :
  exists l,
    publish_power_event event_type details w =
      (Val tt,
       with_log (log w ++ l)
         (with_bus_calls (bus_calls w ++ power_event_calls event_type details w) w)).
Proof.
  unfold publish_power_event, _publish_power_event, topics_get, topic_truthy,
    power_event_calls. run.
  destruct (topics (cli w) !! "pc_power") as [t|]; cbn [option_map].
  - destruct (String.eqb t "") eqn:Hempty; cbn [negb orb].
    + exists []. rewrite !app_nil_r. destruct w; reflexivity.
    + rewrite client_publish_topic, Hempty. cbn [orb].
      destruct (has_wildcard t); cbn.
      * exists [(ERROR, "Error publishing power event")].
        rewrite app_nil_r. destruct w; reflexivity.
      * exists [(DEBUG, "Published power event")]. reflexivity.
  - exists []. rewrite !app_nil_r. destruct w; reflexivity.
Qed.

(** The name of the power event a publish carries, if it carries one. *)
Definition event_name (c : bus_call) : option string :=
  match c with
  | BusPublish _ (Json (PDict d)) _ _ =>
      match dict_get "event" d with
      | PStr s => Some s
      | _ => None
      end
  | _ => None
  end.

Definition is_sleep_wake (c : bus_call) : bool :=
  match event_name c with
  | Some s => String.eqb s "sleep_detected" || String.eqb s "wake_detected"
  | None => false
  end.

(** The sleep and wake events among the calls the MQTT client received,
    in the order it received them. *)
Definition sleep_wake_events (calls : list bus_call) : list bus_call :=
  List.filter is_sleep_wake calls.

Definition events_of (w : world) : list bus_call := sleep_wake_events (bus_calls w).

Lemma keeps_weaken {A B C : Type} (f : world -> B) (g : world -> C) (m : M A) :
  (forall w w', f w' = f w -> g w' = g w) -> keeps f m -> keeps g m.
Proof. intros Hfg Hm w. apply Hfg, Hm. Qed.

Lemma outside_audio_events (w w' : world) :
  outside_audio w' = outside_audio w -> events_of w' = events_of w.
Proof. unfold outside_audio, events_of. intros H. injection H as -> _ _ _ _. reflexivity. Qed.

Lemma keeps_events_publish_volume_change (v : Z) :
  keeps events_of (publish_volume_change v).
Proof.
  intros w. destruct (publish_volume_change_run v w) as [l Hrun].
  unfold exec. rewrite Hrun. unfold events_of, sleep_wake_events. cbn.
  rewrite List.filter_app. unfold volume_change_calls.
  destruct (topics (cli w) !! "pc_volume") as [t|]; [| apply app_nil_r].
  destruct (String.eqb t "" || has_wildcard t); apply app_nil_r.
Qed.

Lemma keeps_events_get_power_state : keeps events_of get_power_state.
Proof.
  intros w. destruct (get_power_state_run w) as [l Hrun].
  unfold exec. rewrite Hrun. reflexivity.
Qed.

(** The system status carries no power event. *)
Lemma keeps_events_publish_system_status :
  keeps events_of PCSystemMonitor.publish_system_status.
Proof.
  unfold PCSystemMonitor.publish_system_status, psutil_read, logger.
  apply keeps_try_except; [| frame].
  apply keeps_bind; [frame |]. intros cpu.
  apply keeps_bind; [frame |]. intros mem.
  apply keeps_bind; [frame |]. intros boot.
  apply keeps_bind; [frame |]. intros now.
  apply keeps_bind; [apply keeps_events_get_power_state |]. intros state.
  apply keeps_bind; [frame |]. intros m.
  apply keeps_bind; [| frame].
  unfold MQTTVolumeClient.publish_system_status, topics_get, logger.
  apply keeps_try_except; [| frame].
  apply keeps_bind; [frame |]. intros t.
  destruct t as [name|]; cbn [topic_truthy option_map]; [| frame].
  destruct (negb (String.eqb name "")); [| frame].
  apply keeps_bind; [frame |]. intros c.
  apply keeps_bind; [| frame].
  unfold client_publish.
  destruct name as [| c0 name]; [frame |].
  destruct (topic_has_wildcard (Topic (String c0 name))); [frame |].
  apply keeps_modify. intros w. unfold events_of, sleep_wake_events. cbn.
  rewrite List.filter_app. cbn. apply app_nil_r.
Qed.

Lemma keeps_events_after_wake (now : Z) : keeps events_of (after_wake now).
Proof.
  unfold after_wake, modify_mon.
  apply keeps_bind; [frame |]. intros _.
  apply keeps_bind.
  { eapply keeps_weaken; [apply outside_audio_events | apply keeps_refresh_applications]. }
  intros _. apply keeps_bind.
  { eapply keeps_weaken; [apply outside_audio_events | apply keeps_get_volume]. }
  intros vol. apply keeps_bind; [apply keeps_events_publish_volume_change |].
  intros _. apply keeps_events_publish_system_status.
Qed.

(** Rewrites the next call of a method whose run is known. *)
Ltac known_run :=
  match goal with
  | |- context [get_power_state ?w] =>
      let l := fresh "l" in let H := fresh "H" in
      destruct (get_power_state_run w) as [l H]; rewrite H; clear H
  | |- context [publish_power_event ?n ?d ?w] =>
      let l := fresh "l" in let H := fresh "H" in
      destruct (publish_power_event_run n d w) as [l H]; rewrite H; clear H
  end; run.

(** A name paho accepts as the topic of a publish: not empty, and
    without the wildcards [+] and [#]. *)
Definition publish_topic (t : string) : Prop :=
  t <> "" /\ has_wildcard t = false.

(** With the power topic configured, an event with details is one call. *)
Lemma power_event_calls_configured (name : string) (d : list (string * pyval))
    (t : string) (w : world) :
  topics (cli w) !! "pc_power" = Some t -> publish_topic t -> d <> [] ->
  power_event_calls name d w =
    [BusPublish (Topic t)
       (Json (PDict ([("event", PStr name); ("timestamp", PInt (clock w))] ++ d)))
       (qos (cli w)) false].
Proof.
  intros Ht [Hne Hwild] Hd. unfold power_event_calls. rewrite Ht, Hwild.
  destruct (String.eqb_spec t ""); [contradiction|].
  destruct d; [contradiction | reflexivity].
Qed.

(** What the monitor reads: its own fields, the client, the clock and
    psutil. *)
Definition monitor_view (w : world) : monitor * client * Z * psutil :=
  (mon w, cli w, clock w, ps w).

Lemma state_change_is_quiet (d : list (string * pyval)) (w : world) :
  dict_get "event"
    ([("event", PStr "state_change"); ("timestamp", PInt (clock w))] ++ d)
    = PStr "state_change" ->
  sleep_wake_events (power_event_calls "state_change" d w) = [].
Proof.
  intros Hev. unfold power_event_calls.
  destruct (topics (cli w) !! "pc_power") as [t|]; [| reflexivity].
  destruct (String.eqb t "" || has_wildcard t); [reflexivity|].
  destruct d as [| kv d]; [reflexivity|].
  unfold sleep_wake_events, List.filter, is_sleep_wake, event_name.
  rewrite Hev. reflexivity.
Qed.

Lemma publish_state_change_run (s : string) (w : world) :
  psutil_ok (ps w) = true ->
  exists w',
    publish_state_change s w = (Val tt, w')
    /\ monitor_view w' = monitor_view w
    /\ events_of w' = events_of w.
Proof.
  intros Hps. unfold publish_state_change, psutil_read. run. rewrite Hps. run.
  known_run. eexists. split; [reflexivity|]. split; [reflexivity|].
  unfold events_of, sleep_wake_events. cbn [bus_calls with_log with_bus_calls].
  rewrite List.filter_app.
  fold (sleep_wake_events (bus_calls w)).
  match goal with
  | |- context [List.filter is_sleep_wake (power_event_calls ?n ?d ?w0)] =>
      change (List.filter is_sleep_wake (power_event_calls n d w0))
        with (sleep_wake_events (power_event_calls n d w0));
      rewrite (state_change_is_quiet d w0) by reflexivity
  end.
  apply app_nil_r.
Qed.

Lemma sleep_handling_skip (s : string) (w : world) :
  sleep_like s && awake_like (last_power_state (mon w)) = false ->
  sleep_handling s w = (Val tt, w).
Proof. intros H. unfold sleep_handling. run. rewrite H. reflexivity. Qed.

(** Entering sleep: the start of the sleep is stamped and one
    [sleep_detected] event is published. *)
Lemma sleep_handling_run (s t : string) (w : world) :
  topics (cli w) !! "pc_power" = Some t -> publish_topic t ->
  sleep_like s && awake_like (last_power_state (mon w)) = true ->
  exists w' ev,
    sleep_handling s w = (Val tt, w')
    /\ mon w' = with_sleep_start_time (Some (clock w)) (mon w)
    /\ cli w' = cli w /\ clock w' = clock w /\ ps w' = ps w
    /\ events_of w' =
         (events_of w ++ [BusPublish (Topic t) (Json (PDict ev)) (qos (cli w)) false])%list
    /\ dict_get "event" ev = PStr "sleep_detected".
Proof.
  intros Ht Hne Hcond.
  unfold sleep_handling, _get_last_activity_time. run. rewrite Hcond. run.
  known_run.
  match goal with
  | |- context [power_event_calls ?n ?d ?w0] =>
      rewrite (power_event_calls_configured n d t w0) by (assumption || discriminate)
  end.
  eexists _, _. split; [reflexivity|]. cbn.
  do 4 (split; [reflexivity|]).
  split.
  - unfold events_of, sleep_wake_events. cbn. rewrite List.filter_app. reflexivity.
  - reflexivity.
Qed.

Lemma wake_handling_skip (s : string) (w : world) :
  sleep_like (last_power_state (mon w)) && awake_like s = false ->
  wake_handling s w = (Val tt, w).
Proof. intros H. unfold wake_handling. run. rewrite H. reflexivity. Qed.

(** [_calculate_sleep_duration]: the time since the start of the sleep,
    and zero when no start was stamped. *)
Definition sleep_duration_at (now : Z) (m : monitor) : Z :=
  match sleep_start_time m with
  | Some start => if start =? 0 then 0 else now - start
  | None => 0
  end.

Lemma _calculate_sleep_duration_run (w : world) :
  exists m',
    _calculate_sleep_duration w =
      (Val (sleep_duration_at (clock w) (mon w)), with_mon m' w).
Proof.
  unfold _calculate_sleep_duration, sleep_duration_at. run.
  destruct (sleep_start_time (mon w)) as [start|]; cbn.
  - destruct (start =? 0); cbn.
    + exists (mon w). destruct w; reflexivity.
    + eexists. reflexivity.
  - exists (mon w). destruct w; reflexivity.
Qed.

(** Waking up: one [wake_detected] event is published, with the duration
    of the sleep, and nothing that follows in the same call publishes
    another sleep or wake event. *)
Lemma wake_handling_events (s t : string) (k : unit -> M unit) (w : world) :
  topics (cli w) !! "pc_power" = Some t -> publish_topic t ->
  sleep_like (last_power_state (mon w)) && awake_like s = true ->
  (forall a, keeps events_of (k a)) ->
  exists ev,
    events_of (exec (bind (wake_handling s) k) w) =
      (events_of w ++ [BusPublish (Topic t) (Json (PDict ev)) (qos (cli w)) false])%list
    /\ dict_get "event" ev = PStr "wake_detected"
    /\ dict_get "sleep_duration" ev = PInt (sleep_duration_at (clock w) (mon w)).
Proof.
  intros Ht Hne Hcond Hk.
  pose proof (keeps_events_after_wake) as Hafter.
  unfold wake_handling. run. rewrite Hcond. run.
  match goal with
  | |- context [_calculate_sleep_duration ?w0] =>
      destruct (_calculate_sleep_duration_run w0) as [m' Hcalc]; rewrite Hcalc
  end.
  run. known_run.
  match goal with
  | |- context [power_event_calls ?n ?d ?w0] =>
      rewrite (power_event_calls_configured n d t w0) by (assumption || discriminate)
  end.
  cbn [clock cli with_log with_mon with_bus_calls].
  eexists. split.
  { match goal with
    | |- context [after_wake ?now ?w0] =>
        pose proof (Hafter now w0) as Ha; unfold exec in Ha;
        destruct (after_wake now w0) as [[a | e] w1]; cbn [fst snd] in Ha |- *
    end.
    - specialize (Hk a w1). unfold exec in Hk. rewrite Hk, Ha.
      unfold events_of, sleep_wake_events. cbn. rewrite List.filter_app.
      reflexivity.
    - rewrite Ha.
      unfold events_of, sleep_wake_events. cbn. rewrite List.filter_app.
      reflexivity. }
  split; reflexivity.
Qed.

Lemma sleep_like_not_awake (s : string) :
  sleep_like s = true -> awake_like s = false.
Proof.
  unfold sleep_like, awake_like. cbn [existsb].
  destruct (String.eqb_spec s "sleep") as [-> | _]; [reflexivity|].
  destruct (String.eqb_spec s "hibernate") as [-> | _]; [reflexivity|].
  destruct (String.eqb_spec s "idle") as [-> | _]; [reflexivity|].
  discriminate.
Qed.

Lemma awake_like_not_sleep (s : string) :
  awake_like s = true -> sleep_like s = false.
Proof.
  intros Ha. destruct (sleep_like s) eqn:Hs; [| reflexivity].
  rewrite (sleep_like_not_awake s Hs) in Ha. discriminate.
Qed.

(** A change of state that is neither falling asleep nor waking up. *)
Lemma on_state_change_plain (s : string) (w : world) :
  psutil_ok (ps w) = true ->
  sleep_like s && awake_like (last_power_state (mon w)) = false ->
  sleep_like (last_power_state (mon w)) && awake_like s = false ->
  exists w',
    on_state_change s w = (Val tt, w')
    /\ mon w' = with_last_power_state s (mon w)
    /\ cli w' = cli w /\ clock w' = clock w
    /\ events_of w' = events_of w.
Proof.
  intros Hps Hns Hnw.
  destruct (publish_state_change_run s w Hps) as (w1 & H1 & Hview & Hev).
  unfold monitor_view in Hview. injection Hview as Hmon Hcli Hclock Hps1.
  unfold on_state_change. cbv [bind]. rewrite H1.
  rewrite sleep_handling_skip by (rewrite Hmon; exact Hns).
  rewrite wake_handling_skip by (rewrite Hmon; exact Hnw).
  eexists. split; [reflexivity|]. cbn.
  rewrite Hmon. repeat split; assumption.
Qed.

(** Falling asleep. *)
Lemma on_state_change_sleep (s t : string) (w : world) :
  psutil_ok (ps w) = true ->
  topics (cli w) !! "pc_power" = Some t -> publish_topic t ->
  sleep_like s = true ->
  awake_like (last_power_state (mon w)) = true ->
  exists w' ev,
    on_state_change s w = (Val tt, w')
    /\ mon w' = with_last_power_state s
                  (with_sleep_start_time (Some (clock w)) (mon w))
    /\ cli w' = cli w /\ clock w' = clock w
    /\ events_of w' =
         (events_of w ++ [BusPublish (Topic t) (Json (PDict ev)) (qos (cli w)) false])%list
    /\ dict_get "event" ev = PStr "sleep_detected".
Proof.
  intros Hps Ht Hne Hs Ha.
  destruct (publish_state_change_run s w Hps) as (w1 & H1 & Hview & Hev).
  unfold monitor_view in Hview. injection Hview as Hmon Hcli Hclock Hps1.
  destruct (sleep_handling_run s t w1) as (w2 & ev & H2 & Hmon2 & Hcli2 & Hclock2 & _ & Hev2 & Hname).
  { rewrite Hcli. exact Ht. }
  { exact Hne. }
  { rewrite Hmon, Hs, Ha. reflexivity. }
  unfold on_state_change. cbv [bind]. rewrite H1, H2.
  rewrite wake_handling_skip.
  2:{ rewrite Hmon2, Hmon. cbn [last_power_state with_sleep_start_time].
      rewrite (awake_like_not_sleep _ Ha). reflexivity. }
  exists (with_mon (with_last_power_state s (mon w2)) w2), ev.
  split; [reflexivity|]. cbn.
  rewrite Hmon2, Hmon, Hcli2, Hcli, Hclock2, Hclock.
  do 3 (split; [reflexivity|]).
  split; [| exact Hname].
  change (events_of w2 =
          (events_of w ++ [BusPublish (Topic t) (Json (PDict ev)) (qos (cli w)) false])%list).
  rewrite Hev2, Hev, Hcli. reflexivity.
Qed.

(** Waking up. *)
Lemma on_state_change_wake (s t : string) (w : world) :
  psutil_ok (ps w) = true ->
  topics (cli w) !! "pc_power" = Some t -> publish_topic t ->
  sleep_like (last_power_state (mon w)) = true ->
  awake_like s = true ->
  exists ev,
    events_of (exec (on_state_change s) w) =
      (events_of w ++ [BusPublish (Topic t) (Json (PDict ev)) (qos (cli w)) false])%list
    /\ dict_get "event" ev = PStr "wake_detected"
    /\ dict_get "sleep_duration" ev = PInt (sleep_duration_at (clock w) (mon w)).
Proof.
  intros Hps Ht Hne Hs Ha.
  destruct (publish_state_change_run s w Hps) as (w1 & H1 & Hview & Hev).
  unfold monitor_view in Hview. injection Hview as Hmon Hcli Hclock Hps1.
  destruct (wake_handling_events s t
              (fun _ => modify_mon (with_last_power_state s)) w1)
    as (ev & Hev2 & Hname & Hdur).
  { rewrite Hcli. exact Ht. }
  { exact Hne. }
  { rewrite Hmon, Hs, Ha. reflexivity. }
  { intros _. unfold modify_mon. frame. }
  exists ev. rewrite Hmon, Hclock in Hdur. rewrite Hcli, Hev in Hev2.
  split; [| split; assumption].
  rewrite <- Hev2.
  unfold on_state_change, exec. cbv [bind]. rewrite H1.
  rewrite sleep_handling_skip.
  2:{ rewrite Hmon, (awake_like_not_sleep _ Ha). reflexivity. }
  reflexivity.
Qed.

(** *** Runs of the monitor *)

(** What happens between two calls of [detect_power_events]: the clock
    reaches [at_time], psutil has new readings, the audio device may have
    been changed from outside, and user activity, if any, was reported
    through [update_activity_time]. *)
Record env_step : Type := {
  at_time : Z;
  readings : psutil;
  activity : bool;
  audio : endpoint -> endpoint
}.

Definition arrive (e : env_step) (w : world) : world :=
  let w := with_clock (at_time e) (with_ps (readings e) (with_ep (audio e (ep w)) w)) in
  if activity e then exec update_activity_time w else w.

(** One turn of [_monitor_loop], as far as the power events go. *)
Definition monitor_tick (e : env_step) (w : world) : world :=
  exec detect_power_events (arrive e w).

Fixpoint monitor_run (es : list env_step) (w : world) : world :=
  match es with
  | [] => w
  | e :: es' => monitor_run es' (monitor_tick e w)
  end.

(** The state [get_power_state] returns in the turn that follows [e]. *)
Definition observed (e : env_step) (w : world) : string :=
  match eval get_power_state (arrive e w) with
  | Val s => s
  | Raise _ => "unknown"
  end.

(** The trajectory of power states a run goes through. *)
Fixpoint states_seen (es : list env_step) (w : world) : list string :=
  match es with
  | [] => []
  | e :: es' => observed e w :: states_seen es' (monitor_tick e w)
  end.

(** The readings of the clock never go back. *)
Fixpoint clock_moves_forward (t : Z) (es : list env_step) : Prop :=
  match es with
  | [] => True
  | e :: es' => t <= at_time e /\ clock_moves_forward (at_time e) es'
  end.

(** The monitor detects sleep and wake, and the power topic is set to a
    name the client can publish on. *)
Definition monitoring (t : string) (w : world) : Prop :=
  detect_sleep_wake (mon w) = true
  /\ topics (cli w) !! "pc_power" = Some t /\ publish_topic t.

Lemma observed_classify (e : env_step) (w : world) :
  observed e w = classify (arrive e w).
Proof.
  unfold observed, eval.
  destruct (get_power_state_run (arrive e w)) as [l ->]. reflexivity.
Qed.

Lemma arrive_view (e : env_step) (w : world) :
  cli (arrive e w) = cli w
  /\ bus_calls (arrive e w) = bus_calls w
  /\ clock (arrive e w) = at_time e
  /\ ps (arrive e w) = readings e
  /\ last_power_state (mon (arrive e w)) = last_power_state (mon w)
  /\ sleep_start_time (mon (arrive e w)) = sleep_start_time (mon w)
  /\ detect_sleep_wake (mon (arrive e w)) = detect_sleep_wake (mon w).
Proof.
  unfold arrive, update_activity_time. run.
  destruct (activity e); cbn; repeat split.
Qed.

(** The four kinds of turn. *)

Lemma detect_same (wa : world) :
  detect_sleep_wake (mon wa) = true ->
  classify wa = last_power_state (mon wa) ->
  exists l, detect_power_events wa = (Val tt, with_log (log wa ++ l) wa).
Proof.
  intros Hdet Hsame. unfold detect_power_events. run. rewrite Hdet. cbn [negb].
  known_run. rewrite Hsame, String.eqb_refl. cbn. eauto.
Qed.

Lemma detect_plain (wa : world) :
  detect_sleep_wake (mon wa) = true ->
  psutil_ok (ps wa) = true ->
  sleep_like (classify wa) && awake_like (last_power_state (mon wa)) = false ->
  sleep_like (last_power_state (mon wa)) && awake_like (classify wa) = false ->
  let w' := exec detect_power_events wa in
  mon w' = with_last_power_state (classify wa) (mon wa)
  /\ cli w' = cli wa /\ clock w' = clock wa /\ events_of w' = events_of wa.
Proof.
  intros Hdet Hps Hns Hnw w'. subst w'.
  destruct (String.eqb_spec (classify wa) (last_power_state (mon wa))) as [Heq | Hne].
  - destruct (detect_same wa Hdet Heq) as [l Hrun].
    unfold exec. rewrite Hrun. cbn. rewrite Heq.
    repeat split. destruct (mon wa); reflexivity.
  - unfold detect_power_events, exec. run. rewrite Hdet. cbn [negb].
    known_run.
    destruct (String.eqb_spec (classify wa) (last_power_state (mon wa)));
      [contradiction|]. cbn [negb].
    match goal with
    | |- context [on_state_change ?s ?w0] =>
        destruct (on_state_change_plain s w0 Hps Hns Hnw)
          as (w1 & H1 & Hmon & Hcli & Hclock & Hev)
    end.
    rewrite H1. cbn. repeat split; assumption.
Qed.

Lemma detect_sleep (wa : world) (t : string) :
  monitoring t wa ->
  psutil_ok (ps wa) = true ->
  sleep_like (classify wa) = true ->
  awake_like (last_power_state (mon wa)) = true ->
  let w' := exec detect_power_events wa in
  exists ev,
    mon w' = with_last_power_state (classify wa)
               (with_sleep_start_time (Some (clock wa)) (mon wa))
    /\ cli w' = cli wa /\ clock w' = clock wa
    /\ events_of w' =
         (events_of wa ++ [BusPublish (Topic t) (Json (PDict ev)) (qos (cli wa)) false])%list
    /\ dict_get "event" ev = PStr "sleep_detected".
Proof.
  intros (Hdet & Ht & Hne) Hps Hs Ha w'. subst w'.
  assert (Hdiff : classify wa <> last_power_state (mon wa)).
  { intros Heq. rewrite <- Heq in Ha.
    rewrite (sleep_like_not_awake _ Hs) in Ha. discriminate. }
  unfold detect_power_events, exec. run. rewrite Hdet. cbn [negb].
  known_run.
  destruct (String.eqb_spec (classify wa) (last_power_state (mon wa)));
    [contradiction|]. cbn [negb].
  match goal with
  | |- context [on_state_change ?s ?w0] =>
      destruct (on_state_change_sleep s t w0 Hps Ht Hne Hs Ha)
        as (w1 & ev & H1 & Hmon & Hcli & Hclock & Hev & Hname)
  end.
  rewrite H1. cbn. exists ev. repeat split; assumption.
Qed.

Lemma detect_wake (wa : world) (t : string) :
  monitoring t wa ->
  psutil_ok (ps wa) = true ->
  sleep_like (last_power_state (mon wa)) = true ->
  awake_like (classify wa) = true ->
  exists ev,
    events_of (exec detect_power_events wa) =
      (events_of wa ++ [BusPublish (Topic t) (Json (PDict ev)) (qos (cli wa)) false])%list
    /\ dict_get "event" ev = PStr "wake_detected"
    /\ dict_get "sleep_duration" ev = PInt (sleep_duration_at (clock wa) (mon wa)).
Proof.
  intros (Hdet & Ht & Hne) Hps Hs Ha.
  assert (Hdiff : classify wa <> last_power_state (mon wa)).
  { intros Heq. rewrite Heq in Ha.
    rewrite (sleep_like_not_awake _ Hs) in Ha. discriminate. }
  destruct (get_power_state_run wa) as [l Hget].
  destruct (on_state_change_wake (classify wa) t (with_log (log wa ++ l) wa)
              Hps Ht Hne Hs Ha) as (ev & Hev & Hname & Hdur).
  unfold events_of in *.
  cbn [bus_calls cli clock mon with_log] in Hev, Hdur.
  exists ev. split; [| split; assumption].
  rewrite <- Hev.
  unfold detect_power_events, exec. run. rewrite Hdet. cbn [negb].
  rewrite Hget. run.
  destruct (String.eqb_spec (classify wa) (last_power_state (mon wa)));
    [contradiction|]. cbn [negb].
  destruct (on_state_change (classify wa) (with_log (log wa ++ l) wa))
    as [[a | e] w1]; reflexivity.
Qed.

Lemma awake_is_known (s : string) : awake_like s = true -> s <> "unknown".
Proof. intros H ->. discriminate. Qed.

Lemma tick_awake (t : string) (e : env_step) (w : world) :
  monitoring t w ->
  awake_like (last_power_state (mon w)) = true ->
  awake_like (observed e w) = true ->
  let w' := monitor_tick e w in
  monitoring t w'
  /\ awake_like (last_power_state (mon w')) = true
  /\ clock w' = at_time e
  /\ events_of w' = events_of w
  /\ cli w' = cli w.
Proof.
  intros (Hdet & Ht & Hne) Hlast Hobs w'. subst w'.
  rewrite observed_classify in Hobs.
  destruct (arrive_view e w) as (Hcli & Hbus & Hclock & _ & Hl & _ & Hd).
  destruct (detect_plain (arrive e w)) as (Hmon & Hcli' & Hclock' & Hev).
  - congruence.
  - apply classify_known, awake_is_known, Hobs.
  - rewrite (awake_like_not_sleep _ Hobs). reflexivity.
  - rewrite Hl, (awake_like_not_sleep _ Hlast). reflexivity.
  - unfold monitor_tick, monitoring. rewrite Hmon, Hcli', Hclock', Hev. cbn.
    unfold events_of. rewrite Hbus, Hcli, Hd.
    repeat split; first [assumption | apply Hne].
Qed.

Lemma tick_fall_asleep (t : string) (e : env_step) (w : world) :
  monitoring t w ->
  awake_like (last_power_state (mon w)) = true ->
  observed e w = "idle" ->
  let w' := monitor_tick e w in
  monitoring t w'
  /\ last_power_state (mon w') = "idle"
  /\ sleep_start_time (mon w') = Some (at_time e)
  /\ clock w' = at_time e
  /\ cli w' = cli w
  /\ exists ev,
       events_of w' =
         (events_of w ++ [BusPublish (Topic t) (Json (PDict ev)) (qos (cli w)) false])%list
       /\ dict_get "event" ev = PStr "sleep_detected".
Proof.
  intros (Hdet & Ht & Hne) Hlast Hobs w'. subst w'.
  rewrite observed_classify in Hobs.
  destruct (arrive_view e w) as (Hcli & Hbus & Hclock & _ & Hl & _ & Hd).
  destruct (detect_sleep (arrive e w) t)
    as (ev & Hmon & Hcli' & Hclock' & Hev & Hname).
  - unfold monitoring. rewrite Hd, Hcli. auto.
  - apply classify_known. rewrite Hobs. discriminate.
  - rewrite Hobs. reflexivity.
  - rewrite Hl. exact Hlast.
  - unfold monitor_tick, monitoring. rewrite Hmon, Hcli', Hclock', Hev, Hobs. cbn.
    unfold events_of. rewrite Hbus, Hcli, Hd, Hclock.
    repeat split; try assumption; try apply Hne.
    exists ev. split; [reflexivity | exact Hname].
Qed.

Lemma tick_stay_idle (t : string) (e : env_step) (w : world) :
  monitoring t w ->
  last_power_state (mon w) = "idle" ->
  observed e w = "idle" ->
  let w' := monitor_tick e w in
  monitoring t w'
  /\ last_power_state (mon w') = "idle"
  /\ sleep_start_time (mon w') = sleep_start_time (mon w)
  /\ clock w' = at_time e
  /\ cli w' = cli w
  /\ events_of w' = events_of w.
Proof.
  intros (Hdet & Ht & Hne) Hlast Hobs w'. subst w'.
  rewrite observed_classify in Hobs.
  destruct (arrive_view e w) as (Hcli & Hbus & Hclock & _ & Hl & Hst & Hd).
  destruct (detect_same (arrive e w)) as [l Hrun].
  - congruence.
  - congruence.
  - unfold monitor_tick, monitoring, exec, events_of. rewrite Hrun. cbn.
    rewrite Hd, Hcli, Hl, Hst, Hbus. repeat split; first [assumption | apply Hne].
Qed.

Lemma tick_wake (t : string) (e : env_step) (w : world) (t0 : Z) :
  monitoring t w ->
  last_power_state (mon w) = "idle" ->
  sleep_start_time (mon w) = Some t0 ->
  t0 <= at_time e ->
  awake_like (observed e w) = true ->
  exists ev d,
    events_of (monitor_tick e w) =
      (events_of w ++ [BusPublish (Topic t) (Json (PDict ev)) (qos (cli w)) false])%list
    /\ dict_get "event" ev = PStr "wake_detected"
    /\ dict_get "sleep_duration" ev = PInt d
    /\ 0 <= d.
Proof.
  intros (Hdet & Ht & Hne) Hlast Hstart Hle Hobs.
  rewrite observed_classify in Hobs.
  destruct (arrive_view e w) as (Hcli & Hbus & Hclock & _ & Hl & Hst & Hd).
  destruct (detect_wake (arrive e w) t) as (ev & Hev & Hname & Hdur).
  - unfold monitoring. rewrite Hd, Hcli. auto.
  - apply classify_known, awake_is_known, Hobs.
  - rewrite Hl, Hlast. reflexivity.
  - exact Hobs.
  - exists ev, (sleep_duration_at (clock (arrive e w)) (mon (arrive e w))).
    unfold monitor_tick. rewrite Hev. unfold events_of. rewrite Hbus, Hcli.
    repeat split; try assumption.
    unfold sleep_duration_at. rewrite Hst, Hstart, Hclock.
    destruct (t0 =? 0); lia.
Qed.

(** Splits the conjunctions of the goal, and nothing under a definition. *)
Ltac splits := repeat match goal with |- _ /\ _ => split end.

(** While the states seen are awake-like, no sleep or wake event. *)
Lemma awake_phase (t : string) (pre : list string) :
  forall (es : list env_step) (w : world) (rest : list string),
    monitoring t w ->
    awake_like (last_power_state (mon w)) = true ->
    clock_moves_forward (clock w) es ->
    states_seen es w = (pre ++ rest)%list ->
    Forall (fun s => awake_like s = true) pre ->
    exists es' w',
      monitor_run es w = monitor_run es' w'
      /\ states_seen es' w' = rest
      /\ monitoring t w'
      /\ awake_like (last_power_state (mon w')) = true
      /\ clock_moves_forward (clock w') es'
      /\ events_of w' = events_of w
      /\ cli w' = cli w.
Proof.
  induction pre as [| s pre IH]; intros es w rest Hmon Hlast Hclk Hseen Hpre.
  - exists es, w. splits; auto.
  - destruct es as [| e es]; [discriminate|].
    cbn in Hseen. injection Hseen as Hobs Hseen.
    inversion Hpre as [| ? ? Hs Hpre']; subst.
    destruct Hclk as [_ Hclk].
    destruct (tick_awake t e w Hmon Hlast Hs)
      as (Hmon' & Hlast' & Hclock' & Hev' & Hcli').
    destruct (IH es (monitor_tick e w) rest Hmon' Hlast')
      as (es' & w' & Hrun & Hrest & Hm & Hl & Hc & Hev & Hcli); try assumption.
    { rewrite Hclock'. exact Hclk. }
    exists es', w'. cbn. splits; try assumption; congruence.
Qed.

(** While the state seen stays idle, no event, and the start of the sleep
    stays stamped. *)
Lemma idle_phase (t : string) (t0 : Z) (k : nat) :
  forall (es : list env_step) (w : world) (rest : list string),
    monitoring t w ->
    last_power_state (mon w) = "idle" ->
    sleep_start_time (mon w) = Some t0 ->
    t0 <= clock w ->
    clock_moves_forward (clock w) es ->
    states_seen es w = (repeat "idle" k ++ rest)%list ->
    exists es' w',
      monitor_run es w = monitor_run es' w'
      /\ states_seen es' w' = rest
      /\ monitoring t w'
      /\ last_power_state (mon w') = "idle"
      /\ sleep_start_time (mon w') = Some t0
      /\ t0 <= clock w'
      /\ clock_moves_forward (clock w') es'
      /\ events_of w' = events_of w
      /\ cli w' = cli w.
Proof.
  induction k as [| k IH]; intros es w rest Hmon Hlast Hstart Hle Hclk Hseen.
  - exists es, w. splits; auto.
  - destruct es as [| e es]; [discriminate|].
    cbn in Hseen. injection Hseen as Hobs Hseen.
    destruct Hclk as [Hnow Hclk].
    destruct (tick_stay_idle t e w Hmon Hlast Hobs)
      as (Hmon' & Hlast' & Hstart' & Hclock' & Hcli' & Hev').
    destruct (IH es (monitor_tick e w) rest Hmon' Hlast')
      as (es' & w' & Hrun & Hrest & Hm & Hl & Hs & Ht0 & Hc & Hev & Hcli);
      try assumption.
    { congruence. }
    { rewrite Hclock'. lia. }
    { rewrite Hclock'. exact Hclk. }
    exists es', w'. cbn. splits; try assumption; congruence.
Qed.

(** C9, as the code has it. With sleep/wake detection enabled, the power
    topic configured and a clock that does not go back: along a run whose
    states are awake-like, then idle for one turn or more, then
    awake-like again, starting from an awake-like state, the monitor
    publishes exactly one [sleep_detected] event and then exactly one
    [wake_detected] event, whose [sleep_duration] is not negative. *)
Theorem sleep_then_wake_events (t : string) (w : world) (es : list env_step)
    (pre : list string) (n : nat) (s : string) :
  monitoring t w ->
  awake_like (last_power_state (mon w)) = true ->
  clock_moves_forward (clock w) es ->
  states_seen es w = (pre ++ repeat "idle" (S n) ++ [s])%list ->
  Forall (fun x => awake_like x = true) pre ->
  awake_like s = true ->
  exists sleep_ev wake_ev d,
    events_of (monitor_run es w) =
      (events_of w ++
         [BusPublish (Topic t) (Json (PDict sleep_ev)) (qos (cli w)) false;
          BusPublish (Topic t) (Json (PDict wake_ev)) (qos (cli w)) false])%list
    /\ dict_get "event" sleep_ev = PStr "sleep_detected"
    /\ dict_get "event" wake_ev = PStr "wake_detected"
    /\ dict_get "sleep_duration" wake_ev = PInt d
    /\ 0 <= d.
Proof.
  intros Hmon Hlast Hclk Hseen Hpre Hs.
  destruct (awake_phase t pre es w _ Hmon Hlast Hclk Hseen Hpre)
    as (es1 & w1 & Hrun1 & Hseen1 & Hmon1 & Hlast1 & Hclk1 & Hev1 & Hcli1).
  destruct es1 as [| e1 es1]; [discriminate|].
  cbn in Hseen1. injection Hseen1 as Hobs1 Hseen1.
  destruct Hclk1 as [_ Hclk1].
  destruct (tick_fall_asleep t e1 w1 Hmon1 Hlast1 Hobs1)
    as (Hmon2 & Hlast2 & Hstart2 & Hclock2 & Hcli2 & sleep_ev & Hev2 & Hname2).
  destruct (idle_phase t (at_time e1) n es1 (monitor_tick e1 w1) [s]
              Hmon2 Hlast2 Hstart2)
    as (es3 & w3 & Hrun3 & Hseen3 & Hmon3 & Hlast3 & Hstart3 & Hle3 & Hclk3
        & Hev3 & Hcli3); try assumption.
  { rewrite Hclock2. lia. }
  { rewrite Hclock2. exact Hclk1. }
  destruct es3 as [| e3 es3]; [discriminate|].
  cbn in Hseen3. injection Hseen3 as Hobs3 Hseen3.
  destruct es3 as [| e4 es3]; [| discriminate].
  destruct Hclk3 as [Hnow3 _].
  destruct (tick_wake t e3 w3 (at_time e1) Hmon3 Hlast3 Hstart3)
    as (wake_ev & d & Hev4 & Hname4 & Hdur & Hd).
  { lia. }
  { rewrite Hobs3. exact Hs. }
  exists sleep_ev, wake_ev, d.
  split; [| splits; assumption].
  rewrite Hrun1. cbn [monitor_run]. rewrite Hrun3. cbn [monitor_run].
  rewrite Hev4, Hev3, Hev2, Hev1, Hcli3, Hcli2, Hcli1.
  rewrite <- app_assoc. reflexivity.
Qed.

(** A run of the monitor: active, idle past the threshold of 30 minutes
    for two turns, then user activity. *)
Module Night.

Definition quiet (t : Z) : env_step :=
  {| at_time := t; readings := Demo.psutil0; activity := false;
     audio := fun e => e |}.

Definition user_back (t : Z) : env_step :=
  {| at_time := t; readings := Demo.psutil0; activity := true;
     audio := fun e => e |}.

Definition start : Z := clock Demo.world0.

Definition steps : list env_step :=
  [quiet (start + 5000); quiet (start + 1805000); quiet (start + 1810000);
   user_back (start + 1815000)].

(** The same installation with [detect_sleep_wake] set to [False]. *)
Definition undetecting : world :=
  with_mon
    {| last_power_state := "active";
       last_activity_time := start;
       sleep_start_time := None;
       detect_sleep_wake := false;
       idle_threshold_minutes := 30;
       sleep_detection_method := "activity";
       wmi := false |}
    Demo.world0.

End Night.

Example night_states :
  states_seen Night.steps Demo.world0 = ["active"; "idle"; "idle"; "active"].
Proof. vm_compute. reflexivity. Qed.

Example night_events :
  map event_name (bus_calls (monitor_run Night.steps Demo.world0)) =
    [Some "state_change"; Some "sleep_detected"; Some "state_change";
     Some "wake_detected"; None; None].
Proof. vm_compute. reflexivity. Qed.

Lemma sleep_then_wake_events_witness :
  exists sleep_ev wake_ev d,
    events_of (monitor_run Night.steps Demo.world0) =
      (events_of Demo.world0 ++
         [BusPublish (Topic "homecontrol/pc/power") (Json (PDict sleep_ev))
            (qos (cli Demo.world0)) false;
          BusPublish (Topic "homecontrol/pc/power") (Json (PDict wake_ev))
            (qos (cli Demo.world0)) false])%list
    /\ dict_get "event" sleep_ev = PStr "sleep_detected"
    /\ dict_get "event" wake_ev = PStr "wake_detected"
    /\ dict_get "sleep_duration" wake_ev = PInt d
    /\ 0 <= d.
Proof.
  apply (sleep_then_wake_events "homecontrol/pc/power" Demo.world0 Night.steps
           ["active"] 1 "active").
  - unfold monitoring. split; [reflexivity|].
    split; [vm_compute; reflexivity | split; [discriminate | reflexivity]].
  - reflexivity.
  - vm_compute. repeat split; discriminate.
  - vm_compute. reflexivity.
  - repeat constructor.
  - reflexivity.
Defined.

(** C9 as stated fails: with [detect_sleep_wake] off, the same run
    publishes no event at all. *)
Lemma detection_disabled_publishes_no_event :
  ~ (forall (t : string) (w : world) (es : list env_step) (pre : list string)
       (n : nat) (s : string),
       topics (cli w) !! "pc_power" = Some t -> t <> "" ->
       awake_like (last_power_state (mon w)) = true ->
       clock_moves_forward (clock w) es ->
       states_seen es w = (pre ++ repeat "idle" (S n) ++ [s])%list ->
       Forall (fun x => awake_like x = true) pre ->
       awake_like s = true ->
       exists sleep_ev wake_ev,
         events_of (monitor_run es w) =
           (events_of w ++
              [BusPublish (Topic t) (Json (PDict sleep_ev)) (qos (cli w)) false;
               BusPublish (Topic t) (Json (PDict wake_ev)) (qos (cli w)) false])%list).
Proof.
  intros H.
  destruct (H "homecontrol/pc/power" Night.undetecting Night.steps
              ["active"] 1%nat "active") as (sleep_ev & wake_ev & Hev).
  - vm_compute. reflexivity.
  - discriminate.
  - reflexivity.
  - vm_compute. repeat split; discriminate.
  - vm_compute. reflexivity.
  - repeat constructor.
  - reflexivity.
  - assert (Hnone : events_of (monitor_run Night.steps Night.undetecting) = [])
      by (vm_compute; reflexivity).
    rewrite Hnone in Hev. discriminate.
Qed.

(** ** Further properties of the modules *)

(** *** volume_controller.py: the system volume *)



(** X2. When the device refuses the call, [set_volume] returns [False]
    and leaves the controller as it was: the cached volume and the stamp
    of the rate limiter are not touched, so the same set can be tried
    again at once, and it goes through as soon as the device answers. *)
Theorem set_volume_device_failure (v : Z) (w : world) :
  update_rate_limit (vc w) <= clock w - last_update (vc w) ->
  device_ok (ep w) = false ->
  let w' := exec (set_volume v) w in
  eval (set_volume v) w = Val false
  /\ vc w' = vc w /\ ep w' = ep w
  /\ ep_calls w' =
       (ep_calls w ++ [CallSetMasterVolumeLevelScalar (scalar_of_percent (clamp v 0 100))])%list
  /\ forall e : endpoint,
       device_ok e = true -> eval (set_volume v) (with_ep e w') = Val true.
Proof.
  intros Hrate Hdev w'. subst w'.
  assert (Hlt : (clock w - last_update (vc w) <? update_rate_limit (vc w)) = false)
    by (apply Z.ltb_ge; exact Hrate).
  assert (Hrun : set_volume v w =
                 (Val false,
                  with_log (log w ++ [(ERROR, "Error setting volume")])
                    (with_ep_calls
                       (ep_calls w ++
                          [CallSetMasterVolumeLevelScalar
                             (scalar_of_percent (clamp v 0 100))]) w))).
  { unfold set_volume, Audio.SetMasterVolumeLevelScalar. run.
    rewrite Hlt, Hdev. reflexivity. }
  unfold exec. rewrite set_volume_eval, Hlt, Hdev, Hrun. cbn [snd].
  do 4 (split; [reflexivity|]).
  intros e He. rewrite set_volume_eval. cbn. rewrite Hlt, He. reflexivity.
Qed.

Lemma set_volume_device_failure_witness :
  let w := with_ep (Build_endpoint 0.5 false false []) Demo.world0 in
  let w' := exec (set_volume 70) w in
  eval (set_volume 70) w = Val false
  /\ vc w' = vc w /\ ep w' = ep w
  /\ ep_calls w' =
       (ep_calls w ++ [CallSetMasterVolumeLevelScalar (scalar_of_percent (clamp 70 0 100))])%list
  /\ forall e : endpoint,
       device_ok e = true -> eval (set_volume 70) (with_ep e w') = Val true.
Proof.
  apply (set_volume_device_failure 70
           (with_ep (Build_endpoint 0.5 false false []) Demo.world0)).
  - vm_compute. discriminate.
  - reflexivity.
Defined.

(** X3. When the device does not answer, [get_volume] does not raise: it
    returns the volume the controller has cached, and changes neither the
    controller nor the endpoint. *)
Theorem get_volume_falls_back_on_cache (w : world) :
  device_ok (ep w) = false ->
  eval get_volume w = Val (current_volume (vc w))
  /\ vc (exec get_volume w) = vc w
  /\ ep (exec get_volume w) = ep w.
Proof.
  intros Hdev. unfold get_volume, Audio.GetMasterVolumeLevelScalar. run.
  rewrite Hdev. cbn. auto.
Qed.

Lemma get_volume_falls_back_on_cache_witness :
  let w := with_ep (Build_endpoint 0.25 false false []) Demo.world0 in
  eval get_volume w = Val (current_volume (vc w))
  /\ vc (exec get_volume w) = vc w
  /\ ep (exec get_volume w) = ep w.
Proof.
  apply (get_volume_falls_back_on_cache
           (with_ep (Build_endpoint 0.25 false false []) Demo.world0)).
  reflexivity.
Defined.

(** X4. Mute and unmute are read back by [is_muted], and neither touches
    the volume: after [mute] the endpoint reports muted, after [unmute]
    it reports not muted, whatever the mute state was before. *)
Theorem mute_is_read_back (w : world) :
  device_ok (ep w) = true ->
  eval mute w = Val true
  /\ eval is_muted (exec mute w) = Val true
  /\ eval unmute w = Val true
  /\ eval is_muted (exec unmute w) = Val false
  /\ master_scalar (ep (exec mute w)) = master_scalar (ep w)
  /\ master_scalar (ep (exec unmute w)) = master_scalar (ep w)
  /\ eval is_muted (exec unmute (exec mute w)) = Val false.
Proof.
  intros Hdev. unfold mute, unmute, is_muted, Audio.SetMute, Audio.GetMute. run.
  rewrite Hdev. cbn. rewrite Hdev. cbn. rewrite ?Hdev. cbn. rewrite ?Hdev.
  repeat split; reflexivity.
Qed.

Lemma mute_is_read_back_witness :
  eval mute Demo.world0 = Val true
  /\ eval is_muted (exec mute Demo.world0) = Val true
  /\ eval unmute Demo.world0 = Val true
  /\ eval is_muted (exec unmute Demo.world0) = Val false
  /\ master_scalar (ep (exec mute Demo.world0)) = master_scalar (ep Demo.world0)
  /\ master_scalar (ep (exec unmute Demo.world0)) = master_scalar (ep Demo.world0)
  /\ eval is_muted (exec unmute (exec mute Demo.world0)) = Val false.
Proof. apply (mute_is_read_back Demo.world0). reflexivity. Defined.

(** *** The sync loop, turn by turn *)

(** X5. A sync that comes less than [sync_interval] after the last one
    does nothing at all: it returns [None] without reading the endpoint,
    and the world is unchanged. *)
Theorem sync_within_interval_is_skipped (w : world) :
  clock w - last_sync (vc w) < sync_interval (vc w) ->
  sync_volume_from_system w = (Val None, w).
Proof.
  intros Hnear. unfold sync_volume_from_system. run.
  destruct (Z.ltb_spec (clock w - last_sync (vc w)) (sync_interval (vc w)));
    [reflexivity | lia].
Qed.

Lemma sync_within_interval_is_skipped_witness :
  let w := with_vc (with_last_sync (clock Demo.world0 - 500) (vc Demo.world0))
             Demo.world0 in
  sync_volume_from_system w = (Val None, w).
Proof.
  apply (sync_within_interval_is_skipped
           (with_vc (with_last_sync (clock Demo.world0 - 500) (vc Demo.world0))
              Demo.world0)).
  vm_compute. reflexivity.
Defined.

(** X6. While the client is not connected, a turn of the sync loop does
    nothing: no read of the endpoint, no refresh, no publish. *)
Theorem sync_turn_disconnected_is_idle (w : world) :
  connected (cli w) = false ->
  sync_loop_turn w = (Val tt, w).
Proof.
  intros Hoff. unfold sync_loop_turn. run. rewrite Hoff. reflexivity.
Qed.

Lemma sync_turn_disconnected_is_idle_witness :
  let w := with_cli (with_connected false (cli Demo.world0)) Demo.world0 in
  sync_loop_turn w = (Val tt, w).
Proof.
  apply (sync_turn_disconnected_is_idle
           (with_cli (with_connected false (cli Demo.world0)) Demo.world0)).
  reflexivity.
Defined.

(** What a turn of the loop leaves alone in the controller and the
    endpoint, once the sync itself is done. *)
Definition synced_view (w : world) : endpoint * Z * Z :=
  (ep w, current_volume (vc w), last_sync (vc w)).

Lemma keeps_synced_refresh_applications : keeps synced_view refresh_applications.
Proof.
  assert (Hscan : forall (l : list session) (h : nat),
             keeps synced_view (scan_sessions h l)).
  { induction l as [| s l IH]; intros h; cbn [scan_sessions].
    - apply keeps_ret.
    - apply keeps_bind; [| intros _; apply IH].
      unfold scan_session, Audio.GetMasterVolume, Audio.called, py_int, logger,
        modify_vc. frame. }
  unfold refresh_applications, _scan_applications, Audio.GetAllSessions,
    Audio.called, logger, modify_vc.
  apply keeps_try_except; [| frame].
  apply keeps_bind; [frame |]. intros all.
  apply keeps_bind; [frame |]. intros _.
  apply keeps_bind; [apply Hscan | frame].
Qed.

Lemma keeps_synced_publish_volume_change (v : Z) :
  keeps synced_view (publish_volume_change v).
Proof.
  intros w. destruct (publish_volume_change_run v w) as [l Hrun].
  unfold exec. rewrite Hrun. reflexivity.
Qed.

(** X7. After a turn of the loop that did sync (connected, and the
    interval has passed), the cached volume is within one point of what
    the endpoint reads, and the sync is stamped with the time of the
    turn: the loop does not publish again until the endpoint moves by
    more than one point. *)
Theorem sync_turn_tracks_endpoint (w : world) :
  connected (cli w) = true ->
  sync_interval (vc w) <= clock w - last_sync (vc w) ->
  let w' := exec sync_loop_turn w in
  Z.abs (volume_read w' - current_volume (vc w')) <= 1
  /\ last_sync (vc w') = clock w
  /\ ep w' = ep w.
Proof.
  intros Hconn Hgate w'. subst w'.
  assert (Hsync : exists (r : option Z) (w1 : world),
             sync_volume_from_system w = (Val r, w1)
             /\ ep w1 = ep w /\ last_sync (vc w1) = clock w
             /\ Z.abs (volume_read w - current_volume (vc w1)) <= 1).
  { unfold sync_volume_from_system. run.
    destruct (Z.ltb_spec (clock w - last_sync (vc w)) (sync_interval (vc w)));
      [lia|].
    destruct (get_volume_run w) as [l Hget]. rewrite Hget. cbn.
    destruct (Z.ltb_spec 1 (Z.abs (volume_read w - current_volume (vc w)))); cbn.
    - eexists _, _. split; [reflexivity|]. cbn.
      rewrite Z.sub_diag. repeat split; reflexivity || lia.
    - eexists _, _. split; [reflexivity|]. cbn. repeat split; assumption. }
  destruct Hsync as (r & w1 & Hrun & Hep & Hstamp & Hnear).
  assert (Hread : forall w2 : world,
             synced_view w2 = synced_view w1 ->
             Z.abs (volume_read w2 - current_volume (vc w2)) <= 1
             /\ last_sync (vc w2) = clock w /\ ep w2 = ep w).
  { intros w2 Hview. unfold synced_view in Hview.
    injection Hview as Hep2 Hcur2 Hsync2.
    unfold volume_read in *. rewrite Hep2, Hcur2, Hsync2, Hep.
    split; [| split; [assumption | reflexivity]].
    destruct (device_ok (ep w)); [| rewrite Z.sub_diag; cbn; lia].
    destruct (percent_of_scalar (master_scalar (ep w)));
      [exact Hnear | rewrite Z.sub_diag; cbn; lia]. }
  apply Hread.
  unfold sync_loop_turn, exec. run. rewrite Hconn, Hrun. cbn.
  assert (Htail : forall w2 : world,
             synced_view
               (snd (let (r0, w'0) :=
                       (if (clock w2 / 1000) mod 30 =? 0
                        then refresh_applications
                        else fun w0 : world => (Val tt, w0)) w2 in
                     match r0 with
                     | Val a => (Val a, w'0)
                     | Raise _ =>
                         (Val tt,
                          with_log
                            (log w'0 ++ [(ERROR, "Error in volume sync loop")]) w'0)
                     end)) = synced_view w2).
  { intros w2. destruct ((clock w2 / 1000) mod 30 =? 0); [| reflexivity].
    pose proof (keeps_synced_refresh_applications w2) as K. unfold exec in K.
    destruct (refresh_applications w2) as [[a | e] w3]; cbn in K |- *; exact K. }
  destruct r as [v|].
  - destruct (publish_volume_change_run v w1) as [l Hpub]. rewrite Hpub. cbn.
    match goal with
    | |- synced_view (snd (let (_, _) := _ ?w2 in _)) = _ =>
        change (clock w1) with (clock w2); rewrite (Htail w2)
    end.
    reflexivity.
  - cbn. apply Htail.
Qed.

Lemma sync_turn_tracks_endpoint_witness :
  let w := Trace.outside_change 0.25 (Trace.start + 3000) Demo.world0 in
  let w' := exec sync_loop_turn w in
  Z.abs (volume_read w' - current_volume (vc w')) <= 1
  /\ last_sync (vc w') = clock w
  /\ ep w' = ep w.
Proof.
  apply (sync_turn_tracks_endpoint
           (Trace.outside_change 0.25 (Trace.start + 3000) Demo.world0)).
  - reflexivity.
  - vm_compute. discriminate.
Defined.

(** *** mqtt_client.py: the commands *)

(** The keywords [handle_command] knows. *)
Definition known_commands : list string :=
  ["MUTE"; "UNMUTE"; "STATUS"; "GETVOLUME"; "REFRESH_APPS"; "GET_APP_VOLUMES";
   "GET_SYSTEM_INFO"; "SLEEP"].

(** X8. A command of ASCII characters that is none of the eight keywords,
    in any case, is dropped: the world is unchanged but for one warning in
    the log. *)
Theorem unknown_command_dropped (command : string) (w : world) :
  is_ascii command = true ->
  ~ In (upper command) known_commands ->
  handle_command command w =
    (Val tt, with_log (log w ++ [(WARNING, "Unknown command")]) w).
Proof.
  intros _ Hunknown. unfold handle_command.
  assert (Hne : forall k, In k known_commands -> String.eqb (upper command) k = false).
  { intros k Hk. apply String.eqb_neq. intros Heq. apply Hunknown.
    rewrite Heq. exact Hk. }
  rewrite !Hne by (cbn; tauto). reflexivity.
Qed.

Lemma unknown_command_dropped_witness :
  handle_command "reboot" Demo.world0 =
    (Val tt, with_log (log Demo.world0 ++ [(WARNING, "Unknown command")]) Demo.world0).
Proof.
  apply (unknown_command_dropped "reboot" Demo.world0); [reflexivity |].
  vm_compute. intros H. repeat (destruct H as [H | H]; [discriminate|]). exact H.
Defined.

Lemma upper_char_idempotent (c : ascii) : upper_char (upper_char c) = upper_char c.
Proof.
  destruct c as [[] [] [] [] [] [] [] []]; reflexivity.
Qed.

Lemma upper_idempotent (s : string) : upper (upper s) = upper s.
Proof.
  induction s as [| c s IH]; cbn; [reflexivity|].
  rewrite upper_char_idempotent, IH. reflexivity.
Qed.

(** X9. Commands are read without regard to case: a command and its
    upper-case form do the same thing in every world. *)
Theorem handle_command_ignores_case (command : string) (w : world) :
  handle_command command w = handle_command (upper command) w.
Proof. unfold handle_command. rewrite upper_idempotent. reflexivity. Qed.

(** What [is_muted] returns: the mute flag, and [False] when the device
    does not answer. *)
Definition muted_read (w : world) : bool :=
  if device_ok (ep w) then mute_flag (ep w) else false.

(** What [publish_status] hands to the MQTT client. *)
Definition status_calls (status : string) (w : world) : list bus_call :=
  match topics (cli w) !! "status" with
  | Some t =>
      if String.eqb t "" || has_wildcard t then []
      else
        [BusPublish (Topic t)
           (Json (PDict [("status", PStr status);
                         ("volume", PInt (volume_read w));
                         ("muted", PBool (muted_read w));
                         ("client_id", PStr (client_id (cli w)));
                         ("timestamp", PInt (clock w))]))
           (qos (cli w)) (retain (cli w))]
  | None => []
  end.

Lemma publish_status_run (status : string) (w : world) :
  exists l,
    publish_status status w =
      (Val tt,
       with_log (log w ++ l)
         (with_bus_calls (bus_calls w ++ status_calls status w)
            (with_ep_calls
               (ep_calls w ++ [CallGetMasterVolumeLevelScalar; CallGetMute]) w))).
Proof.
  unfold publish_status. run.
  destruct (get_volume_run w) as [l1 Hget]. rewrite Hget.
  unfold is_muted, Audio.GetMute, topics_get, topic_truthy, status_calls,
    muted_read. run.
  rewrite <- !app_assoc. cbn [app].
  destruct (device_ok (ep w)); run;
    (destruct (topics (cli w) !! "status") as [t|]; cbn [option_map negb];
     [destruct (String.eqb t "") eqn:Hempty; cbn [negb orb];
      [| rewrite client_publish_topic, Hempty; cbn [orb];
         destruct (has_wildcard t)] |]);
    cbn; rewrite ?app_nil_r, <- ?app_assoc; eexists; reflexivity.
Qed.

(** X10. STATUS, with the status topic configured: one retained message
    on that topic, with the volume and the mute state just read from the
    endpoint; nothing when the name of the topic has a wildcard, which the
    MQTT client refuses. *)
Theorem status_command_publishes_state (command t : string) (w : world) :
  upper command = "STATUS" ->
  topics (cli w) !! "status" = Some t -> t <> "" ->
  bus_calls (exec (handle_command command) w) =
    (bus_calls w ++
       (if has_wildcard t then []
        else
          [BusPublish (Topic t)
             (Json (PDict [("status", PStr "online");
                           ("volume", PInt (volume_read w));
                           ("muted", PBool (muted_read w));
                           ("client_id", PStr (client_id (cli w)));
                           ("timestamp", PInt (clock w))]))
             (qos (cli w)) (retain (cli w))]))%list.
Proof.
  intros Hcmd Ht Hne. unfold handle_command, exec. rewrite Hcmd.
  change (String.eqb "STATUS" "MUTE") with false.
  change (String.eqb "STATUS" "UNMUTE") with false.
  change (String.eqb "STATUS" "STATUS") with true. cbv iota.
  unfold try_except.
  destruct (publish_status_run "online" w) as [l Hrun]. rewrite Hrun. cbn.
  unfold status_calls. rewrite Ht.
  destruct (String.eqb_spec t ""); [contradiction | reflexivity].
Qed.

Lemma status_command_publishes_state_witness :
  bus_calls (exec (handle_command "status") Demo.world0) =
    (bus_calls Demo.world0 ++
       (if has_wildcard "homecontrol/pc/status" then []
        else
          [BusPublish (Topic "homecontrol/pc/status")
             (Json (PDict [("status", PStr "online");
                           ("volume", PInt (volume_read Demo.world0));
                           ("muted", PBool (muted_read Demo.world0));
                           ("client_id", PStr (client_id (cli Demo.world0)));
                           ("timestamp", PInt (clock Demo.world0))]))
             (qos (cli Demo.world0)) (retain (cli Demo.world0))]))%list.
Proof.
  apply (status_command_publishes_state "status" "homecontrol/pc/status" Demo.world0).
  - reflexivity.
  - vm_compute. reflexivity.
  - discriminate.
Defined.

(** X11. GETVOLUME, with the volume topic configured: the volume read
    from the device goes out as text, not retained, on the [volume] topic,
    the one [on_connect] subscribes to for the volume messages (nothing
    goes out when the name of the topic has a wildcard); the endpoint and
    the controller are left as they are. *)
Theorem getvolume_publishes_on_volume_topic (command t : string) (w : world) :
  upper command = "GETVOLUME" ->
  topics (cli w) !! "volume" = Some t -> t <> "" ->
  let w' := exec (handle_command command) w in
  bus_calls w' =
    (bus_calls w ++
       (if has_wildcard t then []
        else [BusPublish (Topic t) (StrOfInt (volume_read w)) (qos (cli w))
                false]))%list
  /\ ep w' = ep w /\ vc w' = vc w.
Proof.
  intros Hcmd Ht Hne w'. subst w'. unfold handle_command, exec. rewrite Hcmd.
  change (String.eqb "GETVOLUME" "MUTE") with false.
  change (String.eqb "GETVOLUME" "UNMUTE") with false.
  change (String.eqb "GETVOLUME" "STATUS") with false.
  change (String.eqb "GETVOLUME" "GETVOLUME") with true. cbv iota.
  destruct (get_volume_run w) as [l Hrun].
  unfold topics_get. run. rewrite Hrun. cbn [fst snd cli with_log with_ep_calls].
  rewrite Ht. cbn [option_map]. rewrite client_publish_topic.
  destruct (String.eqb_spec t ""); [contradiction|]. cbn [orb].
  destruct (has_wildcard t); cbn; rewrite ?app_nil_r; auto.
Qed.

Lemma getvolume_publishes_on_volume_topic_witness :
  let w' := exec (handle_command "getvolume") Demo.world0 in
  bus_calls w' =
    (bus_calls Demo.world0 ++
       (if has_wildcard "homecontrol/volume" then []
        else [BusPublish (Topic "homecontrol/volume")
                (StrOfInt (volume_read Demo.world0)) (qos (cli Demo.world0))
                false]))%list
  /\ ep w' = ep Demo.world0 /\ vc w' = vc Demo.world0.
Proof.
  apply (getvolume_publishes_on_volume_topic "getvolume" "homecontrol/volume"
           Demo.world0).
  - reflexivity.
  - vm_compute. reflexivity.
  - discriminate.
Defined.

(** *** mqtt_client.py: connecting and stopping *)

(** What [on_connect] hands to the client for one topic of its list. *)
Definition subscription (q : Z) (t : option string) : list bus_call :=
  match t with
  | Some s => if String.eqb s "" then [] else [BusSubscribe s q]
  | None => []
  end.

Definition subscriptions (c : client) : list bus_call :=
  flat_map (subscription (qos c))
    [topics c !! "volume"; topics c !! "command"; topics c !! "app_volume"].

Lemma subscribe_all_run (l : list (option string)) (q : Z) (w : world) :
  exists lg,
    subscribe_all l q w =
      (Val tt,
       with_log (log w ++ lg)
         (with_bus_calls (bus_calls w ++ flat_map (subscription q) l) w)).
Proof.
  revert w. induction l as [| t l IH]; intros w; cbn [subscribe_all flat_map].
  - exists []. run. rewrite !app_nil_r. destruct w; reflexivity.
  - unfold bind at 1.
    assert (Hhead : exists lg,
      (if topic_truthy t
       then client_subscribe (default "" t) q ;; logger INFO "Subscribed"
       else ret tt) w =
      (Val tt, with_log (log w ++ lg)
                 (with_bus_calls (bus_calls w ++ subscription q t) w))).
    { destruct t as [s|]; cbn [topic_truthy subscription].
      - destruct (String.eqb s ""); cbn [negb].
        + exists []. run. rewrite !app_nil_r. destruct w; reflexivity.
        + eexists. unfold client_subscribe. run. cbn. reflexivity.
      - exists []. run. rewrite !app_nil_r. destruct w; reflexivity. }
    destruct Hhead as [lg1 ->].
    destruct (IH (with_log (log w ++ lg1)
                    (with_bus_calls (bus_calls w ++ subscription q t) w)))
      as [lg2 ->].
    exists (lg1 ++ lg2)%list. cbn. rewrite <- !app_assoc. reflexivity.
Qed.

(** X12. An accepted connection ([rc = 0]): the client subscribes to the
    configured ones of the [volume], [command] and [app_volume] topics, in
    that order, then publishes the [online] status, and is marked
    connected with its sync thread alive; the endpoint and the controller
    are not changed. *)
Theorem on_connect_subscribes_then_reports (w : world) :
  let w' := exec (on_connect 0) w in
  bus_calls w' =
    (bus_calls w ++ subscriptions (cli w) ++ status_calls "online" w)%list
  /\ connected (cli w') = true /\ sync_thread_alive (cli w') = true
  /\ ep w' = ep w /\ vc w' = vc w.
Proof.
  intros w'. subst w'. unfold exec.
  remember (on_connect 0 w) as r eqn:Hr.
  unfold on_connect in Hr. cbn [Z.eqb] in Hr.
  unfold bind at 1 in Hr. unfold modify_cli at 1, modify at 1 in Hr.
  unfold bind at 1 in Hr. unfold logger at 1, modify at 1 in Hr.
  unfold bind at 1 in Hr. unfold gets at 1 in Hr.
  cbn [cli with_cli with_log topics with_connected qos] in Hr.
  unfold bind at 1 in Hr.
  match type of Hr with
  | context [subscribe_all ?l ?q ?w0] =>
      destruct (subscribe_all_run l q w0) as [lg1 Hsub]
  end.
  rewrite Hsub in Hr. unfold bind at 1 in Hr.
  match type of Hr with
  | context [publish_status "online" ?w0] =>
      destruct (publish_status_run "online" w0) as [lg2 Hpub]
  end.
  rewrite Hpub in Hr. clear Hsub Hpub.
  unfold subscriptions, status_calls, volume_read, muted_read in *. run.
  cbn in Hr. subst r.
  destruct (sync_thread_alive (cli w)) eqn:Halive; cbn; rewrite <- ?app_assoc;
    repeat split; try reflexivity; exact Halive.
Qed.

(** X13. [stop] clears [running]; a connected client first publishes the
    [offline] status and then disconnects, a client that is not connected
    hands nothing to the MQTT client. The endpoint and the controller are
    not changed, and [connected] is left for [on_disconnect] to clear. *)
Theorem stop_reports_offline_then_disconnects (w : world) :
  let w' := exec stop w in
  bus_calls w' =
    (bus_calls w ++
       (if connected (cli w)
        then status_calls "offline" w ++ [BusDisconnect]
        else []))%list
  /\ running (cli w') = false
  /\ connected (cli w') = connected (cli w)
  /\ ep w' = ep w /\ vc w' = vc w.
Proof.
  intros w'. subst w'. unfold exec.
  remember (stop w) as r eqn:Hr.
  unfold stop, try_except in Hr.
  unfold bind at 1 in Hr. unfold modify_cli at 1, modify at 1 in Hr.
  unfold bind at 1 in Hr. unfold gets at 1 in Hr.
  cbn [cli with_cli connected with_running] in Hr.
  destruct (connected (cli w)) eqn:Hconn.
  - unfold bind at 1 in Hr. unfold bind at 1 in Hr.
    match type of Hr with
    | context [publish_status "offline" ?w0] =>
        destruct (publish_status_run "offline" w0) as [lg Hpub]
    end.
    rewrite Hpub in Hr. clear Hpub.
    unfold client_disconnect, status_calls, volume_read, muted_read in *. run.
    cbn in Hr. subst r. cbn. rewrite <- ?app_assoc. auto.
  - run. cbn in Hr. subst r. cbn. rewrite app_nil_r. auto.
Qed.

(** The two log lines of a turn of the reconnect loop with a broker that
    is not configured. *)
Definition unconfigured_turn_log : list (level * string) :=
  [(INFO, "Attempting to reconnect..."); (ERROR, "MQTT broker not configured")].

Lemma reconnect_turn_unconfigured (w : world) :
  broker_not_configured (broker (cli w)) = true ->
  reconnect_turn w = (Val false, with_log (log w ++ unconfigured_turn_log) w).
Proof.
  intros Hb. unfold reconnect_turn, connect. run. rewrite Hb. cbn.
  rewrite <- app_assoc. reflexivity.
Qed.

(** X14. With a broker that is not configured (no address, or the
    placeholder of the default configuration), the reconnect loop of a
    running, unconnected client never hands anything to the MQTT client
    and never ends by itself: it takes every turn it is given, and each
    turn only writes its two log lines. *)
Theorem reconnect_loop_unconfigured_spins (sleeps : list (world -> world))
    (w : world) :
  broker_not_configured (broker (cli w)) = true ->
  running (cli w) = true -> connected (cli w) = false ->
  Forall (fun sleep => forall w0,
            cli (sleep w0) = cli w0 /\ bus_calls (sleep w0) = bus_calls w0
            /\ log (sleep w0) = log w0) sleeps ->
  let w' := _reconnect_loop sleeps w in
  bus_calls w' = bus_calls w /\ cli w' = cli w
  /\ log w' =
       (log w ++ concat (repeat unconfigured_turn_log (length sleeps)))%list.
Proof.
  intros Hb Hrun Hconn Hsleeps. cbn zeta. revert w Hb Hrun Hconn.
  induction Hsleeps as [| sleep sleeps Hsleep _ IH]; intros w Hb Hrun Hconn.
  - cbn. rewrite Hrun, Hconn. cbn. rewrite app_nil_r. auto.
  - cbn [_reconnect_loop length repeat concat]. rewrite Hrun, Hconn. cbn [negb andb].
    rewrite (reconnect_turn_unconfigured w Hb).
    set (w1 := with_log (log w ++ unconfigured_turn_log) w).
    destruct (Hsleep w1) as (Hcli & Hbus & Hlog).
    assert (Hcli1 : cli (sleep w1) = cli w) by (rewrite Hcli; reflexivity).
    destruct (IH (sleep w1)) as (Hbus' & Hcli' & Hlog');
      [rewrite Hcli1; assumption .. |].
    rewrite Hbus', Hcli', Hlog', Hbus, Hlog, Hcli1. subst w1. cbn.
    rewrite <- !app_assoc. auto.
Qed.

(** A client still on the placeholder address of the default
    configuration, started but not connected. *)
Definition unconfigured_world : world :=
  with_cli (Build_client false true false true Demo.MQTT_TOPICS
              (Some "192.168.1.xxx") 1883 60 1 true "PCVolumeControl")
    Demo.world0.

Lemma reconnect_loop_unconfigured_spins_witness :
  let w := unconfigured_world in
  let w' := _reconnect_loop [with_clock 5000; with_clock 10000] w in
  bus_calls w' = bus_calls w /\ cli w' = cli w
  /\ log w' = (log w ++ concat (repeat unconfigured_turn_log 2))%list.
Proof.
  apply (reconnect_loop_unconfigured_spins [with_clock 5000; with_clock 10000]
           unconfigured_world).
  - vm_compute. reflexivity.
  - reflexivity.
  - reflexivity.
  - repeat constructor.
Defined.

(** *** volume_controller.py: the table of the applications *)

(** X15. A per-app command for a monitored application whose [volume] is
    not a number (a string, a list, an object) is dropped: the comparison
    of [set_app_volume] raises, the endpoint is not called, no
    confirmation is published, and the world only gets two log lines. *)
Theorem app_volume_not_a_number_dropped (d : list (string * pyval))
    (a : string) (e : app_entry) (w : world) :
  dict_get "app" d = PStr a -> a <> "" ->
  app_volumes (vc w) !! a = Some e ->
  dict_get "volume" d <> PNone ->
  clamp_0_100 (dict_get "volume" d) = None ->
  handle_app_volume_command (Some (PDict d)) w =
    (Val tt,
     with_log (log w ++ [(ERROR, "Error setting volume for app");
                         (WARNING, "Failed to set volume for app")]) w).
Proof.
  intros Happ Hne He Hvol Hclamp.
  unfold handle_app_volume_command, data_get, set_app_volume, lookup_app. run.
  rewrite Happ. cbn [truthy].
  destruct (String.eqb_spec a "") as [-> | _]; [contradiction|]. cbn [negb andb].
  assert (is_not_None (dict_get "volume" d) = true) as ->.
  { destruct (dict_get "volume" d); try reflexivity. contradiction. }
  rewrite He. cbn. rewrite Hclamp. cbn. rewrite <- app_assoc. reflexivity.
Qed.

Lemma app_volume_not_a_number_dropped_witness :
  handle_app_volume_command
    (Some (PDict [("app", PStr "chrome.exe"); ("volume", PStr "50")])) Demo.world0 =
    (Val tt,
     with_log (log Demo.world0 ++ [(ERROR, "Error setting volume for app");
                                   (WARNING, "Failed to set volume for app")])
       Demo.world0).
Proof.
  apply (app_volume_not_a_number_dropped
           [("app", PStr "chrome.exe"); ("volume", PStr "50")] "chrome.exe"
           {| control := 0%nat; volume := PInt 25 |} Demo.world0).
  - reflexivity.
  - discriminate.
  - vm_compute. reflexivity.
  - discriminate.
  - reflexivity.
Defined.

(** The volume [_scan_applications] reads on a session: none when the
    session does not answer or its level is not a finite number. *)
Definition readable (s : session) : option Z :=
  if sess_ok s then percent_of_scalar (sess_scalar s) else None.

(** The name under which a session enters the table: the name of its
    process, when there is one, it is not empty and it is monitored. *)
Definition monitored_name (apps : list string) (s : session) : option string :=
  match proc_name s with
  | Some a =>
      if negb (String.eqb a "") && existsb (String.eqb a) apps then Some a
      else None
  | None => None
  end.

(** A session that stops the scan: monitored, and not readable. *)
Definition blocks_scan (apps : list string) (s : session) : Prop :=
  monitored_name apps s <> None /\ readable s = None.

(** An entry of the table is accurate: its handle is a session of the
    endpoint, of a monitored process of that name, and its volume is the
    one read on that session. *)
Definition entry_of (ss : list session) (apps : list string) (a : string)
    (e : app_entry) : Prop :=
  exists s v,
    ss !! control e = Some s /\ monitored_name apps s = Some a
    /\ readable s = Some v /\ volume e = PInt v.

(** The table after the sessions below [h] were scanned: every entry is
    accurate and comes from a session below [h], and every monitored
    session below [h] has its name in the table, with the handle of that
    session or of a later one. *)
Definition scanned_in (ss : list session) (apps : list string) (h : nat)
    (t : gmap string app_entry) : Prop :=
  (forall a e, t !! a = Some e -> (control e < h)%nat /\ entry_of ss apps a e)
  /\ (forall i s a,
        (i < h)%nat -> ss !! i = Some s -> monitored_name apps s = Some a ->
        exists e, t !! a = Some e /\ (i <= control e)%nat).

Definition scanned (h : nat) (w : world) : Prop :=
  scanned_in (sessions (ep w)) (monitored_apps (vc w)) h (app_volumes (vc w)).

(** What the body of the loop does on the session of index [h]. *)
Lemma scan_session_run (h : nat) (s : session) (w : world) :
  sessions (ep w) !! h = Some s ->
  scan_session h s w =
    match monitored_name (monitored_apps (vc w)) s with
    | None => (Val tt, w)
    | Some a =>
        let w1 := with_ep_calls (ep_calls w ++ [CallGetMasterVolume h]) w in
        match readable s with
        | Some v =>
            (Val tt,
             with_log (log w ++ [(DEBUG, "Found audio app")])
               (with_vc
                  (with_app_volumes
                     (<[a := {| control := h; volume := PInt v |}]>
                        (app_volumes (vc w))) (vc w)) w1))
        | None => (Raise (if sess_ok s then ValueError else COMError), w1)
        end
    end.
Proof.
  intros Hs. unfold scan_session, monitored_name, readable.
  destruct (proc_name s) as [a|]; [| reflexivity].
  destruct (String.eqb a ""); cbn [negb andb]; [reflexivity|].
  run. destruct (existsb (String.eqb a) (monitored_apps (vc w))); [| reflexivity].
  unfold Audio.GetMasterVolume, py_int, percent_of_scalar. run. rewrite Hs.
  destruct (sess_ok s); cbn; [| reflexivity].
  destruct (int_of_float (to_c_float (sess_scalar s) * 100)); reflexivity.
Qed.

Lemma scanned_in_skip (ss : list session) (apps : list string) (h : nat)
    (t : gmap string app_entry) (s : session) :
  ss !! h = Some s -> monitored_name apps s = None ->
  scanned_in ss apps h t -> scanned_in ss apps (S h) t.
Proof.
  intros Hs Hnone [Hsound Hcomplete]. split.
  - intros a e He. destruct (Hsound a e He) as [Hlt Hentry]. split; [lia | exact Hentry].
  - intros i s' a Hi Hs' Hname.
    destruct (Nat.eq_dec i h) as [-> | Hne].
    + rewrite Hs in Hs'. injection Hs' as <-. rewrite Hnone in Hname. discriminate.
    + apply (Hcomplete i s' a); [lia | assumption ..].
Qed.

Lemma scanned_in_insert (ss : list session) (apps : list string) (h : nat)
    (t : gmap string app_entry) (s : session) (a : string) (v : Z) :
  ss !! h = Some s -> monitored_name apps s = Some a -> readable s = Some v ->
  scanned_in ss apps h t ->
  scanned_in ss apps (S h) (<[a := {| control := h; volume := PInt v |}]> t).
Proof.
  intros Hs Hname Hread [Hsound Hcomplete]. split.
  - intros a' e He. destruct (decide (a' = a)) as [-> | Hne].
    + rewrite lookup_insert_eq in He. injection He as <-. cbn. split; [lia|].
      exists s, v. cbn. auto.
    + rewrite lookup_insert_ne in He by congruence.
      destruct (Hsound a' e He) as [Hlt Hentry]. split; [lia | exact Hentry].
  - intros i s' a' Hi Hs' Hname'. destruct (decide (a' = a)) as [-> | Hne].
    + eexists. rewrite lookup_insert_eq. split; [reflexivity|]. cbn. lia.
    + rewrite lookup_insert_ne by congruence.
      apply (Hcomplete i s' a'); [| assumption ..].
      destruct (Nat.eq_dec i h) as [-> | Hih]; [| lia].
      rewrite Hs in Hs'. injection Hs' as <-. congruence.
Qed.

(** The loop over the sessions from index [h] on: it stops at some index
    [n], the table is the one of the sessions below [n], and [n] is the
    first session that blocks the scan, or the end of the list. Neither
    the endpoint nor the list of monitored names changes. *)
Lemma scan_sessions_scanned (l : list session) :
  forall (h : nat) (w : world),
    (forall i s, l !! i = Some s -> sessions (ep w) !! (h + i)%nat = Some s) ->
    scanned h w ->
    let w' := snd (scan_sessions h l w) in
    ep w' = ep w /\ monitored_apps (vc w') = monitored_apps (vc w)
    /\ exists n,
         scanned n w' /\ (h <= n <= h + length l)%nat
         /\ (forall j s, (h <= j < n)%nat -> sessions (ep w) !! j = Some s ->
                         ~ blocks_scan (monitored_apps (vc w)) s)
         /\ ((n < h + length l)%nat ->
             exists s, sessions (ep w) !! n = Some s
                       /\ blocks_scan (monitored_apps (vc w)) s).
Proof.
  induction l as [| s l IH]; intros h w Hl Hsc; cbn [length].
  - cbn [scan_sessions]. run. split; [reflexivity|]. split; [reflexivity|].
    exists h. split; [exact Hsc|]. split; [lia|]. split; intros; lia.
  - assert (Hs : sessions (ep w) !! h = Some s).
    { specialize (Hl 0%nat s eq_refl). rewrite Nat.add_0_r in Hl. exact Hl. }
    assert (Hrun : scan_sessions h (s :: l) w =
                   bind (scan_session h s) (fun _ => scan_sessions (S h) l) w)
      by reflexivity.
    rewrite Hrun. clear Hrun. unfold bind. rewrite (scan_session_run h s w Hs).
    destruct (monitored_name (monitored_apps (vc w)) s) as [a|] eqn:Hname.
    + cbv zeta. destruct (readable s) as [v|] eqn:Hread.
      * match goal with
        | |- context [scan_sessions (S h) l ?w1] =>
            destruct (IH (S h) w1) as (Hep & Happs & n & Hn & Hrange & Hfree & Hblock)
        end.
        { intros i s' Hi. cbn. rewrite <- Nat.add_succ_r. apply Hl. exact Hi. }
        { unfold scanned. cbn.
          apply (scanned_in_insert _ _ h _ s a v); assumption. }
        cbn in Hep, Happs, Hfree, Hblock.
        split; [exact Hep|]. split; [exact Happs|].
        exists n. split; [exact Hn|]. split; [lia|]. split.
        -- intros j s' Hj Hs'. destruct (Nat.eq_dec j h) as [-> | Hjh].
           ++ rewrite Hs in Hs'. injection Hs' as <-.
              intros [_ Hnone]. rewrite Hread in Hnone. discriminate.
           ++ apply (Hfree j s'); [lia | exact Hs'].
        -- intros Hlt. apply Hblock. lia.
      * cbn. split; [reflexivity|]. split; [reflexivity|].
        exists h. split; [exact Hsc|]. split; [lia|]. split; [intros; lia|].
        intros _. exists s. split; [exact Hs|]. split; [congruence | exact Hread].
    + destruct (IH (S h) w) as (Hep & Happs & n & Hn & Hrange & Hfree & Hblock).
      { intros i s' Hi. rewrite Nat.add_succ_l, <- Nat.add_succ_r.
        apply Hl. exact Hi. }
      { apply (scanned_in_skip _ _ h _ s); assumption. }
      split; [exact Hep|]. split; [exact Happs|].
      exists n. split; [exact Hn|]. split; [lia|]. split.
      * intros j s' Hj Hs'. destruct (Nat.eq_dec j h) as [-> | Hjh].
        -- rewrite Hs in Hs'. injection Hs' as <-.
           intros [Hsome _]. contradiction.
        -- apply (Hfree j s'); [lia | exact Hs'].
      * intros Hlt. apply Hblock. lia.
Qed.

Lemma monitored_name_spec (apps : list string) (s : session) (a : string) :
  monitored_name apps s = Some a <->
  proc_name s = Some a /\ a <> "" /\ In a apps.
Proof.
  unfold monitored_name. destruct (proc_name s) as [b|]; [| split; [discriminate | intros [H _]; discriminate]].
  destruct (String.eqb_spec b "") as [-> | Hne]; cbn [negb andb].
  - split; [discriminate | intros (H & Hne & _); congruence].
  - destruct (existsb (String.eqb b) apps) eqn:Hex.
    + apply existsb_exists in Hex as (x & Hin & Heq).
      apply String.eqb_eq in Heq. subst x.
      split; [intros H; injection H as <-; auto | intros (H & _); exact H].
    + split; [discriminate|]. intros (H & _ & Hin). injection H as ->.
      assert (existsb (String.eqb a) apps = true) as Habs; [| congruence].
      apply existsb_exists. exists a. split; [exact Hin | apply String.eqb_refl].
Qed.

(** A scan on a device that answers: where it stops, and the table it
    leaves. *)
Lemma scan_applications_scanned (w : world) :
  device_ok (ep w) = true ->
  let w' := exec _scan_applications w in
  ep w' = ep w /\ monitored_apps (vc w') = monitored_apps (vc w)
  /\ exists n,
       scanned n w' /\ (n <= length (sessions (ep w)))%nat
       /\ (forall j s, (j < n)%nat -> sessions (ep w) !! j = Some s ->
                       ~ blocks_scan (monitored_apps (vc w)) s)
       /\ ((n < length (sessions (ep w)))%nat ->
           exists s, sessions (ep w) !! n = Some s
                     /\ blocks_scan (monitored_apps (vc w)) s).
Proof.
  intros Hok. cbv zeta. unfold _scan_applications, Audio.GetAllSessions. run.
  rewrite Hok.
  match goal with
  | |- context [scan_sessions 0 ?l ?w0] =>
      destruct (scan_sessions_scanned l 0 w0)
        as (Hep & Happs & n & Hn & Hrange & Hfree & Hblock);
      [ intros i s Hi; exact Hi
      | unfold scanned, scanned_in; cbn; split;
          [intros a e He; rewrite lookup_empty in He; discriminate
          | intros i s a Hi; lia]
      | destruct (scan_sessions 0 l w0) as [[[] | e] w1] ]
  end.
  all: cbn in Hep, Happs, Hn, Hrange, Hfree, Hblock |- *.
  all: split; [exact Hep|]; split; [exact Happs|].
  all: exists n; split;
    [ unfold scanned in *; cbn; rewrite Hep in *; exact Hn |].
  all: split; [lia|]; split; [intros j s Hj; apply Hfree; lia | exact Hblock].
Qed.

(** X16. After a scan on a device that answers, every entry of the table
    is accurate: its name is a monitored, non-empty process name, its
    handle is a session of that process, and its volume is the one read
    on that session. This holds whether the scan ran to its end or was
    stopped by an error. *)
Theorem scan_table_is_accurate (w : world) :
  device_ok (ep w) = true ->
  let w' := exec _scan_applications w in
  forall a e,
    app_volumes (vc w') !! a = Some e ->
    In a (monitored_apps (vc w)) /\ a <> ""
    /\ exists s v,
         sessions (ep w) !! control e = Some s /\ proc_name s = Some a
         /\ sess_ok s = true
         /\ percent_of_scalar (sess_scalar s) = Some v /\ volume e = PInt v.
Proof.
  intros Hok w' a e He.
  destruct (scan_applications_scanned w Hok)
    as (Hep & Happs & n & [Hsound _] & _).
  fold w' in Hep, Happs, Hsound.
  destruct (Hsound a e He) as (_ & s & v & Hs & Hname & Hread & Hvol).
  rewrite Hep in Hs. rewrite Happs in Hname.
  apply monitored_name_spec in Hname as (Hproc & Hne & Hin).
  unfold readable in Hread. destruct (sess_ok s) eqn:Hsok; [| discriminate].
  split; [exact Hin|]. split; [exact Hne|]. exists s, v. auto.
Qed.

Lemma scan_table_is_accurate_witness :
  let e := {| control := 0%nat; volume := PInt 25 |} in
  In "chrome.exe" (monitored_apps (vc Demo.fresh)) /\ "chrome.exe" <> ""
  /\ exists s v,
       sessions (ep Demo.fresh) !! control e = Some s
       /\ proc_name s = Some "chrome.exe" /\ sess_ok s = true
       /\ percent_of_scalar (sess_scalar s) = Some v /\ volume e = PInt v.
Proof.
  apply (scan_table_is_accurate Demo.fresh eq_refl "chrome.exe"
           {| control := 0%nat; volume := PInt 25 |}).
  vm_compute. reflexivity.
Defined.

(** X17. When every monitored session can be read, the scan enters every
    monitored application that has a session, and of several sessions of
    one process name it keeps the last: the handle in the table is a
    session of that name at or after any other. *)
Theorem scan_keeps_last_session_of_a_name (w : world) :
  device_ok (ep w) = true ->
  (forall s, In s (sessions (ep w)) ->
             monitored_name (monitored_apps (vc w)) s <> None ->
             readable s <> None) ->
  let w' := exec _scan_applications w in
  forall i s a,
    sessions (ep w) !! i = Some s -> proc_name s = Some a ->
    a <> "" -> In a (monitored_apps (vc w)) ->
    exists e s',
      app_volumes (vc w') !! a = Some e /\ (i <= control e)%nat
      /\ sessions (ep w) !! control e = Some s' /\ proc_name s' = Some a.
Proof.
  intros Hok Hreadable w' i s a Hs Hproc Hne Hin.
  destruct (scan_applications_scanned w Hok)
    as (Hep & Happs & n & [Hsound Hcomplete] & Hrange & _ & Hblock).
  fold w' in Hep, Happs, Hsound, Hcomplete.
  rewrite Hep, Happs in *.
  assert (Hn : n = length (sessions (ep w))).
  { destruct (Nat.eq_dec n (length (sessions (ep w)))) as [-> | Hlt]; [reflexivity|].
    destruct Hblock as (s0 & Hs0 & Hmon & Hnone); [lia|].
    exfalso. apply (Hreadable s0); [| exact Hmon | exact Hnone].
    apply (list_elem_of_In (sessions (ep w)) s0).
    apply (list_elem_of_lookup_2 _ n). exact Hs0. }
  destruct (Hcomplete i s a) as (e & He & Hle).
  - rewrite Hn. apply (lookup_lt_Some _ _ _ Hs).
  - exact Hs.
  - apply monitored_name_spec. auto.
  - destruct (Hsound a e He) as (_ & s' & v & Hs' & Hname & _).
    apply monitored_name_spec in Hname as (Hproc' & _).
    exists e, s'. auto.
Qed.

Lemma scan_keeps_last_session_of_a_name_witness :
  exists e s',
    app_volumes (vc (exec _scan_applications Demo.fresh)) !! "chrome.exe" = Some e
    /\ (0 <= control e)%nat
    /\ sessions (ep Demo.fresh) !! control e = Some s'
    /\ proc_name s' = Some "chrome.exe".
Proof.
  apply (scan_keeps_last_session_of_a_name Demo.fresh eq_refl) with
    (s := {| proc_name := Some "chrome.exe"; sess_scalar := 0.25; sess_ok := true |}).
  - intros s [<- | [<- | []]] _; vm_compute; discriminate.
  - reflexivity.
  - reflexivity.
  - discriminate.
  - vm_compute. auto.
Defined.

(** X18. A monitored session that cannot be read stops the scan: an
    application whose sessions all come at or after it is left out of the
    table, though it may be monitored and playing. *)
Theorem scan_stops_at_unreadable_session (w : world) (k : nat) (s : session)
    (a : string) :
  device_ok (ep w) = true ->
  sessions (ep w) !! k = Some s ->
  blocks_scan (monitored_apps (vc w)) s ->
  (forall j s', (j < k)%nat -> sessions (ep w) !! j = Some s' ->
                proc_name s' <> Some a) ->
  app_volumes (vc (exec _scan_applications w)) !! a = None.
Proof.
  intros Hok Hs Hblocks Hlater.
  destruct (scan_applications_scanned w Hok)
    as (Hep & Happs & n & [Hsound _] & _ & Hfree & _).
  rewrite Hep, Happs in *.
  assert (Hn : (n <= k)%nat).
  { destruct (le_lt_dec n k) as [Hle | Hlt]; [exact Hle|].
    exfalso. exact (Hfree k s Hlt Hs Hblocks). }
  destruct (app_volumes (vc (exec _scan_applications w)) !! a) as [e|] eqn:He;
    [| reflexivity].
  exfalso. destruct (Hsound a e He) as (Hlt & s' & v & Hs' & Hname & _).
  apply monitored_name_spec in Hname as (Hproc & _).
  apply (Hlater (control e) s'); [lia | exact Hs' | exact Hproc].
Qed.

(** An endpoint whose second session, of a monitored process, does not
    answer. *)
Definition endpoint_with_dead_session : endpoint :=
  {| master_scalar := 0.5; mute_flag := false; device_ok := true;
     sessions :=
       [ {| proc_name := Some "chrome.exe"; sess_scalar := 0.25; sess_ok := true |};
         {| proc_name := Some "spotify.exe"; sess_scalar := 0.75; sess_ok := false |};
         {| proc_name := Some "vlc.exe"; sess_scalar := 0.5; sess_ok := true |} ] |}.

Lemma scan_stops_at_unreadable_session_witness :
  app_volumes
    (vc (exec _scan_applications (with_ep endpoint_with_dead_session Demo.fresh)))
    !! "vlc.exe" = None.
Proof.
  apply (scan_stops_at_unreadable_session
           (with_ep endpoint_with_dead_session Demo.fresh) 1%nat
           {| proc_name := Some "spotify.exe"; sess_scalar := 0.75; sess_ok := false |}
           "vlc.exe").
  - reflexivity.
  - reflexivity.
  - split; vm_compute; [discriminate | reflexivity].
  - intros [| [| j]] s' Hj Hs'; [| lia | lia].
    vm_compute in Hs'. injection Hs' as <-. discriminate.
Defined.

(** *** system_monitor.py: the edges of the power detection *)

(** X19. While psutil fails, a turn of the power detection changes
    nothing but the log: the state read is [unknown], publishing the
    change needs the boot time and fails in its turn, so no event is
    published and the monitor keeps the last state it knew. *)
Theorem psutil_failure_tick_only_logs (w : world) :
  psutil_ok (ps w) = false ->
  exists l, detect_power_events w = (Val tt, with_log (log w ++ l) w).
Proof.
  intros Hps. unfold detect_power_events. run.
  destruct (detect_sleep_wake (mon w)); cbn [negb].
  2:{ exists []. rewrite app_nil_r, with_log_same. reflexivity. }
  known_run.
  destruct (negb (String.eqb (classify w) (last_power_state (mon w)))).
  2:{ eexists. reflexivity. }
  unfold on_state_change, publish_state_change, psutil_read. run. rewrite Hps.
  cbn. rewrite <- !app_assoc. eexists. reflexivity.
Qed.

Lemma psutil_failure_tick_only_logs_witness :
  exists l,
    detect_power_events
      (with_ps {| psutil_ok := false; cpu_percent := 0; memory_percent := 0;
                  boot_time := 0 |} Demo.world0) =
      (Val tt,
       with_log (log Demo.world0 ++ l)
         (with_ps {| psutil_ok := false; cpu_percent := 0; memory_percent := 0;
                     boot_time := 0 |} Demo.world0)).
Proof.
  apply (psutil_failure_tick_only_logs
           (with_ps {| psutil_ok := false; cpu_percent := 0; memory_percent := 0;
                       boot_time := 0 |} Demo.world0)).
  reflexivity.
Defined.

(** What decides whether the state read is [idle], beside psutil. *)
Definition idle_view (w : world) : Z * Z * Z :=
  (last_activity_time (mon w), idle_threshold_minutes (mon w), clock w).

Lemma keeps_idle_view_on_state_change_idle :
  keeps idle_view (on_state_change "idle").
Proof.
  unfold on_state_change, publish_state_change, sleep_handling, wake_handling,
    _get_last_activity_time, psutil_read, publish_power_event,
    _publish_power_event, topics_get, client_publish, logger, modify_mon,
    time_time.
  apply keeps_bind; [frame |]. intros _.
  apply keeps_bind; [frame |]. intros _.
  apply keeps_bind; [| frame].
  apply keeps_bind; [frame |]. intros m.
  change (awake_like "idle") with false. rewrite andb_false_r. frame.
Qed.

Lemma keeps_idle_view_detect_idle (w : world) :
  classify w = "idle" ->
  idle_view (exec detect_power_events w) = idle_view w.
Proof.
  intros Hidle. unfold detect_power_events, exec. run.
  destruct (detect_sleep_wake (mon w)); cbn [negb]; [| reflexivity].
  known_run. rewrite Hidle.
  destruct (negb (String.eqb "idle" (last_power_state (mon w)))); [| reflexivity].
  pose proof (keeps_idle_view_on_state_change_idle (with_log (log w ++ l) w)) as Hk.
  unfold exec in Hk.
  destruct (on_state_change "idle" (with_log (log w ++ l) w)) as [[[] | e] w1];
    cbn in Hk |- *; exact Hk.
Qed.

(** X20. Nothing in the monitor ends an idle period by itself: once more
    than the threshold has passed since the last recorded activity, and
    as long as psutil answers, the clock does not go back and
    [update_activity_time] is not called, every turn reads the state
    [idle], whatever the load of the machine, and the time of the last
    activity stays where it was. *)
Theorem idle_without_activity_is_forever (es : list env_step) (w : world) :
  idle_too_long (clock w) (mon w) = true ->
  clock_moves_forward (clock w) es ->
  Forall (fun e => activity e = false /\ psutil_ok (readings e) = true) es ->
  Forall (fun s => s = "idle") (states_seen es w)
  /\ last_activity_time (mon (monitor_run es w)) = last_activity_time (mon w).
Proof.
  intros Hidle Hclk Hes. revert w Hidle Hclk.
  induction Hes as [| e es [Hact Hps] _ IH]; intros w Hidle Hclk.
  - split; [constructor | reflexivity].
  - destruct Hclk as [Hnow Hclk].
    assert (Harrive : arrive e w =
              with_clock (at_time e)
                (with_ps (readings e) (with_ep (audio e (ep w)) w))).
    { unfold arrive. rewrite Hact. reflexivity. }
    assert (Hstate : classify (arrive e w) = "idle").
    { rewrite Harrive. unfold classify. cbn. rewrite Hps.
      unfold idle_too_long in *. cbn.
      destruct (Z.ltb_spec (idle_threshold_minutes (mon w) * 60000)
                  (clock w - last_activity_time (mon w))) as [Hlt |]; [| discriminate].
      destruct (Z.ltb_spec (idle_threshold_minutes (mon w) * 60000)
                  (at_time e - last_activity_time (mon w))); [reflexivity | lia]. }
    pose proof (keeps_idle_view_detect_idle (arrive e w) Hstate) as Hview.
    fold (monitor_tick e w) in Hview. rewrite Harrive in Hview.
    unfold idle_view in Hview. cbn in Hview.
    injection Hview as Hlast Hthr Hclock.
    destruct (IH (monitor_tick e w)) as [Hall Hkeep].
    + unfold idle_too_long in *. rewrite Hlast, Hthr, Hclock.
      destruct (Z.ltb_spec (idle_threshold_minutes (mon w) * 60000)
                  (clock w - last_activity_time (mon w))) as [Hlt |]; [| discriminate].
      apply Z.ltb_lt. lia.
    + rewrite Hclock. exact Hclk.
    + cbn [states_seen monitor_run]. split.
      * constructor; [| exact Hall]. rewrite observed_classify. exact Hstate.
      * rewrite Hkeep. exact Hlast.
Qed.

Lemma idle_without_activity_is_forever_witness :
  let w := with_clock (Night.start + 1805000) Demo.world0 in
  let es := [Night.quiet (Night.start + 1810000);
             Night.quiet (Night.start + 3600000)] in
  Forall (fun s => s = "idle") (states_seen es w)
  /\ last_activity_time (mon (monitor_run es w)) = last_activity_time (mon w).
Proof.
  apply (idle_without_activity_is_forever
           [Night.quiet (Night.start + 1810000);
            Night.quiet (Night.start + 3600000)]
           (with_clock (Night.start + 1805000) Demo.world0)).
  - vm_compute. reflexivity.
  - vm_compute. intuition discriminate.
  - repeat constructor.
Defined.

(** X21. A change of state that is neither falling asleep nor waking up
    (from [active] to [active_high], say) is reported by exactly one
    message on the power topic, a [state_change] event that names the
    state left and the state entered; the monitor then remembers the new
    state. *)
Theorem plain_state_change_is_reported_once (t : string) (w : world) :
  monitoring t w ->
  psutil_ok (ps w) = true ->
  classify w <> last_power_state (mon w) ->
  sleep_like (classify w) && awake_like (last_power_state (mon w)) = false ->
  sleep_like (last_power_state (mon w)) && awake_like (classify w) = false ->
  let w' := exec detect_power_events w in
  exists ev,
    bus_calls w' =
      (bus_calls w ++ [BusPublish (Topic t) (Json (PDict ev)) (qos (cli w)) false])%list
    /\ dict_get "event" ev = PStr "state_change"
    /\ dict_get "from_state" ev = PStr (last_power_state (mon w))
    /\ dict_get "to_state" ev = PStr (classify w)
    /\ last_power_state (mon w') = classify w.
Proof.
  intros (Hdet & Ht & Hne) Hps Hdiff Hns Hnw w'. subst w'.
  unfold detect_power_events, exec. run. rewrite Hdet. cbn [negb].
  known_run.
  destruct (String.eqb_spec (classify w) (last_power_state (mon w))) as [| _];
    [contradiction|]. cbn [negb].
  unfold on_state_change, publish_state_change, psutil_read. run. rewrite Hps.
  run. known_run.
  match goal with
  | |- context [power_event_calls ?name ?d ?w0] =>
      pose proof (power_event_calls_configured name d t w0 Ht Hne) as Hcalls
  end.
  rewrite Hcalls by (intros Hnil; discriminate Hnil). clear Hcalls.
  match goal with
  | |- context [sleep_handling ?s ?w0] =>
      pose proof (sleep_handling_skip s w0 Hns) as Hsleep
  end.
  rewrite Hsleep. clear Hsleep. cbv beta iota.
  match goal with
  | |- context [wake_handling ?s ?w0] =>
      pose proof (wake_handling_skip s w0 Hnw) as Hwake
  end.
  rewrite Hwake. clear Hwake.
  cbn. eexists. split; [reflexivity|]. repeat split.
Qed.

Lemma plain_state_change_is_reported_once_witness :
  let w := with_ps {| psutil_ok := true; cpu_percent := 95; memory_percent := 40;
                      boot_time := 1699990000000 |} Demo.world0 in
  let w' := exec detect_power_events w in
  exists ev,
    bus_calls w' =
      (bus_calls w ++
         [BusPublish (Topic "homecontrol/pc/power") (Json (PDict ev)) (qos (cli w))
            false])%list
    /\ dict_get "event" ev = PStr "state_change"
    /\ dict_get "from_state" ev = PStr (last_power_state (mon w))
    /\ dict_get "to_state" ev = PStr (classify w)
    /\ last_power_state (mon w') = classify w.
Proof.
  apply (plain_state_change_is_reported_once "homecontrol/pc/power"
           (with_ps {| psutil_ok := true; cpu_percent := 95; memory_percent := 40;
                       boot_time := 1699990000000 |} Demo.world0)).
  - split; [reflexivity|].
    split; [vm_compute; reflexivity | split; [discriminate | reflexivity]].
  - reflexivity.
  - vm_compute. discriminate.
  - vm_compute. reflexivity.
  - vm_compute. reflexivity.
Defined.

(** *** config.py: merging the file into the defaults *)

Import ConfigManager.

Lemma dict_lookup_set (k key : string) (v : pyval) (d : list (string * pyval)) :
  dict_lookup k (dict_set key v d) =
    if String.eqb k key then Some v else dict_lookup k d.
Proof.
  unfold dict_set. induction d as [| [k' v'] d IH]; cbn.
  - reflexivity.
  - rewrite IH. destruct (String.eqb k key); reflexivity.
Qed.

Lemma dict_lookup_absent (k : string) (d : list (string * pyval)) :
  k ∉ map fst d -> dict_lookup k d = None.
Proof.
  induction d as [| [k' v'] d IH]; cbn; [reflexivity|].
  intros Hnot. apply not_elem_of_cons in Hnot as [Hne Hnot].
  rewrite (IH Hnot). destruct (String.eqb_spec k k'); [contradiction | reflexivity].
Qed.

Lemma merge_lookup (loaded : list (string * pyval)) :
  forall (default : list (string * pyval)) (k : string),
    NoDup (map fst loaded) ->
    dict_lookup k (_merge_configs default loaded) =
      match dict_lookup k loaded with
      | Some v => Some (merge_value (dict_lookup k default) v)
      | None => dict_lookup k default
      end.
Proof.
  induction loaded as [| [key value] rest IH]; intros default k Hnodup;
    [reflexivity|].
  cbn [map fst] in Hnodup. apply NoDup_cons in Hnodup as [Hfresh Hnodup].
  cbn [_merge_configs dict_lookup]. rewrite (IH _ k Hnodup), dict_lookup_set.
  destruct (String.eqb_spec k key) as [-> | Hne].
  - rewrite (dict_lookup_absent key rest Hfresh). reflexivity.
  - destruct (dict_lookup k rest); reflexivity.
Qed.

(** X22. What [_merge_configs] leaves under a key, for a loaded object
    without repeated keys: the default when the file does not have the
    key; the merge of the two when both values are objects; the value of
    the file in every other case, also when it replaces an object by a
    plain value or a plain value by an object. *)
Theorem merge_keeps_defaults_and_takes_loaded
    (default loaded : list (string * pyval)) (k : string) :
  NoDup (map fst loaded) ->
  dict_lookup k (_merge_configs default loaded) =
    match dict_lookup k loaded with
    | None => dict_lookup k default
    | Some (PDict l) =>
        match dict_lookup k default with
        | Some (PDict d) => Some (PDict (_merge_configs d l))
        | _ => Some (PDict l)
        end
    | Some v => Some v
    end.
Proof.
  intros Hnodup. rewrite (merge_lookup loaded default k Hnodup).
  destruct (dict_lookup k loaded) as [v|]; [| reflexivity].
  destruct v; destruct (dict_lookup k default) as [[]|]; reflexivity.
Qed.

Lemma merge_keeps_defaults_and_takes_loaded_witness :
  dict_lookup "mqtt"
    (_merge_configs
       [("mqtt", PDict [("broker", PStr "192.168.1.xxx"); ("port", PInt 1883)]);
        ("apps", PDict [("monitored", PList [PStr "chrome.exe"])])]
       [("mqtt", PDict [("broker", PStr "10.0.0.2")])]) =
    Some (PDict (_merge_configs
                   [("broker", PStr "192.168.1.xxx"); ("port", PInt 1883)]
                   [("broker", PStr "10.0.0.2")])).
Proof.
  apply (merge_keeps_defaults_and_takes_loaded
           [("mqtt", PDict [("broker", PStr "192.168.1.xxx"); ("port", PInt 1883)]);
            ("apps", PDict [("monitored", PList [PStr "chrome.exe"])])]
           [("mqtt", PDict [("broker", PStr "10.0.0.2")])] "mqtt").
  apply (bool_decide_unpack _). vm_compute. reflexivity.
Defined.

(** *** app.py: the applications the controller is given *)

Import App.

(** The controller a construction leaves: it monitors the names it was
    given, and its table holds only monitored sessions of the endpoint. *)
Lemma init_table (names : list string) (rate sync : Z) (w : world) :
  let w' := snd (__init__ names rate sync w) in
  monitored_apps (vc w') = names
  /\ forall a e,
       app_volumes (vc w') !! a = Some e ->
       exists s, In s (sessions (ep w)) /\ monitored_name names s = Some a.
Proof.
  cbv zeta. unfold __init__, _initialize_audio, Audio.GetMasterVolumeLevelScalar,
    py_int. run.
  destruct (device_ok (ep w)) eqn:Hok; cbn.
  2:{ split; [reflexivity|]. intros a e He. rewrite lookup_empty in He. discriminate. }
  destruct (int_of_float (to_c_float (master_scalar (ep w)) * 100)) as [v|]; cbn.
  2:{ split; [reflexivity|]. intros a e He. rewrite lookup_empty in He. discriminate. }
  match goal with
  | |- context [_scan_applications ?w1] =>
      pose proof (scan_applications_scanned w1 Hok) as Hscan;
      unfold exec in Hscan; cbv zeta in Hscan;
      destruct (_scan_applications w1) as [[[] | e] w2]
  end.
  all: cbn in Hscan |- *.
  all: destruct Hscan as (Hep & Happs & n & [Hsound _] & _).
  all: split; [exact Happs|].
  all: intros a e' He; destruct (Hsound a e' He) as (_ & s & v' & Hs & Hname & _).
  all: rewrite Hep in Hs; rewrite Happs in Hname.
  all: exists s; split; [| exact Hname].
  all: apply (list_elem_of_In (sessions (ep w)) s).
  all: apply (list_elem_of_lookup_2 _ (control e')); exact Hs.
Qed.

Lemma set_app_volume_empty_table (app level : pyval) (w : world) :
  app_volumes (vc w) = ∅ -> eval (set_app_volume app level) w = Val false.
Proof.
  intros Hempty. unfold set_app_volume, lookup_app.
  destruct app; run; rewrite ?Hempty, ?lookup_empty; reflexivity.
Qed.

(** X23. [initialize_components] hands the controller what
    [get_monitored_apps] returns, which is the whole [apps] section of
    the configuration and not the list under its [monitored] key. With a
    section of the shape of the default one, the controller monitors the
    single name [monitored]: unless a process has that name, its table is
    empty after the construction, whatever the list names, and every
    [set_app_volume] returns [False]. *)
Theorem apps_section_is_taken_for_the_list (config : list (string * pyval))
    (names : list pyval) (rate sync : Z) (m : M unit) (w : world) :
  dict_lookup "apps" config = Some (PDict [("monitored", PList names)]) ->
  initialize_volume_controller config rate sync = Some m ->
  (forall s, In s (sessions (ep w)) -> proc_name s <> Some "monitored") ->
  let w' := exec m w in
  monitored_apps (vc w') = ["monitored"]
  /\ app_volumes (vc w') = ∅
  /\ forall app level, eval (set_app_volume app level) w' = Val false.
Proof.
  intros Hcfg Hinit Hnone w'.
  unfold initialize_volume_controller, get_monitored_apps, config_get in Hinit.
  rewrite Hcfg in Hinit. cbn in Hinit. injection Hinit as <-.
  destruct (init_table ["monitored"] rate sync w) as [Happs Htable].
  assert (Hvc : vc w' = vc (snd (__init__ ["monitored"] rate sync w))).
  { subst w'. unfold exec, bind.
    destruct (__init__ ["monitored"] rate sync w) as [[[] | e] w1]; reflexivity. }
  assert (Hempty : app_volumes (vc w') = ∅).
  { rewrite Hvc. apply map_empty. intros a.
    destruct (app_volumes (vc (snd (__init__ ["monitored"] rate sync w))) !! a)
      as [e|] eqn:He; [| reflexivity].
    exfalso. destruct (Htable a e He) as (s & Hin & Hname).
    apply monitored_name_spec in Hname as (Hproc & _ & [<- | []]).
    exact (Hnone s Hin Hproc). }
  split; [rewrite Hvc; exact Happs|]. split; [exact Hempty|].
  intros app level. apply set_app_volume_empty_table. exact Hempty.
Qed.

(** The applications of the default configuration. *)
Definition DEFAULT_MONITORED_APPS : list pyval :=
  [PStr "chrome.exe"; PStr "firefox.exe"; PStr "spotify.exe"; PStr "discord.exe";
   PStr "vlc.exe"; PStr "winamp.exe"; PStr "foobar2000.exe"].

Lemma apps_section_is_taken_for_the_list_witness :
  let m := __init__ ["monitored"] 100 2000 ;;
           logger INFO "Volume controller initialized" in
  let w' := exec m Demo.fresh in
  monitored_apps (vc w') = ["monitored"]
  /\ app_volumes (vc w') = ∅
  /\ forall app level, eval (set_app_volume app level) w' = Val false.
Proof.
  apply (apps_section_is_taken_for_the_list
           [("apps", PDict [("monitored", PList DEFAULT_MONITORED_APPS)])]
           DEFAULT_MONITORED_APPS 100 2000
           (__init__ ["monitored"] 100 2000 ;;
            logger INFO "Volume controller initialized")
           Demo.fresh).
  - reflexivity.
  - reflexivity.
  - intros s [<- | [<- | []]]; discriminate.
Defined.

(** *** A volume set by a command, and the sync loop *)

(** X24. A volume the controller has just set is not taken by the sync
    loop for a change made from outside. After a [set_volume] that went
    through, the device reads back the clamped level or one point less
    (the level goes through a C float, and [int(scalar * 100)]
    truncates); that is within the threshold of
    [sync_volume_from_system], so at whatever time the next turn of the
    loop comes, the sync returns [None] and the turn publishes nothing. *)
Theorem set_volume_is_not_echoed_by_sync (v t : Z) (w : world) :
  update_rate_limit (vc w) <= clock w - last_update (vc w) ->
  device_ok (ep w) = true ->
  let w1 := with_clock t (exec (set_volume v) w) in
  clamp v 0 100 - 1 <= volume_read w1 <= clamp v 0 100
  /\ eval sync_volume_from_system w1 = Val None
  /\ bus_calls (exec sync_loop_turn w1) = bus_calls w.
Proof.
  intros Hrate Hok w1.
  assert (Hrange : 0 <= clamp v 0 100 <= 100) by (unfold clamp; lia).
  assert (Hread : volume_read w1 = percent_read_back (clamp v 0 100)).
  { subst w1. unfold exec. rewrite (set_volume_applied v w Hrate Hok).
    unfold volume_read.
    cbn [snd ep with_clock with_log with_vc with_ep with_ep_calls device_ok
         master_scalar with_master_scalar].
    rewrite Hok, (percent_round_trip _ Hrange). reflexivity. }
  pose proof (percent_read_back_within_one (clamp v 0 100)) as Hnear.
  assert (Hcur : current_volume (vc w1) = clamp v 0 100).
  { subst w1. unfold exec. rewrite (set_volume_applied v w Hrate Hok). reflexivity. }
  assert (Hbus : bus_calls w1 = bus_calls w).
  { subst w1. unfold exec. rewrite (set_volume_applied v w Hrate Hok). reflexivity. }
  destruct (sync_volume_from_system_run w1) as (r & w2 & Hrun & Hout & Hr).
  assert (Hnone : r = None).
  { destruct r as [v'|]; [| reflexivity]. exfalso.
    destruct (Hr v' eq_refl) as (-> & Habs & _).
    rewrite Hread, Hcur in Habs. lia. }
  subst r. split; [rewrite Hread; exact Hnear|]. split.
  - unfold eval. rewrite Hrun. reflexivity.
  - rewrite <- Hbus. unfold sync_loop_turn, exec. run.
    destruct (connected (cli w1)); [| reflexivity].
    rewrite Hrun. cbn.
    assert (Hb2 : bus_calls w2 = bus_calls w1).
    { unfold outside_audio in Hout. injection Hout as -> _ _ _ _. reflexivity. }
    destruct ((clock w2 / 1000) mod 30 =? 0); [| exact Hb2].
    pose proof (keeps_refresh_applications w2) as Hkeep.
    unfold exec, outside_audio in Hkeep. injection Hkeep as Hb _ _ _ _.
    destruct (refresh_applications w2) as [[[] | e] w3]; cbn in Hb |- *;
      rewrite Hb; exact Hb2.
Qed.

Lemma set_volume_is_not_echoed_by_sync_witness :
  let w1 := with_clock (clock Demo.world0 + 2000)
              (exec (set_volume 29) Demo.world0) in
  clamp 29 0 100 - 1 <= volume_read w1 <= clamp 29 0 100
  /\ eval sync_volume_from_system w1 = Val None
  /\ bus_calls (exec sync_loop_turn w1) = bus_calls Demo.world0.
Proof.
  apply (set_volume_is_not_echoed_by_sync 29 (clock Demo.world0 + 2000) Demo.world0).
  - vm_compute. discriminate.
  - reflexivity.
Defined.

(** *** The volumes of all the applications *)

(** The volume [get_app_volume] reads for a name: that of the session
    behind the handle of its entry, when the name is in the table and the
    session answers with a finite level. *)
Definition app_reading (w : world) (a : string) : option Z :=
  match app_volumes (vc w) !! a with
  | Some e =>
      match sessions (ep w) !! control e with
      | Some s => readable s
      | None => None
      end
  | None => None
  end.

(** Two worlds with the same endpoint, the same client, and tables with
    the same names and handles. *)
Definition same_handles (w w' : world) : Prop :=
  ep w' = ep w /\ cli w' = cli w /\ bus_calls w' = bus_calls w
  /\ forall n, control <$> app_volumes (vc w') !! n
               = control <$> app_volumes (vc w) !! n.

Lemma same_handles_refl (w : world) : same_handles w w.
Proof. repeat split. Qed.

Lemma same_handles_trans (w1 w2 w3 : world) :
  same_handles w1 w2 -> same_handles w2 w3 -> same_handles w1 w3.
Proof.
  intros (He & Hc & Hb & Ht) (He' & Hc' & Hb' & Ht').
  split; [congruence|]. split; [congruence|]. split; [congruence|].
  intros n. rewrite Ht'. apply Ht.
Qed.

Lemma app_reading_same (w w' : world) (a : string) :
  same_handles w w' -> app_reading w' a = app_reading w a.
Proof.
  intros (He & _ & _ & Ht). unfold app_reading. specialize (Ht a). rewrite He.
  destruct (app_volumes (vc w') !! a) as [e'|], (app_volumes (vc w) !! a) as [e|];
    cbn in Ht; try discriminate; [| reflexivity].
  injection Ht as ->. reflexivity.
Qed.

Lemma get_app_volume_run (a : string) (w : world) :
  exists w',
    get_app_volume a w = (Val (app_reading w a), w') /\ same_handles w w'.
Proof.
  unfold get_app_volume, Audio.GetMasterVolume, py_int, app_reading, readable,
    percent_of_scalar. run.
  destruct (app_volumes (vc w) !! a) as [e|] eqn:Ha; cbn.
  2:{ eexists. split; [reflexivity | apply same_handles_refl]. }
  destruct (sessions (ep w) !! control e) as [s|]; cbn.
  2:{ eexists. split; [reflexivity | repeat split]. }
  destruct (sess_ok s); cbn.
  2:{ eexists. split; [reflexivity | repeat split]. }
  destruct (int_of_float (to_c_float (sess_scalar s) * 100)) as [v|]; cbn.
  2:{ eexists. split; [reflexivity | repeat split]. }
  eexists. split; [reflexivity|]. repeat split. cbn. intros n.
  destruct (decide (n = a)) as [-> | Hne].
  - rewrite lookup_insert_eq, Ha. reflexivity.
  - rewrite lookup_insert_ne by congruence. reflexivity.
Qed.

Lemma collect_app_volumes_run (names : list string) :
  forall (volumes : gmap string Z) (w : world),
  exists vols w',
    collect_app_volumes names volumes w = (Val vols, w')
    /\ same_handles w w'
    /\ forall n,
         vols !! n =
           match (if decide (n ∈ names) then app_reading w n else None) with
           | Some v => Some v
           | None => volumes !! n
           end.
Proof.
  induction names as [| a rest IH]; intros volumes w; cbn [collect_app_volumes].
  - exists volumes, w. split; [reflexivity|]. split; [apply same_handles_refl|].
    intros n. destruct (decide (n ∈ [])) as [Hin |]; [| reflexivity].
    apply elem_of_nil in Hin. contradiction.
  - unfold bind. destruct (get_app_volume_run a w) as (w1 & -> & Hsame).
    set (volumes1 := match app_reading w a with
                     | Some v => <[a := v]> volumes
                     | None => volumes
                     end).
    destruct (IH volumes1 w1) as (vols & w' & Hrun & Hsame' & Hvols).
    exists vols, w'. split.
    { subst volumes1. destruct (app_reading w a); exact Hrun. }
    split; [exact (same_handles_trans _ _ _ Hsame Hsame')|].
    intros n. rewrite Hvols, (app_reading_same w w1 n Hsame).
    destruct (decide (n = a)) as [-> | Hne].
    + destruct (decide (a ∈ a :: rest)) as [_ | Hnot];
        [| exfalso; apply Hnot; left].
      subst volumes1.
      destruct (decide (a ∈ rest)), (app_reading w a) as [v|];
        rewrite ?lookup_insert_eq; reflexivity.
    + assert (Hv1 : volumes1 !! n = volumes !! n).
      { subst volumes1. destruct (app_reading w a);
          [rewrite lookup_insert_ne by congruence |]; reflexivity. }
      rewrite Hv1.
      destruct (decide (n ∈ rest)) as [Hin | Hnin],
               (decide (n ∈ a :: rest)) as [Hin' | Hnin']; try reflexivity.
      * exfalso. apply Hnin'. right. exact Hin.
      * exfalso. apply elem_of_cons in Hin' as [-> | Hin']; contradiction.
Qed.

Lemma get_all_app_volumes_run (w : world) :
  exists vols w',
    get_all_app_volumes w = (Val vols, w')
    /\ (forall a, vols !! a = app_reading w a)
    /\ same_handles w w'.
Proof.
  unfold get_all_app_volumes. run.
  destruct (collect_app_volumes_run
              (map fst (map_to_list (app_volumes (vc w)))) ∅ w)
    as (vols & w' & Hrun & Hsame & Hvols).
  exists vols, w'. split; [exact Hrun|]. split; [| exact Hsame].
  intros a. rewrite Hvols, lookup_empty.
  destruct (decide (a ∈ map fst (map_to_list (app_volumes (vc w))))) as [_ | Hnot].
  - destruct (app_reading w a); reflexivity.
  - unfold app_reading.
    destruct (app_volumes (vc w) !! a) as [e|] eqn:Ha; [| reflexivity].
    exfalso. apply Hnot. apply list_elem_of_fmap. exists (a, e).
    split; [reflexivity|]. apply elem_of_map_to_list. exact Ha.
Qed.

(** X25. [get_all_app_volumes] returns, for every application of the
    table whose session answers, the volume read on that session now, and
    nothing for the others: an application whose session has gone is left
    out without an error. The endpoint and the client are not changed. *)
Theorem get_all_app_volumes_reads_live_sessions (w : world) :
  exists vols w',
    get_all_app_volumes w = (Val vols, w')
    /\ (forall a, vols !! a = app_reading w a)
    /\ ep w' = ep w /\ bus_calls w' = bus_calls w.
Proof.
  destruct (get_all_app_volumes_run w)
    as (vols & w' & Hrun & Hvols & Hep & _ & Hbus & _).
  exists vols, w'. auto.
Qed.

(** X26. GET_APP_VOLUMES publishes the volumes of the applications whose
    session answers, as one JSON object, not retained, on the status
    topic under [app_volume]; when no application can be read, it
    publishes nothing, and nothing goes out either when the name of the
    [app_volume] topic has a wildcard, which the MQTT client refuses. *)
Theorem get_app_volumes_command_publishes_readings (command : string)
    (w : world) :
  upper command = "GET_APP_VOLUMES" ->
  exists vols,
    (forall a, vols !! a = app_reading w a)
    /\ bus_calls (exec (handle_command command) w) =
         (bus_calls w ++
            (if bool_decide (vols = ∅)
                || base_has_wildcard (topics (cli w) !! "app_volume")
             then []
             else [BusPublish (AppVolumeStatus (topics (cli w) !! "app_volume"))
                     (Json (dict_of_volumes vols)) (qos (cli w)) false]))%list.
Proof.
  intros Hcmd.
  destruct (get_all_app_volumes_run w)
    as (vols & w' & Hrun & Hvols & Hep & Hcli & Hbus & _).
  exists vols. split; [exact Hvols|].
  unfold handle_command, exec. rewrite Hcmd.
  change (String.eqb "GET_APP_VOLUMES" "MUTE") with false.
  change (String.eqb "GET_APP_VOLUMES" "UNMUTE") with false.
  change (String.eqb "GET_APP_VOLUMES" "STATUS") with false.
  change (String.eqb "GET_APP_VOLUMES" "GETVOLUME") with false.
  change (String.eqb "GET_APP_VOLUMES" "REFRESH_APPS") with false.
  change (String.eqb "GET_APP_VOLUMES" "GET_APP_VOLUMES") with true. cbv iota.
  unfold publish_app_volumes, topics_get, client_publish. run. rewrite Hrun.
  destruct (bool_decide (vols = ∅)); cbn [negb orb]; cbv beta.
  - cbn. rewrite Hbus, app_nil_r. reflexivity.
  - cbn [topic_has_wildcard]. rewrite Hcli.
    destruct (base_has_wildcard (topics (cli w) !! "app_volume")); cbn;
      rewrite Hbus, ?app_nil_r; reflexivity.
Qed.

Lemma get_app_volumes_command_publishes_readings_witness :
  exists vols,
    (forall a, vols !! a = app_reading Demo.world0 a)
    /\ bus_calls (exec (handle_command "get_app_volumes") Demo.world0) =
         (bus_calls Demo.world0 ++
            (if bool_decide (vols = ∅)
                || base_has_wildcard (topics (cli Demo.world0) !! "app_volume")
             then []
             else [BusPublish
                     (AppVolumeStatus (topics (cli Demo.world0) !! "app_volume"))
                     (Json (dict_of_volumes vols)) (qos (cli Demo.world0))
                     false]))%list.
Proof.
  apply (get_app_volumes_command_publishes_readings "get_app_volumes" Demo.world0).
  reflexivity.
Defined.
